(** * Bubble AI agent core: orchestration loop, provider retry ladder,
      search escalation and session guard.

    A shallow embedding of
    - [services/externalSearchService.ts] (module [ExternalSearch]),
    - the autonomous agent handler, [runAutonomousAgent] and
      [generateContentStreamWithRetry] (module [Agent]),
    - the send guard [handleSendMessage] of the chat hook (module
      [SessionGuard]).

    Conventions.  JavaScript strings are modelled by [string]: sequences of
    8-bit characters (the UTF-8 bytes of the text).  [toLowerCase] and [trim]
    act on ASCII letters and ASCII white space; case mappings and white space
    outside ASCII are outside the model.  Promises are modelled by how they
    settle: [Returned v] or [Threw t].  Network peers, the model providers and
    the user pressing "stop" are an explicit environment that scripts every
    reply, so every function below is a total, executable function of its
    arguments and of that environment. *)

From Stdlib Require Import String Ascii List ZArith Lia Bool Arith DecimalString.
Import ListNotations.
Open Scope string_scope.
Open Scope nat_scope.
#[local] Set Warnings "-register-all".

(** ** JavaScript strings *)
Module Js.

Definition nl : string := String (ascii_of_nat 10) EmptyString.
Definition dq : string := String (ascii_of_nat 34) EmptyString.

(** [drop n s]: [s.slice(n)]. *)
Fixpoint drop (n : nat) (s : string) : string :=
  match n, s with
  | 0, _ => s
  | S n', String _ r => drop n' r
  | S _, EmptyString => EmptyString
  end.

(** [startsWith s p]: [s.startsWith(p)]. *)
Definition startsWith (s p : string) : bool := String.prefix p s.

(** [split_at sub s]: the text before and after the first occurrence of
    [sub] in [s] ([s.indexOf(sub)] and the two slices around it). *)
Fixpoint split_at (sub s : string) : option (string * string) :=
  if String.prefix sub s then Some (EmptyString, drop (String.length sub) s)
  else match s with
       | EmptyString => None
       | String c r =>
           match split_at sub r with
           | Some (before, after) => Some (String c before, after)
           | None => None
           end
       end.

(** [includes s sub]: [s.includes(sub)]. *)
Definition includes (s sub : string) : bool :=
  match split_at sub s with Some _ => true | None => false end.

Definition lower_ascii (c : ascii) : ascii :=
  let n := nat_of_ascii c in
  if (65 <=? n) && (n <=? 90) then ascii_of_nat (n + 32) else c.

(** [toLowerCase s]: [s.toLowerCase()] on ASCII letters. *)
Fixpoint toLowerCase (s : string) : string :=
  match s with
  | EmptyString => EmptyString
  | String c r => String (lower_ascii c) (toLowerCase r)
  end.

Definition isSpace (c : ascii) : bool :=
  let n := nat_of_ascii c in
  (n =? 9) || (n =? 10) || (n =? 11) || (n =? 12) || (n =? 13) || (n =? 32).

Fixpoint trimStart (s : string) : string :=
  match s with
  | EmptyString => EmptyString
  | String c r => if isSpace c then trimStart r else s
  end.

Fixpoint rev (s : string) : string :=
  match s with
  | EmptyString => EmptyString
  | String c r => rev r ++ String c EmptyString
  end.

(** [trim s]: [s.trim()]. *)
Definition trim (s : string) : string := rev (trimStart (rev (trimStart s))).

(** A string is truthy when it is not empty. *)
Definition nonEmpty (s : string) : bool :=
  match s with EmptyString => false | String _ _ => true end.

Definition string_of_Z (z : Z) : string := NilZero.string_of_int (Z.to_int z).
Definition string_of_nat (n : nat) : string := string_of_Z (Z.of_nat n).

(** [match_tag open close s]: the first match of the regular expression
    [open([\s\S]*?)close] in [s], as the captured group and the text after
    the match.  The match is the leftmost [open] followed, lazily, by the
    nearest [close]. *)
Definition match_tag (open close s : string) : option (string * string) :=
  match split_at open s with
  | None => None
  | Some (_, rest) => split_at close rest
  end.

(** [matchAll_from fuel open close s]: the captures of the successive
    matches of the global regular expression, each search starting where the
    previous match ended. *)
Fixpoint matchAll_from (fuel : nat) (open close s : string) : list string :=
  match fuel with
  | 0 => []
  | S fuel' =>
      match match_tag open close s with
      | None => []
      | Some (inner, after) => inner :: matchAll_from fuel' open close after
      end
  end.

(** [matchAll open close s]: [Array.from(s.matchAll(/open([\s\S]*?)close/g))],
    each match given by its capture.  A match consumes at least one
    character when [open] is not empty, so [length s] rounds are enough. *)
Definition matchAll (open close s : string) : list string :=
  matchAll_from (String.length s) open close s.

End Js.

(** ** JavaScript values read from JSON payloads, errors and promises *)

(** A value produced by [JSON.parse] (numbers are kept as integers: only
    their truthiness and their printing are observed). *)
Inductive json : Type :=
| JNull
| JBool (b : bool)
| JNum (n : Z)
| JStr (s : string)
| JArr (xs : list json)
| JObj (fields : list (string * json)).

(** A JavaScript value: [None] is [undefined]. *)
Definition jsval : Type := option json.

Definition truthy (v : jsval) : bool :=
  match v with
  | None => false
  | Some JNull => false
  | Some (JBool b) => b
  | Some (JNum n) => negb (n =? 0)%Z
  | Some (JStr s) => Js.nonEmpty s
  | Some (JArr _) => true
  | Some (JObj _) => true
  end.

(** [a || b] on values. *)
Definition js_or (a b : jsval) : jsval := if truthy a then a else b.

(** The value of the last binding of [k]: [JSON.parse] keeps the last of
    duplicated keys. *)
Fixpoint lookup_field (k : string) (fs : list (string * json)) : jsval :=
  match fs with
  | [] => None
  | (k', v) :: r =>
      match lookup_field k r with
      | Some v' => Some v'
      | None => if String.eqb k k' then Some v else None
      end
  end.

(** Template-literal conversion, [`${v}`]. *)
Fixpoint json_toString (j : json) : string :=
  match j with
  | JNull => "null"
  | JBool true => "true"
  | JBool false => "false"
  | JNum n => Js.string_of_Z n
  | JStr s => s
  | JArr xs =>
      (fix join (l : list json) : string :=
         match l with
         | [] => ""
         | x :: r =>
             let sx := match x with JNull => "" | _ => json_toString x end in
             match r with [] => sx | _ :: _ => sx ++ "," ++ join r end
         end) xs
  | JObj _ => "[object Object]"
  end.

Definition toString (v : jsval) : string :=
  match v with None => "undefined" | Some j => json_toString j end.

(** An [Error] object, by the fields the code inspects. *)
Record JsError : Type := mkError {
  err_name : string;
  err_status : option Z;
  err_message : option string
}.

Definition Error (msg : string) : JsError :=
  {| err_name := "Error"; err_status := None; err_message := Some msg |}.
Definition TypeError (msg : string) : JsError :=
  {| err_name := "TypeError"; err_status := None; err_message := Some msg |}.
Definition SyntaxError (msg : string) : JsError :=
  {| err_name := "SyntaxError"; err_status := None; err_message := Some msg |}.
Definition AbortError : JsError :=
  {| err_name := "AbortError"; err_status := None;
     err_message := Some "The operation was aborted." |}.

(** What a [throw] carries: an error object, or a bare boolean. *)
Inductive Thrown : Type :=
| ThrownError (e : JsError)
| ThrownBool (b : bool).

(** How an awaited call settles. *)
Inductive Outcome (A : Type) : Type :=
| Returned (a : A)
| Threw (t : Thrown).
Arguments Returned {A} a.
Arguments Threw {A} t.

(** [v.k]: reading a property of [null] or [undefined] throws a [TypeError];
    on an object it is the field; on any other value the properties read in
    this code base are [undefined]. *)
Definition prop (v : jsval) (k : string) : Outcome jsval :=
  match v with
  | None => Threw (ThrownError (TypeError "Cannot read properties of undefined"))
  | Some JNull => Threw (ThrownError (TypeError "Cannot read properties of null"))
  | Some (JObj fs) => Returned (lookup_field k fs)
  | Some _ => Returned None
  end.

Definition isArray (v : jsval) : option (list json) :=
  match v with Some (JArr xs) => Some xs | _ => None end.

(** ** HTTP replies *)

Inductive HttpBody : Type :=
| BodyJson (data : json)
| BodyNotJson.

(** A settled [fetch]: rejected (network failure, abort), or a response with
    its status and body. *)
Inductive Settled : Type :=
| Rejected (e : JsError)
| Response (status : Z) (body : HttpBody).

Definition resp_ok (status : Z) : bool := ((200 <=? status) && (status <=? 299))%Z.

(** [await resp.json()]. *)
Definition resp_json (body : HttpBody) : Outcome json :=
  match body with
  | BodyJson data => Returned data
  | BodyNotJson => Threw (ThrownError (SyntaxError "Unexpected token in JSON"))
  end.

(** Sequencing of calls that may throw. *)
Definition bind {A B : Type} (m : Outcome A) (k : A -> Outcome B) : Outcome B :=
  match m with
  | Returned a => k a
  | Threw t => Threw t
  end.

Notation "x <- m ;; k" := (bind m (fun x => k))
  (at level 61, m at next level, right associativity).

(** [xs.map(f)] where [f] may throw. *)
Fixpoint mapM {A B : Type} (f : A -> Outcome B) (xs : list A) : Outcome (list B) :=
  match xs with
  | [] => Returned []
  | x :: r => y <- f x ;; ys <- mapM f r ;; Returned (y :: ys)
  end.

(** [xs.forEach(x => acc = f(x, acc))] where [f] may throw. *)
Fixpoint forEachM {A S : Type} (f : A -> S -> Outcome S) (xs : list A) (acc : S) : Outcome S :=
  match xs with
  | [] => Returned acc
  | x :: r => acc' <- f x acc ;; forEachM f r acc'
  end.

(** ** services/externalSearchService.ts *)
Module ExternalSearch.

Record WebSearchResult : Type := mkResult {
  title : jsval;
  url : jsval;
  snippet : jsval;
  content : jsval
}.

Definition keywords : list string :=
  [ "search online"; "search the web"; "look this up"; "browse";
    "check internet"; "latest"; "today"; "news"; "price"; "who is";
    "what is"; "when did" ].

(** Determines if the external search pipeline should be triggered. *)
Definition shouldUseExternalSearch
    (userMessage : string) (modelSupportsSearch hasSearchTag : bool) : bool :=
  if modelSupportsSearch && negb hasSearchTag then false
  else
    let lower := Js.toLowerCase userMessage in
    let keywordHit := existsb (fun kw => Js.includes lower kw) keywords in
    keywordHit || hasSearchTag.

(** The primary provider's reply to one [fetch]: settled in time, or nothing
    before the 8000 ms timer aborts the request. *)
Inductive PrimaryReply : Type :=
| InTime (s : Settled)
| NoReplyWithin8s.

Definition primary_timeout_ms : Z := 8000.

(** The network calls a search issues, in order. *)
Inductive ProviderCall : Type :=
| PrimaryCall (query : string) (limit : Z)
| FallbackCall (query : string).

Definition bubble_result (r : json) : Outcome WebSearchResult :=
  t <- prop (Some r) "title" ;;
  u <- prop (Some r) "url" ;;
  s <- prop (Some r) "snippet" ;;
  Returned {| title := js_or t (Some (JStr "Untitled Page"));
              url := u;
              snippet := js_or s (Some (JStr "No description available."));
              content := s |}.

(** Executes a search via the custom search API.  The [catch] logs and
    rethrows, so the function settles as its body does. *)
Definition runBubbleSearch (query : string) (limit : Z) (reply : PrimaryReply)
  : Outcome (list WebSearchResult) :=
  match reply with
  | NoReplyWithin8s => Threw (ThrownError AbortError)
  | InTime (Rejected e) => Threw (ThrownError e)
  | InTime (Response status body) =>
      if negb (resp_ok status)
      then Threw (ThrownError (Error ("Bubble Search API Error: " ++ Js.string_of_Z status)))
      else
        data <- resp_json body ;;
        success <- prop (Some data) "success" ;;
        if truthy success then
          results <- prop (Some data) "results" ;;
          match isArray results with
          | Some rs => mapM bubble_result rs
          | None => Returned []
          end
        else Returned []
  end.

(** [text.split(' - ')[0]]. *)
Definition first_part (text : string) : string :=
  match Js.split_at " - " text with
  | Some (before, _) => before
  | None => text
  end.

Definition ddg_topic (t : json) (results : list WebSearchResult)
  : Outcome (list WebSearchResult) :=
  firstURL <- prop (Some t) "FirstURL" ;;
  if truthy firstURL then
    text <- prop (Some t) "Text" ;;
    if truthy text then
      match text with
      | Some (JStr s) =>
          Returned (results ++
            [ {| title := js_or (Some (JStr (first_part s))) (Some (JStr "Related Result"));
                 url := firstURL; snippet := text; content := text |} ])%list
      | _ => Threw (ThrownError (TypeError "t.Text.split is not a function"))
      end
    else Returned results
  else Returned results.

(** The body of the fallback's [try] block. *)
Definition ddg_body (reply : Settled) : Outcome (list WebSearchResult) :=
  match reply with
  | Rejected e => Threw (ThrownError e)
  | Response status body =>
      if negb (resp_ok status) then Returned []
      else
        data <- resp_json body ;;
        abstractURL <- prop (Some data) "AbstractURL" ;;
        heading <- (if truthy abstractURL then prop (Some data) "Heading"
                    else Returned None) ;;
        results <- (if truthy abstractURL && truthy heading then
                      abstract <- prop (Some data) "Abstract" ;;
                      Returned [ {| title := heading; url := abstractURL;
                                    snippet := js_or abstract (Some (JStr "Result from DuckDuckGo"));
                                    content := abstract |} ]
                    else Returned []) ;;
        related <- prop (Some data) "RelatedTopics" ;;
        if truthy related then
          match isArray related with
          | Some ts => forEachM ddg_topic (firstn 5 ts) results
          | None => Returned results
          end
        else Returned results
  end.

(** Fallback search using the key-less instant-answer API: whatever the body
    throws is caught and an empty list returned. *)
Definition runDuckDuckGoFallback (query : string) (reply : Settled)
  : Outcome (list WebSearchResult) :=
  match ddg_body reply with
  | Returned results => Returned results
  | Threw _ => Returned []
  end.

(** Main unified search function with fallback strategy, with the provider
    calls it issued. *)
Definition runWebSearch (query : string) (limit : Z)
    (primary : PrimaryReply) (fallback : Settled)
  : Outcome (list WebSearchResult) * list ProviderCall :=
  match runBubbleSearch query limit primary with
  | Returned results => (Returned results, [PrimaryCall query limit])
  | Threw _ =>
      (runDuckDuckGoFallback query fallback,
       [PrimaryCall query limit; FallbackCall query])
  end.

End ExternalSearch.

(** ** [JSON.parse], as far as the agent observes it

    The agent spreads the parsed memory object into a prompt; what its control
    flow observes is whether [JSON.parse] throws.  [Json.value] recognises one
    JSON value (RFC 8259 grammar) at the head of its input and returns the
    rest of the input. *)
Module Json.

Definition code (c : ascii) (n : nat) : bool := nat_of_ascii c =? n.

Definition is_ws (c : ascii) : bool :=
  code c 32 || code c 9 || code c 10 || code c 13.

Definition is_digit (c : ascii) : bool :=
  (48 <=? nat_of_ascii c) && (nat_of_ascii c <=? 57).

Fixpoint skip_ws (s : string) : string :=
  match s with
  | EmptyString => EmptyString
  | String c r => if is_ws c then skip_ws r else s
  end.

Fixpoint skip_digits (s : string) : string :=
  match s with
  | EmptyString => EmptyString
  | String c r => if is_digit c then skip_digits r else s
  end.

Definition digits1 (s : string) : option string :=
  match s with
  | String c r => if is_digit c then Some (skip_digits r) else None
  | EmptyString => None
  end.

Definition expect (lit s : string) : option string :=
  if String.prefix lit s then Some (Js.drop (String.length lit) s) else None.

(** After the opening quote: up to and including the closing quote. *)
Fixpoint string_body (s : string) : option string :=
  match s with
  | EmptyString => None
  | String c r =>
      if code c 34 then Some r
      else if code c 92 then
        match r with
        | String _ r' => string_body r'
        | EmptyString => None
        end
      else if nat_of_ascii c <? 32 then None
      else string_body r
  end.

Definition exponent (s : string) : option string :=
  match s with
  | String c r =>
      if code c 101 || code c 69 then
        match r with
        | String d r' => if code d 43 || code d 45 then digits1 r' else digits1 r
        | EmptyString => None
        end
      else Some s
  | EmptyString => Some s
  end.

Definition fraction (s : string) : option string :=
  match s with
  | String c r =>
      if code c 46 then match digits1 r with Some r' => exponent r' | None => None end
      else exponent s
  | EmptyString => Some s
  end.

Definition number (s : string) : option string :=
  let s' := match s with
            | String c r => if code c 45 then r else s
            | EmptyString => s
            end in
  match s' with
  | String c r =>
      if code c 48 then fraction r
      else if is_digit c then fraction (skip_digits r)
      else None
  | EmptyString => None
  end.

Fixpoint value (fuel : nat) (s : string) {struct fuel} : option string :=
  match fuel with
  | 0 => None
  | S fuel' =>
      match skip_ws s with
      | EmptyString => None
      | String c r =>
          if code c 110 then expect "ull" r
          else if code c 116 then expect "rue" r
          else if code c 102 then expect "alse" r
          else if code c 34 then string_body r
          else if code c 91 then
            match skip_ws r with
            | String d r' => if code d 93 then Some r' else elements fuel' r
            | EmptyString => None
            end
          else if code c 123 then
            match skip_ws r with
            | String d r' => if code d 125 then Some r' else members fuel' r
            | EmptyString => None
            end
          else number (String c r)
      end
  end
with elements (fuel : nat) (s : string) {struct fuel} : option string :=
  match fuel with
  | 0 => None
  | S fuel' =>
      match value fuel' s with
      | None => None
      | Some r =>
          match skip_ws r with
          | String c r' =>
              if code c 44 then elements fuel' r'
              else if code c 93 then Some r'
              else None
          | EmptyString => None
          end
      end
  end
with members (fuel : nat) (s : string) {struct fuel} : option string :=
  match fuel with
  | 0 => None
  | S fuel' =>
      match skip_ws s with
      | String q r =>
          if code q 34 then
            match string_body r with
            | None => None
            | Some r1 =>
                match skip_ws r1 with
                | String c r2 =>
                    if code c 58 then
                      match value fuel' r2 with
                      | None => None
                      | Some r3 =>
                          match skip_ws r3 with
                          | String d r4 =>
                              if code d 44 then members fuel' r4
                              else if code d 125 then Some r4
                              else None
                          | EmptyString => None
                          end
                      end
                    else None
                | EmptyString => None
                end
            end
          else None
      | EmptyString => None
      end
  end.

(** [JSON.parse(text)]: returns when [text] is exactly one JSON value
    surrounded by white space, throws a [SyntaxError] otherwise.  Every
    recursive call of the recogniser consumes a character, so
    [2 * length text + 2] rounds are enough. *)
Definition parse (text : string) : Outcome unit :=
  match value (2 * String.length text + 2) text with
  | Some r =>
      match skip_ws r with
      | EmptyString => Returned tt
      | String _ _ => Threw (ThrownError (SyntaxError "Unexpected non-whitespace character after JSON"))
      end
  | None => Threw (ThrownError (SyntaxError "Unexpected end of JSON input"))
  end.

End Json.

(** ** The autonomous agent handler: [runAutonomousAgent] *)
Module Agent.
Import ExternalSearch.

(** Modelled from the spec: the router's action type ([RouterAction] of
    services/semanticRouter, whose declaration is not among the sources):
    "one of SIMPLE, DEEP_SEARCH, IMAGE, PROJECT, CANVAS, STUDY". *)
Inductive RouterAction : Type :=
| SIMPLE | DEEP_SEARCH | IMAGE | PROJECT | CANVAS | STUDY.

(** Any other value of [thinkingMode] takes the branches of [fast]. *)
Inductive ThinkingMode : Type := instant | fast | think | deep.

Record File : Type := mkFile { file_type : string; file_name : string }.

(** The fields of the profile that steer control flow; [None] is a missing
    field or a missing profile.  Tone, length and custom instructions only
    shape the system instruction. *)
Record Profile : Type := mkProfile {
  openrouter_api_key : option string;
  preferred_deep_model : option string;
  role : option string
}.

(** The request.  History, emotion data and the identifiers copied into the
    reply only shape the request payload and are left out. *)
Record AgentInput : Type := mkInput {
  prompt : string;
  files : list File;
  model : option string;
  thinkingMode : ThinkingMode;
  profile : Profile
}.

Record Grounding : Type := mkGrounding { uri : jsval; web_title : jsval }.

Record Message : Type := mkMessage {
  text : string;
  model_name : option string;
  groundingMetadata : option (list Grounding)
}.

Definition AgentExecutionResult : Type := list Message.

Record Chunk : Type := mkChunk {
  chunk_text : string;
  chunk_grounding : option (list Grounding)
}.

(** A stream: its items in order and, possibly, the error that ends it. *)
Definition Stream (A : Type) : Type := (list A * option JsError)%type.

(** The native provider's reply to one [generateContentStream] call. *)
Inductive ApiReply : Type :=
| ApiError (e : JsError)
| ApiStream (s : Stream Chunk).

(** [generateOpenRouterStream], by what its caller sees: it throws before any
    delta (rejected fetch, non-2xx status, no body), or hands the text deltas
    of the event stream to [onChunk], ending normally or by an error.  The
    framing of the event stream is not modelled. *)
Inductive OpenRouterReply : Type :=
| OpenRouterError (e : JsError)
| OpenRouterStream (s : Stream string).

(** What the agent does to the outside, in order. *)
Inductive Event : Type :=
| EvMemoryFetch
| EvFreeCompletion
| EvRoute
| EvSearch (c : ProviderCall)
| EvNativeCall (model prompt : string)
| EvOpenRouterCall (model prompt : string)
| EvSleep (ms : Z)
| EvCanvas (prompt : string).

(** The environment of one request: every reply the agent will receive.
    [memoryContext] is [JSON.stringify] of the memory layer's context, [None]
    when the fetch throws; replies to searches and provider calls are indexed
    by the number of earlier calls of the same kind; [abortAt] is the logical
    instant from which [signal.aborted] reads true ([None]: never, or no
    signal).  [getUserFriendlyError], [runCanvasAgent], the semantic router
    and [JSON.stringify(results, null, 2)] are not part of the sources and are
    taken from the environment. *)
Record Env : Type := mkEnv {
  memoryContext : option string;
  routeReply : Outcome RouterAction;
  searchPrimary : nat -> PrimaryReply;
  searchFallback : nat -> Settled;
  nativeReply : nat -> ApiReply;
  openRouterReply : nat -> OpenRouterReply;
  freeCompletion : Outcome (string * string);
  runCanvasAgent : string -> Outcome AgentExecutionResult;
  getUserFriendlyError : Thrown -> string;
  stringifyResults : list WebSearchResult -> string;
  abortAt : option nat
}.

(** The observable side of a run: a logical clock that advances at every
    awaited network event, call counters, the calls issued and the chunks
    handed to [onStreamChunk]. *)
Record World : Type := mkWorld {
  clock : nat;
  nativeCalls : nat;
  openRouterCalls : nat;
  searchCalls : nat;
  trace : list Event;
  streamed : list string
}.

Definition tick (w : World) : World :=
  mkWorld (S (clock w)) (nativeCalls w) (openRouterCalls w) (searchCalls w) (trace w) (streamed w).
Definition emit (ev : Event) (w : World) : World :=
  mkWorld (clock w) (nativeCalls w) (openRouterCalls w) (searchCalls w) (trace w ++ [ev])%list (streamed w).
Definition onStreamChunk (chunk : string) (w : World) : World :=
  mkWorld (clock w) (nativeCalls w) (openRouterCalls w) (searchCalls w) (trace w) (streamed w ++ [chunk])%list.
Definition count_native (w : World) : World :=
  mkWorld (clock w) (S (nativeCalls w)) (openRouterCalls w) (searchCalls w) (trace w) (streamed w).
Definition count_openRouter (w : World) : World :=
  mkWorld (clock w) (nativeCalls w) (S (openRouterCalls w)) (searchCalls w) (trace w) (streamed w).
Definition count_search (w : World) : World :=
  mkWorld (clock w) (nativeCalls w) (openRouterCalls w) (S (searchCalls w)) (trace w) (streamed w).

Definition world0 : World := mkWorld 0 0 0 0 [] [].

(** [signal?.aborted]. *)
Definition aborted (env : Env) (w : World) : bool :=
  match abortAt env with
  | Some t => t <=? clock w
  | None => false
  end.

(** The handler's mutable locals that the loop body reads and writes. *)
Record Vars : Type := mkVars {
  finalResponseText : string;
  fallbackSearchContext : string;
  currentAction : RouterAction;
  currentPrompt : string;
  metadataPayload : option (list Grounding);
  routingParameters : option string
}.

Definition set_final (s : string) (v : Vars) : Vars :=
  mkVars s (fallbackSearchContext v) (currentAction v) (currentPrompt v) (metadataPayload v) (routingParameters v).
Definition set_fallback (s : string) (v : Vars) : Vars :=
  mkVars (finalResponseText v) s (currentAction v) (currentPrompt v) (metadataPayload v) (routingParameters v).
Definition set_action (a : RouterAction) (v : Vars) : Vars :=
  mkVars (finalResponseText v) (fallbackSearchContext v) a (currentPrompt v) (metadataPayload v) (routingParameters v).
Definition set_prompt (p : string) (v : Vars) : Vars :=
  mkVars (finalResponseText v) (fallbackSearchContext v) (currentAction v) p (metadataPayload v) (routingParameters v).
Definition set_metadata (m : option (list Grounding)) (v : Vars) : Vars :=
  mkVars (finalResponseText v) (fallbackSearchContext v) (currentAction v) (currentPrompt v) m (routingParameters v).
Definition set_routing (p : option string) (v : Vars) : Vars :=
  mkVars (finalResponseText v) (fallbackSearchContext v) (currentAction v) (currentPrompt v) (metadataPayload v) p.

Definition flash : string := "gemini-2.5-flash".

Definition isGoogleModel (model : string) : bool :=
  if negb (Js.nonEmpty model) then true
  else
    let lower := Js.toLowerCase model in
    Js.startsWith lower "gemini" || Js.startsWith lower "veo" || Js.includes lower "google".

(** *** [generateContentStreamWithRetry] *)

Definition status_is (e : JsError) (code : Z) : bool :=
  match err_status e with
  | Some s => (s =? code)%Z
  | None => false
  end.

(** [error.message && error.message.includes(sub)]. *)
Definition message_includes (e : JsError) (sub : string) : bool :=
  match err_message e with
  | Some m => Js.nonEmpty m && Js.includes m sub
  | None => false
  end.

Definition isNotFound (e : JsError) : bool :=
  status_is e 404 || status_is e 400 ||
  (message_includes e "404" || message_includes e "not found" ||
   message_includes e "Requested entity was not found").

Definition isQuotaError (e : JsError) : bool :=
  status_is e 429 || message_includes e "429" || message_includes e "quota".

(** [Math.pow(2, attempt) * 2000 + 1000].  The code computes in doubles:
    the value is this integer up to attempt 45, and up to attempt 20 it is
    also within the range of a timer's delay (below 2^31). *)
Definition backoff_delay (attempt : nat) : Z := (2 ^ Z.of_nat attempt * 2000 + 1000)%Z.

(** [Math.round(delay / 1000)] for a non-negative delay. *)
Definition round_seconds (delay : Z) : Z := ((delay + 500) / 1000)%Z.

(** The [for (attempt = 0; attempt <= retries; attempt++)] loop, by recursion
    on [left], the number of values of [attempt] still to come:
    [left + attempt = retries + 1] throughout, and [left = 0] is the failed
    loop test, after which "Max retries exceeded" is thrown. *)
Fixpoint retry_loop (env : Env) (left attempt retries : nat)
    (params_model prompt : string) (w : World) : Outcome (Stream Chunk) * World :=
  match left with
  | 0 => (Threw (ThrownError (Error "Max retries exceeded")), w)
  | S left' =>
      let w1 := tick (count_native (emit (EvNativeCall params_model prompt) w)) in
      match nativeReply env (nativeCalls w) with
      | ApiStream s => (Returned s, w1)
      | ApiError e =>
          if isNotFound e then
            let w2 := onStreamChunk ("(Model " ++ params_model ++
                        " unavailable. Falling back to Gemini 2.5 Flash...)") w1 in
            if String.eqb params_model flash then (Threw (ThrownError e), w2)
            else retry_loop env left' (S attempt) retries flash prompt w2
          else if isQuotaError e && (attempt <? retries) then
            let delay := backoff_delay attempt in
            let w2 := onStreamChunk ("(Rate limit hit. Retrying in " ++
                        Js.string_of_Z (round_seconds delay) ++ "s...)") w1 in
            let w3 := tick (emit (EvSleep delay) w2) in
            retry_loop env left' (S attempt) retries params_model prompt w3
          else (Threw (ThrownError e), w1)
      end
  end.

Definition generateContentStreamWithRetry (env : Env) (params_model prompt : string)
    (retries : nat) (w : World) : Outcome (Stream Chunk) * World :=
  let params_model := if negb (Js.nonEmpty params_model) then flash else params_model in
  retry_loop env (S retries) 0 retries params_model prompt w.

(** *** One generation *)

Definition canvas_closed (generated : string) : bool :=
  Js.includes generated "</CANVAS_TRIGGER>" ||
  Js.includes generated "</CANVASTRIGGER>" ||
  Js.includes generated "</CANVAS>".

(** [metadataPayload.groundingMetadata.push(...chunks)], the list created
    when missing. *)
Definition push_grounding (chunks : option (list Grounding)) (v : Vars) : Vars :=
  match chunks with
  | None => v
  | Some cs =>
      let old := match metadataPayload v with Some g => g | None => [] end in
      set_metadata (Some (old ++ cs)%list) v
  end.

(** The [for await (const chunk of generator)] loop of the native path.  The
    arrival of a chunk advances the clock; an aborted signal or a closing
    canvas tag leaves the loop, and the rest of the stream, with the error
    that may end it, is never read. *)
Fixpoint consume_native (env : Env) (chunks : list Chunk) (failure : option JsError)
    (generatedThisLoop : string) (v : Vars) (w : World) : Outcome string * Vars * World :=
  match chunks with
  | [] =>
      match failure with
      | Some e => (Threw (ThrownError e), v, tick w)
      | None => (Returned generatedThisLoop, v, w)
      end
  | chunk :: rest =>
      let w1 := tick w in
      if aborted env w1 then (Returned generatedThisLoop, v, w1)
      else if Js.nonEmpty (chunk_text chunk) then
        let generated' := generatedThisLoop ++ chunk_text chunk in
        let v1 := set_final (finalResponseText v ++ chunk_text chunk) v in
        let w2 := onStreamChunk (chunk_text chunk) w1 in
        let v2 := push_grounding (chunk_grounding chunk) v1 in
        if canvas_closed generated' then (Returned generated', v2, w2)
        else consume_native env rest failure generated' v2 w2
      else consume_native env rest failure generatedThisLoop v w1
  end.

(** The deltas of the compatible provider.  Its request carries the signal:
    once the signal is aborted the pending read rejects with an [AbortError]. *)
Fixpoint consume_openRouter (env : Env) (deltas : list string) (failure : option JsError)
    (generatedThisLoop : string) (v : Vars) (w : World) : Outcome string * Vars * World :=
  match deltas with
  | [] =>
      let w1 := tick w in
      if aborted env w1 then (Threw (ThrownError AbortError), v, w1)
      else match failure with
           | Some e => (Threw (ThrownError e), v, w1)
           | None => (Returned generatedThisLoop, v, w1)
           end
  | chunk :: rest =>
      let w1 := tick w in
      if aborted env w1 then (Threw (ThrownError AbortError), v, w1)
      else
        consume_openRouter env rest failure (generatedThisLoop ++ chunk)
          (set_final (finalResponseText v ++ chunk) v) (onStreamChunk chunk w1)
  end.

Definition hasImage (fs : list File) : bool :=
  existsb (fun f => Js.startsWith (file_type f) "image/") fs.

Definition vision_capable (model : string) : bool :=
  let lower := Js.toLowerCase model in
  Js.includes lower "vision" || Js.includes lower "gemini" ||
  Js.includes lower "claude" || Js.includes lower "gpt-4".

Definition key_present (k : option string) : bool :=
  match k with Some s => Js.nonEmpty s | None => false end.

(** The inner [try] block of the [SIMPLE]/[default] case: one generation on
    the native or on the compatible provider, accumulating the streamed text.
    Attachments and history only shape the request payload. *)
Definition generate (env : Env) (input : AgentInput) (model : string) (isNative : bool)
    (v : Vars) (w : World) : Outcome string * Vars * World :=
  if isNative then
    match generateContentStreamWithRetry env model (currentPrompt v) 3 w with
    | (Threw t, w1) => (Threw t, v, w1)
    | (Returned (chunks, failure), w1) => consume_native env chunks failure "" v w1
    end
  else if negb (key_present (openrouter_api_key (profile input))) then
    (Threw (ThrownError (Error "OpenRouter API Key not found.")), v, w)
  else if hasImage (files input) && negb (vision_capable model) then
    (Threw (ThrownError (Error "The selected model does not support image inputs. Please switch to a vision-capable model like Gemini Pro or Claude Sonnet.")), v, w)
  else
    let w1 := tick (count_openRouter (emit (EvOpenRouterCall model (currentPrompt v)) w)) in
    if aborted env w1 then (Threw (ThrownError AbortError), v, w1)
    else match openRouterReply env (openRouterCalls w) with
         | OpenRouterError e => (Threw (ThrownError e), v, w1)
         | OpenRouterStream (deltas, failure) => consume_openRouter env deltas failure "" v w1
         end.

(** *** The action router *)

(** One [runWebSearch(query, 15)], with the replies scripted for it. *)
Definition do_search (env : Env) (query : string) (w : World)
  : Outcome (list WebSearchResult) * World :=
  let n := searchCalls w in
  let '(r, calls) := runWebSearch query 15 (searchPrimary env n) (searchFallback env n) in
  (r, fold_left (fun w' c => emit (EvSearch c) w') calls (tick (count_search w))).

Definition searchMatches (generated : string) : list string :=
  Js.matchAll "<SEARCH>" "</SEARCH>" generated.

(** The trimmed, non-empty captures of the search tags. *)
Definition queries (generated : string) : list string :=
  filter Js.nonEmpty (map Js.trim (searchMatches generated)).

(** [m && m[1]]: the capture of a match, when there is a match and its
    capture is not empty. *)
Definition capture (m : option (string * string)) : option string :=
  match m with
  | Some (c, _) => if Js.nonEmpty c then Some c else None
  | None => None
  end.

Definition orElse {A : Type} (a b : option A) : option A :=
  match a with Some _ => a | None => b end.

Definition canvasMatch (generated : string) : option (string * string) :=
  orElse (Js.match_tag "<CANVAS_TRIGGER>" "</CANVAS_TRIGGER>" generated)
 (orElse (Js.match_tag "<CANVAS_TRIGGER>" "</CANVASTRIGGER>" generated)
 (orElse (Js.match_tag "<CANVAS>" "</CANVAS>" generated)
         (Js.match_tag "<CANVASTRIGGER>" "</CANVASTRIGGER>" generated))).

Definition aggregate (results : list WebSearchResult) : string :=
  fold_left (fun acc res => acc ++ toString (title res) ++ ": " ++ toString (snippet res) ++ Js.nl)
            results "".

Definition synthesis_with_results (original query context : string) : string :=
  "USER ORIGINALLY ASKED: " ++ original ++ Js.nl ++ Js.nl ++
  "I have performed the following searches based on my previous thought process:" ++ Js.nl ++
  "- " ++ query ++ Js.nl ++ Js.nl ++ "SEARCH CONTEXT:" ++ Js.nl ++ context ++ Js.nl ++ Js.nl ++
  "INSTRUCTIONS: Synthesize a comprehensive answer to the user's original query using this search data. Cite sources using [1], [2] format. Do NOT repeat the <SEARCH> tags.".

Definition no_results_context (query : string) : string :=
  "[System: Search executed for " ++ Js.dq ++ query ++ Js.dq ++
  " but returned no results. Continue with internal knowledge.]".

Definition synthesis_without_results (original query : string) : string :=
  "USER ORIGINALLY ASKED: " ++ original ++ Js.nl ++ Js.nl ++
  "I attempted to search for: " ++ Js.dq ++ query ++ Js.dq ++ " but found no results." ++
  Js.nl ++ Js.nl ++
  "INSTRUCTIONS: Continue answering the user's request using your internal knowledge. Do NOT repeat the <SEARCH> tags.".

(** How one pass through the loop body ends.  [continue] goes to the next
    test of the [while]; [break] is written inside the [switch] and leaves
    the [switch] only, which also ends the pass; the canvas hand-off and the
    final [return] leave the function; a [throw] goes to the outer [catch]. *)
Inductive Step : Type :=
| StepContinue (v : Vars) (w : World)
| StepSwitchBreak (v : Vars) (w : World)
| StepCanvas (r : AgentExecutionResult) (v : Vars) (w : World)
| StepReturn (r : AgentExecutionResult) (v : Vars) (w : World)
| StepThrow (t : Thrown) (v : Vars) (w : World).

Definition step_world (s : Step) : World :=
  match s with
  | StepContinue _ w | StepSwitchBreak _ w | StepCanvas _ _ w
  | StepReturn _ _ w | StepThrow _ _ w => w
  end.

Definition reply_of (v : Vars) : AgentExecutionResult :=
  [ mkMessage (finalResponseText v) None (metadataPayload v) ].

(** Rules 2 to 8: the tags other than a serviced search tag. *)
Definition route_tags (env : Env) (generated : string) (v : Vars) (w : World) : Step :=
  let deepMatch := Js.match_tag "<DEEP>" "</DEEP>" generated in
  let imageMatch := Js.match_tag "<IMAGE>" "</IMAGE>" generated in
  let projectMatch := Js.match_tag "<PROJECT>" "</PROJECT>" generated in
  let studyMatch := Js.match_tag "<STUDY>" "</STUDY>" generated in
  match capture deepMatch with
  | Some d => StepContinue (set_prompt d (set_action DEEP_SEARCH v)) w
  | None =>
  if (length (searchMatches generated) =? 1) && negb (Js.nonEmpty (fallbackSearchContext v))
  then StepSwitchBreak v w
  else
  match capture imageMatch with
  | Some p => StepContinue (set_routing (Some p) (set_prompt p (set_action IMAGE v))) w
  | None =>
  match capture projectMatch with
  | Some p => StepContinue (set_prompt p (set_action PROJECT v)) w
  | None =>
  match capture (canvasMatch generated) with
  | Some c =>
      let v1 := set_prompt (Js.trim c) (set_action CANVAS (set_final "" v)) in
      let w1 := tick (emit (EvCanvas (Js.trim c)) w) in
      match runCanvasAgent env (Js.trim c) with
      | Returned canvasResult => StepCanvas canvasResult v1 w1
      | Threw t => StepThrow t v1 w1
      end
  | None =>
  match capture studyMatch with
  | Some s => StepContinue (set_prompt s (set_action STUDY v)) w
  | None =>
      if negb (Js.nonEmpty (Js.trim (finalResponseText v))) && Js.nonEmpty (fallbackSearchContext v)
      then
        let v1 := set_final (fallbackSearchContext v) v in
        StepReturn (reply_of v1) v1 (onStreamChunk (fallbackSearchContext v) w)
      else StepReturn (reply_of v) v w
  end end end end end.

(** What follows a completed generation: reactive search escalation first,
    then the other tags. *)
Definition dispatch (env : Env) (input : AgentInput) (modelSupportsSearch : bool)
    (generated : string) (v : Vars) (w : World) : Step :=
  match searchMatches generated, queries generated with
  | _ :: _, query :: _ =>
      if shouldUseExternalSearch query modelSupportsSearch true then
        match do_search env query w with
        | (Threw t, w1) => StepThrow t v w1
        | (Returned [], w1) =>
            StepContinue
              (set_action SIMPLE
                (set_prompt (synthesis_without_results (prompt input) query)
                  (set_fallback (no_results_context query) v))) w1
        | (Returned searchResults, w1) =>
            let aggregatedContext := aggregate searchResults in
            StepContinue
              (set_action SIMPLE
                (set_prompt (synthesis_with_results (prompt input) query aggregatedContext)
                  (set_fallback aggregatedContext v))) w1
        end
      else route_tags env generated v w
  | _, _ => route_tags env generated v w
  end.

(** The body of the [switch]: every action takes the [SIMPLE]/[default]
    case.  Whatever the generation throws is caught, logged and replaced by
    the flag [primaryGenerationFailed], and it is the flag, [true], that is
    thrown on. *)
Definition body (env : Env) (input : AgentInput) (model : string) (isNative : bool)
    (v : Vars) (w : World) : Step :=
  let modelSupportsSearch := isNative || Js.includes model "perplexity" in
  match generate env input model isNative v w with
  | (Threw _, v1, w1) => StepThrow (ThrownBool true) v1 w1
  | (Returned generatedThisLoop, v1, w1) =>
      dispatch env input modelSupportsSearch generatedThisLoop v1 w1
  end.

(** *** The bounded loop *)

Definition MAX_LOOPS : nat := 6.

(** How the [while] statement is left. *)
Inductive LoopExit : Type :=
| LoopExhausted          (* the test [loopCount < MAX_LOOPS] failed *)
| LoopAborted            (* [if (signal?.aborted) break] *)
| LoopCanvas (r : AgentExecutionResult)
| LoopReturn (r : AgentExecutionResult)
| LoopThrow (t : Thrown).

(** The state in which the loop is left; [iterations] logs the value of
    [loopCount] at the start of every pass through the body. *)
Record LoopEnd : Type := mkLoopEnd {
  how : LoopExit;
  end_vars : Vars;
  end_world : World;
  end_loopCount : nat;
  end_iterations : list nat
}.

(** [while (loopCount < MAX_LOOPS) { if (signal?.aborted) break; loopCount++;
    switch (currentAction) ... }].  [fuel] bounds the number of passes of
    this definition only: the loop itself is bounded by its counter, and
    [None] means that [fuel] ran out first. *)
Fixpoint while_loop (env : Env) (input : AgentInput) (model : string) (isNative : bool)
    (fuel : nat) (loopCount : nat) (iterations : list nat) (v : Vars) (w : World)
  : option LoopEnd :=
  if negb (loopCount <? MAX_LOOPS) then Some (mkLoopEnd LoopExhausted v w loopCount iterations)
  else if aborted env w then Some (mkLoopEnd LoopAborted v w loopCount iterations)
  else
    match fuel with
    | 0 => None
    | S fuel' =>
        let loopCount := S loopCount in
        let iterations := (iterations ++ [loopCount])%list in
        match body env input model isNative v w with
        | StepContinue v' w' => while_loop env input model isNative fuel' loopCount iterations v' w'
        | StepSwitchBreak v' w' => while_loop env input model isNative fuel' loopCount iterations v' w'
        | StepCanvas r v' w' => Some (mkLoopEnd (LoopCanvas r) v' w' loopCount iterations)
        | StepReturn r v' w' => Some (mkLoopEnd (LoopReturn r) v' w' loopCount iterations)
        | StepThrow t v' w' => Some (mkLoopEnd (LoopThrow t) v' w' loopCount iterations)
        end
    end.

(** *** Model resolution (before the outer [try]) *)

(** [!model || model.trim() === '']. *)
Definition blank (model : option string) : bool :=
  match model with
  | None => true
  | Some m => negb (Js.nonEmpty m) || String.eqb (Js.trim m) ""
  end.

(** [if (!model || model.trim() === '') model = 'gemini-2.5-flash']. *)
Definition substituteDefault (model : option string) : string :=
  match model with
  | Some m => if blank model then flash else m
  | None => flash
  end.

Record Resolved : Type := mkResolved {
  res_model : string;
  res_isNative : bool;
  res_thinkingBudget : Z
}.

(** The classification of the model and the downgrade to the native default
    when the compatible provider's key is missing. *)
Definition classify (input : AgentInput) (w : World) : Resolved * World :=
  let model := substituteDefault (model input) in
  let isNative := isGoogleModel model in
  if negb isNative && negb (key_present (openrouter_api_key (profile input))) then
    (mkResolved flash true 0,
     onStreamChunk (Js.nl ++ "*(OpenRouter key missing, falling back to Gemini...)*" ++ Js.nl) w)
  else (mkResolved model isNative 0, w).

Definition truthy_or (s : option string) (default : string) : string :=
  match s with
  | Some x => if Js.nonEmpty x then x else default
  | None => default
  end.

(** The thinking modes [deep] and [think] choose their own model. *)
Definition apply_thinkingMode (input : AgentInput) (r : Resolved) : Resolved :=
  match thinkingMode input with
  | deep =>
      let model := truthy_or (preferred_deep_model (profile input)) "gemini-3-pro-preview" in
      mkResolved model (isGoogleModel model) 8192
  | think => mkResolved flash true 2048
  | _ => r
  end.

Definition thinking_compatibility (r : Resolved) (w : World) : Resolved * World :=
  if (0 <? res_thinkingBudget r)%Z && res_isNative r &&
     negb (Js.includes (res_model r) "gemini-2.5") && negb (Js.includes (res_model r) "gemini-3")
  then (mkResolved flash (res_isNative r) (res_thinkingBudget r),
        onStreamChunk (Js.nl ++ "*(Switched to Gemini 2.5 Flash for Thinking mode compatibility)*" ++ Js.nl) w)
  else (r, w).

Definition resolveModel (input : AgentInput) (w : World) : Resolved * World :=
  let '(r, w1) := classify input w in
  thinking_compatibility (apply_thinkingMode input r) w1.

(** *** The handler *)

Inductive Exit : Type :=
| ExitInstant            (* instant mode replied *)
| ExitInstantFailed      (* instant mode threw "Instant mode service unavailable." *)
| ExitReturn             (* the [return] that ends the loop body *)
| ExitCanvas             (* the canvas collaborator's result *)
| ExitLoopAborted        (* the [return] after the loop, left by the abort check *)
| ExitLoopExhausted      (* the [return] after the loop, left by its test *)
| ExitCaughtAbort        (* outer [catch], [error.name === 'AbortError'] *)
| ExitCaughtError.       (* outer [catch], the warning message *)

Record Run : Type := mkRun {
  result : Outcome AgentExecutionResult;
  exit : Exit;
  vars : Vars;
  world : World;
  loopCount : nat;
  iterations : list nat
}.

Definition warning : string := "⚠️ ".

(** [error.name === 'AbortError']; a thrown boolean has no [name]. *)
Definition is_AbortError (error : Thrown) : bool :=
  match error with
  | ThrownError e => String.eqb (err_name e) "AbortError"
  | ThrownBool _ => false
  end.

(** The outer [catch]. *)
Definition caught (env : Env) (error : Thrown) (v : Vars) (w : World)
    (loopCount : nat) (iterations : list nat) : Run :=
  if is_AbortError error then
    let shown := if Js.nonEmpty (finalResponseText v) then finalResponseText v
                 else "(Generation stopped by user)" in
    mkRun (Returned [ mkMessage shown None None ]) ExitCaughtAbort v w loopCount iterations
  else
    mkRun (Returned [ mkMessage (warning ++ getUserFriendlyError env error) None None ])
          ExitCaughtError v w loopCount iterations.

Definition backticks : string := "```".

Definition debugOutput (env : Env) (query : string) (searchResults : list WebSearchResult) : string :=
  Js.nl ++ Js.nl ++ backticks ++ "json" ++ Js.nl ++ "[ADMIN DEBUG: SEARCH]" ++ Js.nl ++
  "Query: " ++ Js.dq ++ query ++ Js.dq ++ Js.nl ++
  "Results: " ++ Js.string_of_nat (length searchResults) ++ Js.nl ++
  "Data: " ++ stringifyResults env searchResults ++ Js.nl ++ backticks ++ Js.nl ++ Js.nl.

Definition is_admin (p : Profile) : bool :=
  match role p with Some r => String.eqb r "admin" | None => false end.

(** Pre-emptive search: the tag is streamed and kept in the reply, the search
    runs, and its results become the reply's grounding metadata.  The text
    block built from them only enters the system instruction. *)
Definition preemptive_search (env : Env) (input : AgentInput) (modelSupportsSearch : bool)
    (v : Vars) (w : World) : Outcome unit * Vars * World :=
  if shouldUseExternalSearch (prompt input) modelSupportsSearch false then
    let searchTag := "<SEARCH>" ++ prompt input ++ "</SEARCH>" in
    let w1 := onStreamChunk searchTag w in
    let v1 := set_final (finalResponseText v ++ searchTag) v in
    match do_search env (prompt input) w1 with
    | (Threw t, w2) => (Threw t, v1, w2)
    | (Returned searchResults, w2) =>
        let '(v2, w3) :=
          if is_admin (profile input) then
            let d := debugOutput env (prompt input) searchResults in
            (set_final (finalResponseText v1 ++ d) v1, onStreamChunk d w2)
          else (v1, w2) in
        let v3 := match searchResults with
                  | [] => v2
                  | _ :: _ => set_metadata
                                (Some (map (fun p => mkGrounding (url p) (title p)) searchResults)) v2
                  end in
        (Returned tt, v3, w3)
    end
  else (Returned tt, v, w).

(** What the handler returns once the [while] statement is left. *)
Definition after_loop (env : Env) (e : LoopEnd) : Run :=
  let settle (r : AgentExecutionResult) (x : Exit) :=
    mkRun (Returned r) x (end_vars e) (end_world e) (end_loopCount e) (end_iterations e) in
  match how e with
  | LoopExhausted => settle (reply_of (end_vars e)) ExitLoopExhausted
  | LoopAborted => settle (reply_of (end_vars e)) ExitLoopAborted
  | LoopCanvas canvasResult => settle canvasResult ExitCanvas
  | LoopReturn reply => settle reply ExitReturn
  | LoopThrow t => caught env t (end_vars e) (end_world e) (end_loopCount e) (end_iterations e)
  end.

Definition vars0 (input : AgentInput) : Vars :=
  mkVars "" "" SIMPLE (prompt input) None None.

Definition runAutonomousAgent (env : Env) (input : AgentInput) (fuel : nat) : option Run :=
  (* Fetch memory FIRST *)
  let w := tick (emit EvMemoryFetch world0) in
  let memoryContextString := match memoryContext env with Some s => s | None => "" end in
  let v := vars0 input in
  match thinkingMode input with
  | instant =>
      let w1 := tick (emit EvFreeCompletion w) in
      match freeCompletion env with
      | Returned (finalResponseText, modelUsed) =>
          Some (mkRun (Returned [ mkMessage finalResponseText (Some modelUsed) None ])
                      ExitInstant v w1 0 [])
      | Threw _ =>
          Some (mkRun (Threw (ThrownError (Error "Instant mode service unavailable.")))
                      ExitInstantFailed v w1 0 [])
      end
  | _ =>
      let '(r, w1) := resolveModel input w in
      let model := res_model r in
      let isNative := res_isNative r in
      (* try *)
      let modelSupportsSearch := isNative || Js.includes model "perplexity" in
      let w2 := tick (emit EvRoute w1) in
      match routeReply env with
      | Threw t => Some (caught env t v w2 0 [])
      | Returned action =>
          match preemptive_search env input modelSupportsSearch v w2 with
          | (Threw t, v1, w3) => Some (caught env t v1 w3 0 [])
          | (Returned _, v1, w3) =>
              match Json.parse memoryContextString with
              | Threw t => Some (caught env t v1 w3 0 [])
              | Returned _ =>
                  let v2 := set_action action v1 in
                  match while_loop env input model isNative fuel 0 [] v2 w3 with
                  | None => None
                  | Some e => Some (after_loop env e)
                  end
              end
          end
      end
  end.

End Agent.

(** ** The session guard: [handleSendMessage] and its safety timeout

    The guard of one chat hook, as a machine driven by what happens around a
    request in flight: time passing, a chunk streamed by the agent, the user
    pressing stop, the provider stack completing. *)
Module SessionGuard.

Inductive AiStatus : Type := idle | thinking | planning | building | fixing | error.

Record Toast : Type := mkToast { toast_message : string; toast_kind : string }.

(** What the closure of one accepted call of [handleSendMessage] holds. *)
Record Request : Type := mkRequest {
  targetChatId : string;
  signal_aborted : bool;         (* [abortController.signal.aborted] *)
  safetyTimeout : option Z;      (* when the pending timer is due; [None]: no timer pending *)
  settled : bool                 (* the [finally] block has run *)
}.

(** What all calls share: the refs and the state of the hook.  A request is
    named by its place in [requests]. *)
Record Guard : Type := mkGuard {
  now : Z;                           (* milliseconds *)
  isSendingRef : bool;
  abortControllerRef : option nat;   (* the request whose controller the ref holds *)
  isMounted : bool;
  activeChatIdRef : option string;
  previousChatIdRef : option string;   (* the active chat at the last render *)
  isSending : bool;
  isLoading : bool;
  aiStatus : AiStatus;
  toasts : list Toast;
  requests : list Request            (* the accepted sends, oldest first *)
}.

Definition SAFETY_TIMEOUT_MS : Z := 300000.

Definition set_now (t : Z) (g : Guard) : Guard :=
  mkGuard t (isSendingRef g) (abortControllerRef g) (isMounted g) (activeChatIdRef g)
          (previousChatIdRef g) (isSending g) (isLoading g) (aiStatus g) (toasts g) (requests g).
Definition set_isSendingRef (b : bool) (g : Guard) : Guard :=
  mkGuard (now g) b (abortControllerRef g) (isMounted g) (activeChatIdRef g)
          (previousChatIdRef g) (isSending g) (isLoading g) (aiStatus g) (toasts g) (requests g).
Definition set_abortControllerRef (c : option nat) (g : Guard) : Guard :=
  mkGuard (now g) (isSendingRef g) c (isMounted g) (activeChatIdRef g)
          (previousChatIdRef g) (isSending g) (isLoading g) (aiStatus g) (toasts g) (requests g).
Definition set_isMounted (b : bool) (g : Guard) : Guard :=
  mkGuard (now g) (isSendingRef g) (abortControllerRef g) b (activeChatIdRef g)
          (previousChatIdRef g) (isSending g) (isLoading g) (aiStatus g) (toasts g) (requests g).
Definition set_activeChatIdRef (c : option string) (g : Guard) : Guard :=
  mkGuard (now g) (isSendingRef g) (abortControllerRef g) (isMounted g) c
          (previousChatIdRef g) (isSending g) (isLoading g) (aiStatus g) (toasts g) (requests g).
Definition set_previousChatIdRef (c : option string) (g : Guard) : Guard :=
  mkGuard (now g) (isSendingRef g) (abortControllerRef g) (isMounted g) (activeChatIdRef g)
          c (isSending g) (isLoading g) (aiStatus g) (toasts g) (requests g).
(** [setIsSending(b); setIsLoading(b)]. *)
Definition setSending (b : bool) (g : Guard) : Guard :=
  mkGuard (now g) (isSendingRef g) (abortControllerRef g) (isMounted g) (activeChatIdRef g)
          (previousChatIdRef g) b b (aiStatus g) (toasts g) (requests g).
Definition setIsLoading (b : bool) (g : Guard) : Guard :=
  mkGuard (now g) (isSendingRef g) (abortControllerRef g) (isMounted g) (activeChatIdRef g)
          (previousChatIdRef g) (isSending g) b (aiStatus g) (toasts g) (requests g).
Definition setAiStatus (s : AiStatus) (g : Guard) : Guard :=
  mkGuard (now g) (isSendingRef g) (abortControllerRef g) (isMounted g) (activeChatIdRef g)
          (previousChatIdRef g) (isSending g) (isLoading g) s (toasts g) (requests g).
Definition addToast (message kind : string) (g : Guard) : Guard :=
  mkGuard (now g) (isSendingRef g) (abortControllerRef g) (isMounted g) (activeChatIdRef g)
          (previousChatIdRef g) (isSending g) (isLoading g) (aiStatus g)
          (toasts g ++ [ mkToast message kind ])%list (requests g).
Definition set_requests (rs : list Request) (g : Guard) : Guard :=
  mkGuard (now g) (isSendingRef g) (abortControllerRef g) (isMounted g) (activeChatIdRef g)
          (previousChatIdRef g) (isSending g) (isLoading g) (aiStatus g) (toasts g) rs.

Definition request_at (id : nat) (g : Guard) : option Request := nth_error (requests g) id.

Fixpoint update (id : nat) (f : Request -> Request) (rs : list Request) : list Request :=
  match rs, id with
  | [], _ => []
  | r :: rs', 0 => f r :: rs'
  | r :: rs', S id' => r :: update id' f rs'
  end.

Definition on_request (id : nat) (f : Request -> Request) (g : Guard) : Guard :=
  set_requests (update id f (requests g)) g.

(** [abortController.abort()], [clearTimeout(safetyTimeout)] and the end of
    the call, on the request's own record. *)
Definition abort (r : Request) : Request :=
  mkRequest (targetChatId r) true (safetyTimeout r) (settled r).
Definition clearTimeout (r : Request) : Request :=
  mkRequest (targetChatId r) (signal_aborted r) None (settled r).
Definition settle (r : Request) : Request :=
  mkRequest (targetChatId r) (signal_aborted r) (safetyTimeout r) true.

(** [activeChatIdRef.current === targetChatId]. *)
Definition same_chat (g : Guard) (r : Request) : bool :=
  match activeChatIdRef g with
  | Some c => String.eqb c (targetChatId r)
  | None => false
  end.

(** The start of [handleSendMessage], up to the first [await].  [sendable]
    is false for an empty message, a missing user or a missing chat.
    [None]: the call returns [{ messages: [] }] at once and installs
    nothing. *)
Definition handleSendMessage_begin (sendable : bool) (chat : string) (g : Guard) : option Guard :=
  if negb sendable then None
  else if isSendingRef g then None
  else Some (mkGuard (now g) true (Some (List.length (requests g))) (isMounted g) (Some chat)
                     (previousChatIdRef g) true true thinking (toasts g)
                     (requests g ++ [ mkRequest chat false (Some (now g + SAFETY_TIMEOUT_MS)%Z) false ])%list).

(** The timer's callback of request [id]. *)
Definition safetyTimeout_callback (id : nat) (g : Guard) : Guard :=
  match request_at id g with
  | None => g
  | Some r =>
      if isSendingRef g && negb (signal_aborted r) then
        let g1 := set_isSendingRef false (on_request id abort g) in
        let g2 := if isMounted g1 then setAiStatus error (setSending false g1) else g1 in
        addToast "Response timed out. The operation took too long." "error" g2
      else g
  end.

(** The timer of request [id] runs its callback if it is due. *)
Definition fire (id : nat) (g : Guard) : Guard :=
  match request_at id g with
  | Some r =>
      match safetyTimeout r with
      | Some due =>
          if (due <=? now g)%Z then safetyTimeout_callback id (on_request id clearTimeout g)
          else g
      | None => g
      end
  | None => g
  end.

(** The timers that are due run in the order in which they were set. *)
Definition fire_due (g : Guard) : Guard :=
  fold_left (fun g' id => fire id g') (seq 0 (List.length (requests g))) g.

(** The status a chunk announces, in [onStreamChunk]. *)
Definition chunk_status (chunk : string) : option AiStatus :=
  if Js.includes chunk "<THINK>" then Some planning
  else if Js.includes chunk "</THINK>" then Some building
  else if Js.includes chunk "[FILE:" then Some building
  else None.

(** [onStreamChunk] of request [id], as far as the guard goes. *)
Definition onStreamChunk (chunk : string) (g : Guard) (id : nat) (r : Request) : Guard :=
  if signal_aborted r then g
  else
    let g1 := on_request id clearTimeout g in
    if same_chat g1 r then
      match chunk_status chunk with
      | Some s => setAiStatus s g1
      | None => g1
      end
    else g1.

Definition onFileUpdate (g : Guard) (r : Request) : Guard :=
  if same_chat g r then setAiStatus fixing g else g.

(** Another chat becomes the active one ([handleSelectChat], or the active
    chat is deleted), and the effect on [activeChat?.id] runs: the status is
    reset when the view goes from one chat to a different one. *)
Definition selectChat (chat : option string) (g : Guard) : Guard :=
  let g1 := set_activeChatIdRef chat g in
  let g2 := match chat, previousChatIdRef g with
            | Some c, Some p => if String.eqb c p then g1 else setAiStatus idle g1
            | _, _ => g1
            end in
  set_previousChatIdRef chat g2.

Definition handleStopGeneration (g : Guard) : Guard :=
  let g1 := match abortControllerRef g with
            | Some id => set_abortControllerRef None (on_request id abort g)
            | None => g
            end in
  addToast "Generation stopped." "info"
    (setAiStatus idle (set_isSendingRef false (setSending false g1))).

(** The [finally] block of request [id]. *)
Definition finally_block (g : Guard) (id : nat) (r : Request) : Guard :=
  let g1 := set_isSendingRef false (on_request id (fun r' => settle (clearTimeout r')) g) in
  if isMounted g1 && same_chat g1 r then setSending false g1 else g1.

(** The [catch] block: [name] and [message] are [e.name] and [e?.message]. *)
Definition catch_block (name message : option string) (g : Guard) (r : Request) : Guard :=
  if signal_aborted r || match name with Some n => String.eqb n "AbortError" | None => false end
  then setAiStatus idle g
  else
    let errorMessage := match message with
                        | Some m => if Js.nonEmpty m then m else "An unknown error occurred."
                        | None => "An unknown error occurred."
                        end in
    let g1 := addToast ("Error: " ++ errorMessage) "error" g in
    if isMounted g1 && same_chat g1 r then setAiStatus error g1 else g1.

(** What can happen: user actions, the passing of time, and the steps of the
    accepted calls between two of their [await]s.  The ends of a call run
    its [finally] block in the same turn. *)
Inductive GuardEvent : Type :=
| Send (sendable : bool) (chat : string)   (* [handleSendMessage] is called *)
| Elapse (ms : Z)                          (* time passes *)
| Stop                                     (* [handleStopGeneration] *)
| SelectChat (chat : option string)        (* another chat becomes the active one *)
| Unmount
| Mount
| Loading (busy : bool)                    (* the effects that load chats and messages *)
| StreamChunk (id : nat) (chunk : string)  (* the agent calls [onStreamChunk] *)
| FileUpdate (id : nat)                    (* the agent calls [onFileUpdate] *)
| NotGenerated (id : nat)                  (* the return under [!shouldGenerate] *)
| AgentReturned (id : nat)                 (* [runAgent] resolved: the test of the signal *)
| FinalUpdate (id : nat)                   (* the final update of the view *)
| Returns (id : nat)                       (* [return agentResult] *)
| Caught (id : nat) (name message : option string).   (* the [try] block threw *)

(** A step of request [id] happens only while the call is running. *)
Definition while_running (id : nat) (g : Guard) (k : Request -> Guard) : Guard :=
  match request_at id g with
  | Some r => if settled r then g else k r
  | None => g
  end.

Definition step (g : Guard) (ev : GuardEvent) : Guard :=
  match ev with
  | Send sendable chat =>
      match handleSendMessage_begin sendable chat g with
      | Some g' => g'
      | None => g
      end
  | Elapse ms => fire_due (set_now (now g + ms)%Z g)
  | Stop => handleStopGeneration g
  | SelectChat chat => selectChat chat g
  | Unmount => set_isMounted false g
  | Mount => set_isMounted true g
  | Loading busy => setIsLoading busy g
  | StreamChunk id chunk => while_running id g (onStreamChunk chunk g id)
  | FileUpdate id => while_running id g (onFileUpdate g)
  | NotGenerated id =>
      while_running id g
        (finally_block (setAiStatus idle (setSending false (set_isSendingRef false g))) id)
  | AgentReturned id =>
      while_running id g
        (fun r => if signal_aborted r then finally_block (setAiStatus idle g) id r else g)
  | FinalUpdate id =>
      while_running id g
        (fun r => if isMounted g && same_chat g r then setAiStatus idle g else g)
  | Returns id => while_running id g (finally_block g id)
  | Caught id name message =>
      while_running id g (fun r => finally_block (catch_block name message g r) id r)
  end.

Definition run (g : Guard) (evs : list GuardEvent) : Guard := fold_left step evs g.

Definition timeout_toast : Toast :=
  mkToast "Response timed out. The operation took too long." "error".

Definition is_timeout_toast (t : Toast) : bool :=
  String.eqb (toast_message t) "Response timed out. The operation took too long."
  && String.eqb (toast_kind t) "error".

(** Request [id] was cancelled and a timeout was reported. *)
Definition timed_out (id : nat) (g : Guard) : bool :=
  match request_at id g with
  | Some r => signal_aborted r && existsb is_timeout_toast (toasts g)
  | None => false
  end.

(** A call that is over: its [finally] block has run and cleared its timer. *)
Definition at_rest (r : Request) : bool :=
  settled r && match safetyTimeout r with Some _ => false | None => true end.

(** The events that leave request [id] waiting for its first chunk:
    everything but the user stopping, a chunk of the request, the end of its
    call, and time running backwards. *)
Definition waiting (id : nat) (ev : GuardEvent) : bool :=
  match ev with
  | Stop => false
  | Elapse ms => (0 <=? ms)%Z
  | StreamChunk i _ | NotGenerated i | Returns i | Caught i _ _ => negb (Nat.eqb i id)
  | _ => true
  end.

(** Request [chat], the newest, waits for its first chunk with its timer due
    at [due]; the calls before it are over. *)
Definition armed (old : list Request) (chat : string) (due : Z) (g : Guard) : Prop :=
  isSendingRef g = true
  /\ requests g = (old ++ [ mkRequest chat false (Some due) false ])%list
  /\ Forall (fun r => at_rest r = true) old
  /\ (now g < due)%Z.

(** The time that passes in a list of events. *)
Definition elapsed (evs : list GuardEvent) : Z :=
  fold_right (fun ev t => match ev with Elapse ms => (ms + t)%Z | _ => t end) 0%Z evs.

End SessionGuard.

(** ** Scripted environments used by the examples and counterexamples *)
Module Scenario.
Import ExternalSearch Agent.

Definition chunk (s : string) : Chunk := mkChunk s None.

Definition stream_of (texts : list string) : ApiReply := ApiStream (map chunk texts, None).

(** Both search providers are down; the canvas collaborator answers with a
    fixed message; the router selects [SIMPLE]. *)
Definition script (memory : option string) (native : nat -> ApiReply)
    (openRouter : nat -> OpenRouterReply) (abort : option nat) : Env :=
  {| memoryContext := memory;
     routeReply := Returned SIMPLE;
     searchPrimary := fun _ => NoReplyWithin8s;
     searchFallback := fun _ => Rejected (Error "Failed to fetch");
     nativeReply := native;
     openRouterReply := openRouter;
     freeCompletion := Returned ("Hi!", "Instant (Puter)");
     runCanvasAgent := fun p => Returned [ mkMessage ("canvas built: " ++ p) None None ];
     getUserFriendlyError := fun _ => "Something went wrong.";
     stringifyResults := fun _ => "[]";
     abortAt := abort |}.

Definition no_profile : Profile := mkProfile None None None.

Definition request (p : string) (m : option string) (mode : ThinkingMode) (pr : Profile) : AgentInput :=
  mkInput p [] m mode pr.

Definition quota_error : JsError :=
  {| err_name := "ApiError"; err_status := Some 429%Z;
     err_message := Some "Resource has been exhausted (e.g. check quota)." |}.

(** The native calls of a trace, by model, and its sleeps. *)
Definition native_models (tr : list Event) : list string :=
  flat_map (fun ev => match ev with EvNativeCall m _ => [m] | _ => [] end) tr.

Definition sleeps (tr : list Event) : list Z :=
  flat_map (fun ev => match ev with EvSleep ms => [ms] | _ => [] end) tr.

(** A payload of the fallback provider with an abstract. *)
Definition ddg_cat : json :=
  JObj [ ("AbstractURL", JStr "https://en.wikipedia.org/wiki/Cat");
         ("Heading", JStr "Cat");
         ("Abstract", JStr "The cat is a small domesticated carnivorous mammal.") ].

(** The generation calls of a trace, on either provider. *)
Definition is_generation (ev : Event) : bool :=
  match ev with
  | EvNativeCall _ _ => true
  | EvOpenRouterCall _ _ => true
  | _ => false
  end.

Definition generation_calls (tr : list Event) : list Event := filter is_generation tr.

(** No generation but on the native provider with the default model, and no
    call of the free completion service. *)
Definition native_flash (ev : Event) : Prop :=
  match ev with
  | EvNativeCall m _ => m = flash
  | EvOpenRouterCall _ _ => False
  | EvFreeCompletion => False
  | _ => True
  end.

(** A compatible-provider request whose stream is cut by the user after the
    first delta. *)
Definition stopped_after_first_delta : Env :=
  script (Some "{}") (fun _ => stream_of ["Hello."])
         (fun _ => OpenRouterStream (["Hel"; "lo"], None)) (Some 5).

Definition compatible_request : AgentInput :=
  request "hi" (Some "openai/gpt-4o") fast (mkProfile (Some "sk-or-key") None None).

(** A mounted chat view with nothing in flight. *)
Definition idle_guard : SessionGuard.Guard :=
  SessionGuard.mkGuard 0 false None true None None false false SessionGuard.idle [] [].

(** The world after one native call that failed with a quota error and was
    followed by the wait before the next attempt. *)
Definition after_quota_wait (attempt : nat) (model prompt : string) (w : World) : World :=
  tick (emit (EvSleep (backoff_delay attempt))
         (onStreamChunk ("(Rate limit hit. Retrying in " ++
                         Js.string_of_Z (round_seconds (backoff_delay attempt)) ++ "s...)")
            (tick (count_native (emit (EvNativeCall model prompt) w))))).

(** Every call of the trace is a native call with the default model, a search, a sleep or a hand-off. *)
Definition only_native_flash (w : World) : Prop := Forall native_flash (trace w).

Definition texts (r : Outcome AgentExecutionResult) : list string :=
  match r with Returned ms => map text ms | Threw _ => [] end.

End Scenario.

(** ** Classes of provider failure, for the statements about search *)
Module Failure.
Import ExternalSearch.

(** A [fetch] that fails before any payload is read: rejected, answered with
    a status outside 2xx, or answered with a body that is not JSON. *)
Definition transport (s : Settled) : bool :=
  match s with
  | Rejected _ => true
  | Response status BodyNotJson => true
  | Response status (BodyJson _) => negb (resp_ok status)
  end.

(** The primary provider timing out or failing in transport. *)
Definition primary (p : PrimaryReply) : bool :=
  match p with
  | NoReplyWithin8s => true
  | InTime s => transport s
  end.

End Failure.

(** ** Further scripted pieces *)
Module Scenario2.
Import ExternalSearch Agent Scenario.

Definition not_found_error : JsError :=
  {| err_name := "ApiError"; err_status := Some 404%Z;
     err_message := Some "Requested entity was not found." |}.

Definition overloaded_error : JsError :=
  {| err_name := "ApiError"; err_status := Some 503%Z;
     err_message := Some "The model is overloaded." |}.

(** The world after a native call that failed with an error of the
    not-found class: the call, and the notice handed to [onRetry]. *)
Definition unavailable_notice (model : string) : string :=
  "(Model " ++ model ++ " unavailable. Falling back to Gemini 2.5 Flash...)".

Definition after_not_found (model prompt : string) (w : World) : World :=
  onStreamChunk (unavailable_notice model)
    (tick (count_native (emit (EvNativeCall model prompt) w))).

End Scenario2.

(** ** Well-formed search results *)
Module Results.
Import ExternalSearch.

(** A result that can be shown: it has a title and a snippet. *)
Definition titled (r : WebSearchResult) : bool :=
  truthy (title r) && truthy (snippet r).

(** A result that can also be cited: it has a link as well. *)
Definition linked (r : WebSearchResult) : bool :=
  titled r && truthy (url r).

End Results.

(** ** Observations on traces *)
Module Observe.
Import ExternalSearch Agent.

(** Not a call of the compatible provider. *)
Definition not_compatible (ev : Event) : Prop :=
  match ev with
  | EvOpenRouterCall _ _ => False
  | _ => True
  end.

(** Not a generation call, on either provider. *)
Definition not_generation (ev : Event) : Prop :=
  match ev with
  | EvNativeCall _ _ => False
  | EvOpenRouterCall _ _ => False
  | _ => True
  end.

(** [joined deltas]: the deltas put end to end. *)
Definition joined (deltas : list string) : string := fold_right append "" deltas.

(** The notices that the retry ladder hands to [onRetry]. *)
Definition is_notice (s : string) : bool :=
  Js.startsWith s "(Rate limit hit. Retrying in " || Js.startsWith s "(Model ".

(** The world in which the consumption of the stream starts: on the native
    provider, after the retry ladder; on the compatible provider, as it
    was. *)
Definition after_ladder (env : Env) (model : string) (isNative : bool) (v : Vars) (w : World)
  : World :=
  if isNative then snd (generateContentStreamWithRetry env model (currentPrompt v) 3 w)
  else w.

End Observe.

Module Scenario3.
Import ExternalSearch Agent Scenario.

Definition photo : File := mkFile "image/png" "cat.png".

(** A compatible-provider request that carries an image for a model with
    no vision support. *)
Definition blind_request : AgentInput :=
  mkInput "what is in this picture" [photo] (Some "mistral/mistral-large") fast
          (mkProfile (Some "sk-or-key") None None).

End Scenario3.

(** ** The stream callback of [handleSendMessage]

    [onStreamChunk], as defined inside [handleSendMessage] for the request of
    chat [target]: the state it closes over and what each call does to it.
    The user may meanwhile look at another chat, leave the view, or stop the
    request. *)
Module StreamSink.

Record Sink : Type := mkSink {
  currentText : string;          (* the text accumulated for persistence *)
  shownText : string;            (* the text of the pending message on screen *)
  activeChatId : string;         (* [activeChatIdRef.current] *)
  isMounted : bool;
  aborted : bool;                (* [abortController.signal.aborted] *)
  timerPending : bool;           (* the safety timeout has not been cleared *)
  aiStatus : SessionGuard.AiStatus;
  activityLog : list string
}.

Definition status_of (chunk : string) (s : Sink) : SessionGuard.AiStatus * list string :=
  if Js.includes chunk "<THINK>" then
    (SessionGuard.planning, (activityLog s ++ [ "üß† Architect phase started..." ])%list)
  else if Js.includes chunk "</THINK>" then
    (SessionGuard.building,
     (activityLog s ++ [ "‚úÖ Planning complete."; "üèóÔ∏è Builder phase running..." ])%list)
  else if Js.includes chunk "[FILE:" then (SessionGuard.building, activityLog s)
  else (aiStatus s, activityLog s).

Definition onStreamChunk (target chunk : string) (s : Sink) : Sink :=
  if aborted s then s
  else
    if String.eqb (activeChatId s) target then
      let '(status, log) := status_of chunk s in
      let text := currentText s ++ chunk in
      mkSink text (if isMounted s then text else shownText s)
             (activeChatId s) (isMounted s) (aborted s) false status log
    else
      mkSink (currentText s ++ chunk) (shownText s)
             (activeChatId s) (isMounted s) (aborted s) false (aiStatus s) (activityLog s).

Inductive SinkEvent : Type :=
| Chunk (text : string)
| SwitchChat (id : string)
| Unmount
| Abort.

Definition step (target : string) (s : Sink) (ev : SinkEvent) : Sink :=
  match ev with
  | Chunk text => onStreamChunk target text s
  | SwitchChat id =>
      mkSink (currentText s) (shownText s) id (isMounted s) (aborted s)
             (timerPending s) (aiStatus s) (activityLog s)
  | Unmount =>
      mkSink (currentText s) (shownText s) (activeChatId s) false (aborted s)
             (timerPending s) (aiStatus s) (activityLog s)
  | Abort =>
      mkSink (currentText s) (shownText s) (activeChatId s) (isMounted s) true
             (timerPending s) (aiStatus s) (activityLog s)
  end.

Definition run (target : string) (s : Sink) (evs : list SinkEvent) : Sink :=
  fold_left (step target) evs s.

(** The chunks delivered before the request is aborted. *)
Fixpoint delivered (evs : list SinkEvent) : list string :=
  match evs with
  | [] => []
  | Chunk text :: rest => text :: delivered rest
  | Abort :: _ => []
  | _ :: rest => delivered rest
  end.

(** [s.startsWith(p)], as a proposition. *)
Definition is_prefix (p s : string) : Prop := exists rest, s = p ++ rest.

End StreamSink.

(** ** States of the session guard *)
Module GuardStates.
Import SessionGuard.



(** The events that end the call of request [id]: each runs its [finally]
    block.  [runAgent] resolving ends the call at once only if the signal is
    aborted. *)
Definition ends_call (id : nat) (r : Request) (ev : GuardEvent) : bool :=
  match ev with
  | NotGenerated i | Returns i | Caught i _ _ => Nat.eqb i id
  | AgentReturned i => Nat.eqb i id && signal_aborted r
  | _ => false
  end.

End GuardStates.

(** ** services/freeLlmService.ts: the instant-mode completion chain

    The three free providers are scripted by an environment.  The text
    fields of their payloads are modelled at the types the code expects of
    them: a string, or absent. *)
Module FreeLlm.

Record FreeGenerationResult : Type := mkFree {
  text : option string;          (* [None]: [undefined] *)
  modelUsed : string
}.

(** The shapes of a Puter reply that [tryPuter] tells apart: a string, an
    object (by its [message.content], its [content], what its [toString()]
    gives and its [model]), anything else. *)
Inductive PuterResponse : Type :=
| RespString (s : string)
| RespObject (message_content content : option string) (asString : string) (model : option string)
| RespOther.

(** A JSON body: not parseable, [null], or a value. *)
Inductive Body (A : Type) : Type :=
| NotJson
| JsonNull
| Json (a : A).
Arguments NotJson {A}.
Arguments JsonNull {A}.
Arguments Json {A} a.

Inductive Fetched (A : Type) : Type :=
| FetchFailed (e : JsError)
| Answer (status : Z) (body : Body A).
Arguments FetchFailed {A} e.
Arguments Answer {A} status body.

(** The inference API answers with an array of items or with one item. *)
Inductive HfResult : Type :=
| HfArray (first : option (option string))   (* [result[0]?.generated_text] *)
| HfObject (generated_text : option string).

Record LegacyData : Type := mkLegacy {
  status : option string;
  response : option string;
  error : option string
}.

(** [hasWindow]: there is a [window] (the code runs in a browser).
    [puterAppearsAt = Some k]: [window.puter] is set from the [k]-th poll
    on; [None]: never. *)
Record Env : Type := mkEnv {
  hasWindow : bool;
  puterAppearsAt : option nat;
  puterChat : Outcome PuterResponse;
  hfFetch : Fetched HfResult;
  legacyFetch : Fetched LegacyData
}.

Inductive Call : Type :=
| PuterChat
| HuggingFaceFetch
| LegacyFetch.

(** What a run has done so far: chunks handed to [onStream], provider calls,
    and the number of 200 ms polls waited for Puter. *)
Record Log : Type := mkLog {
  streamed : list string;
  calls : list Call;
  polls : nat
}.

Definition log0 : Log := mkLog [] [] 0.
Definition stream (chunks : list string) (l : Log) : Log :=
  mkLog (streamed l ++ chunks)%list (calls l) (polls l).
Definition call (c : Call) (l : Log) : Log :=
  mkLog (streamed l) (calls l ++ [c])%list (polls l).
Definition wait (n : nat) (l : Log) : Log :=
  mkLog (streamed l) (calls l) (polls l + n).

Definition puter_present (env : Env) (i : nat) : bool :=
  match puterAppearsAt env with
  | Some k => k <=? i
  | None => false
  end.

(** [for (let i = 0; i < retries; i++) { if (window.puter) return true;
    await delay }], by recursion on the polls left; the result and the number
    of delays awaited. *)
Fixpoint waitForPuter_from (env : Env) (left i : nat) : bool * nat :=
  match left with
  | 0 => (false, 0)
  | S left' =>
      if puter_present env i then (true, 0)
      else let '(found, waited) := waitForPuter_from env left' (S i) in (found, S waited)
  end.

Definition waitForPuter (env : Env) : bool * nat :=
  if negb (hasWindow env) then (false, 0)     (* [typeof window === 'undefined'] *)
  else waitForPuter_from env 20 0.

Fixpoint take (n : nat) (s : string) : string :=
  match n, s with
  | 0, _ => EmptyString
  | S n', String c r => String c (take n' r)
  | S _, EmptyString => EmptyString
  end.

(** A text of ASCII characters only: its characters here are its UTF-16
    code units, so that [String.length] is [text.length]. *)
Fixpoint is_ascii (s : string) : bool :=
  match s with
  | EmptyString => true
  | String c r => (nat_of_ascii c <? 128) && is_ascii r
  end.

(** [for (let i = 0; i < text.length; i += chunkSize)
      onStream(text.slice(i, i + chunkSize))]: the slices, in order.  The
    code cuts by UTF-16 code units: on an ASCII text the cuts are the ones
    made here; on any text the slices put end to end are the text. *)
Fixpoint slices (fuel chunkSize : nat) (text : string) : list string :=
  match fuel with
  | 0 => []
  | S fuel' =>
      match text with
      | EmptyString => []
      | String _ _ => take chunkSize text :: slices fuel' chunkSize (Js.drop chunkSize text)
      end
  end.

Definition simulate_streaming (onStream : bool) (chunkSize : nat) (text : string) (l : Log) : Log :=
  if onStream then stream (slices (String.length text) chunkSize text) l else l.

(** [a || b] on strings that may be absent. *)
Definition or_else (a : option string) (b : option string) : option string :=
  match a with
  | Some s => if Js.nonEmpty s then a else b
  | None => b
  end.

Definition is_truthy (a : option string) : bool :=
  match a with Some s => Js.nonEmpty s | None => false end.

Definition puter_text (resp : PuterResponse) : string :=
  match resp with
  | RespString s => s
  | RespObject message_content content asString _ =>
      match or_else (or_else message_content content) (Some asString) with
      | Some s => s
      | None => ""
      end
  | RespOther => ""
  end.

Definition puter_model (resp : PuterResponse) : string :=
  match resp with
  | RespObject _ _ _ (Some m) => if Js.nonEmpty m then "Instant (" ++ m ++ ")" else "Instant (Auto)"
  | _ => "Instant (Auto)"
  end.

(** 1. Puter.js strategy.  Whatever goes wrong inside the [try], an empty
    text included, is rethrown as "Puter AI failed to respond". *)
Definition tryPuter (env : Env) (onStream : bool) (l : Log)
  : Outcome FreeGenerationResult * Log :=
  let '(isLoaded, waited) := waitForPuter env in
  let l1 := wait waited l in
  if isLoaded then
    let l2 := call PuterChat l1 in
    match puterChat env with
    | Threw _ => (Threw (ThrownError (Error "Puter AI failed to respond")), l2)
    | Returned resp =>
        let text := puter_text resp in
        if negb (Js.nonEmpty text)
        then (Threw (ThrownError (Error "Puter AI failed to respond")), l2)
        else (Returned (mkFree (Some text) (puter_model resp)),
              simulate_streaming onStream 8 text l2)
    end
  else (Threw (ThrownError (Error "Puter.js not loaded after timeout")), l1).

Definition hf_model : string := "microsoft/Phi-3-mini-4k-instruct".

Definition hf_text (result : Body HfResult) : Outcome (option string) :=
  match result with
  | NotJson => Threw (ThrownError (SyntaxError "Unexpected token in JSON"))
  | JsonNull => Returned None
  | Json (HfArray None) => Returned None
  | Json (HfArray (Some t)) => Returned t
  | Json (HfObject t) => Returned t
  end.

(** 2. Hugging Face public inference (backup). *)
Definition tryHuggingFace (env : Env) (onStream : bool) (l : Log)
  : Outcome FreeGenerationResult * Log :=
  let l1 := call HuggingFaceFetch l in
  match hfFetch env with
  | FetchFailed e => (Threw (ThrownError e), l1)
  | Answer status body =>
      if negb (resp_ok status)
      then (Threw (ThrownError (Error ("HF Status: " ++ Js.string_of_Z status))), l1)
      else
        match hf_text body with
        | Threw t => (Threw t, l1)
        | Returned t =>
            match t with
            | Some text =>
                if Js.nonEmpty text
                then (Returned (mkFree (Some text) ("HF (" ++ hf_model ++ ")")),
                      simulate_streaming onStream 8 text l1)
                else (Threw (ThrownError (Error "Empty response from HF")), l1)
            | None => (Threw (ThrownError (Error "Empty response from HF")), l1)
            end
        end
  end.

(** [data.status === 'success']. *)
Definition is_success (data : LegacyData) : bool :=
  match status data with
  | Some s => String.eqb s "success"
  | None => false
  end.

(** 3. Legacy API (last resort).  With a callback, a missing [response]
    makes [aiText.length] throw. *)
Definition tryLegacyApi (env : Env) (onStream : bool) (l : Log)
  : Outcome FreeGenerationResult * Log :=
  let l1 := call LegacyFetch l in
  match legacyFetch env with
  | FetchFailed e => (Threw (ThrownError e), l1)
  | Answer status body =>
      if negb (resp_ok status)
      then (Threw (ThrownError (Error ("HTTP Error: " ++ Js.string_of_Z status))), l1)
      else
        match body with
        | NotJson => (Threw (ThrownError (SyntaxError "Unexpected token in JSON")), l1)
        | JsonNull => (Threw (ThrownError (TypeError "Cannot read properties of null")), l1)
        | Json data =>
            if is_success data then
              match response data, onStream with
              | None, true =>
                  (Threw (ThrownError (TypeError "Cannot read properties of undefined")), l1)
              | None, false => (Returned (mkFree None "Legacy API"), l1)
              | Some aiText, _ =>
                  (Returned (mkFree (Some aiText) "Legacy API"),
                   simulate_streaming onStream 4 aiText l1)
              end
            else
              (Threw (ThrownError (Error
                 match or_else (error data) (Some "API returned error status") with
                 | Some m => m
                 | None => ""
                 end)), l1)
        end
  end.

Definition busy : string :=
  "Instant AI services are currently busy. Please try again or use a Standard model.".

(** [try { return await m } catch { handler }]. *)
Definition try_catch {A : Type} (m : Outcome A * Log) (handler : Log -> Outcome A * Log)
  : Outcome A * Log :=
  match m with
  | (Returned a, l) => (Returned a, l)
  | (Threw _, l) => handler l
  end.

(** The prompt texts built first only shape the requests. *)
Definition generateFreeCompletion (env : Env) (onStream : bool)
  : Outcome FreeGenerationResult * Log :=
  try_catch (tryPuter env onStream log0) (fun l1 =>
    try_catch (tryHuggingFace env onStream l1) (fun l2 =>
      try_catch (tryLegacyApi env onStream l2) (fun l3 =>
        (Returned (mkFree (Some busy) "Error"),
         if onStream then stream [busy] l3 else l3)))).

(** One provider attempt, seen from outside: it adds its own calls and
    polls to the log, and streams only when it succeeds. *)
Definition attempt_ok (chunkSize : nat) (onStream : bool)
           (m : Outcome FreeGenerationResult * Log) (l : Log) : Prop :=
  polls l <= polls (snd m)
  /\ match fst m with
     | Threw _ => streamed (snd m) = streamed l
     | Returned r =>
         exists chunks,
           streamed (snd m) = (streamed l ++ chunks)%list
           /\ (onStream = true -> exists t, text r = Some t /\ Observe.joined chunks = t)
           /\ (onStream = false -> chunks = [])
           /\ Forall (fun c => 1 <= String.length c <= chunkSize) chunks
     end.

Definition failed {A : Type} (m : Outcome A * Log) : bool :=
  match fst m with
  | Threw _ => true
  | Returned _ => false
  end.

(** The orders in which one request can reach the providers. *)
Definition call_orders : list (list Call) :=
  [ [PuterChat];
    [PuterChat; HuggingFaceFetch];
    [PuterChat; HuggingFaceFetch; LegacyFetch];
    [HuggingFaceFetch];
    [HuggingFaceFetch; LegacyFetch] ].

(** A script in which only the legacy API answers, with a success status
    and no [response] field. *)
Definition legacy_without_response : Env :=
  {| hasWindow := true;
     puterAppearsAt := None;
     puterChat := Returned RespOther;
     hfFetch := Answer 503 NotJson;
     legacyFetch := Answer 200 (Json (mkLegacy (Some "success") None None)) |}.

End FreeLlm.

(** ** Instant mode of the agent on top of the free completion service

    [runAutonomousAgent] hands its [onStreamChunk] to
    [generateFreeCompletion]; the agent's environment is connected to a
    scripted free service. *)
Module Instant.
Import Agent.

Definition service (fenv : FreeLlm.Env) : Outcome (string * string) :=
  match fst (FreeLlm.generateFreeCompletion fenv true) with
  | Returned r =>
      Returned (match FreeLlm.text r with Some t => t | None => "" end, FreeLlm.modelUsed r)
  | Threw t => Threw t
  end.

Definition connect (fenv : FreeLlm.Env) (env : Env) : Env :=
  {| memoryContext := memoryContext env;
     routeReply := routeReply env;
     searchPrimary := searchPrimary env;
     searchFallback := searchFallback env;
     nativeReply := nativeReply env;
     openRouterReply := openRouterReply env;
     freeCompletion := service fenv;
     runCanvasAgent := runCanvasAgent env;
     getUserFriendlyError := getUserFriendlyError env;
     stringifyResults := stringifyResults env;
     abortAt := abortAt env |}.

End Instant.

(** ** generateOpenRouterStream: the event-stream reader

    The network delivers the response body in pieces of text (the decoder is
    the identity on the strings modelled here).  What [JSON.parse] and the
    path [json.choices?.[0]?.delta?.content] make of one payload is given by
    [content_of]: it throws, or yields the content when that is a string. *)
Module OpenRouterSse.

Definition newline : ascii := ascii_of_nat 10.

(** [s.split(sep)] for a one-character separator: never the empty list. *)
Fixpoint split (sep : ascii) (s : string) : list string :=
  match s with
  | EmptyString => [EmptyString]
  | String c r =>
      if Ascii.eqb c sep then EmptyString :: split sep r
      else match split sep r with
           | h :: t => String c h :: t
           | [] => [String c EmptyString]
           end
  end.

Record Reader : Type := mkReader {
  buffer : string;
  emitted : list string;        (* the arguments of [onChunk], in order *)
  finished : bool               (* the [return] at [DONE] was taken *)
}.

Definition reader0 : Reader := mkReader "" [] false.

Inductive LineResult : Type :=
| Skip
| Emit (content : string)
| Done.

(** [unlines ls]: each of [ls] followed by a line feed, put end to end. *)
Definition unlines (ls : list string) : string :=
  fold_right (fun l acc => l ++ Js.nl ++ acc) "" ls.

Fixpoint no_newline (s : string) : bool :=
  match s with
  | EmptyString => true
  | String c r => negb (Ascii.eqb c newline) && no_newline r
  end.

Definition done_line : string := "data: [DONE]".

Section Parser.

Variable content_of : string -> Outcome (option string).

(** The body of [for (const line of lines)]. *)
Definition on_line (line : string) : LineResult :=
  let trimmed := Js.trim line in
  if Js.startsWith trimmed "data: " then
    let dataStr := Js.drop 6 trimmed in
    if String.eqb dataStr "[DONE]" then Done
    else
      match content_of dataStr with
      | Returned (Some content) => if Js.nonEmpty content then Emit content else Skip
      | Returned None => Skip
      | Threw _ => Skip             (* the [catch] only warns *)
      end
  else Skip.

Fixpoint for_lines (lines : list string) (emitted : list string) : list string * bool :=
  match lines with
  | [] => (emitted, false)
  | line :: rest =>
      match on_line line with
      | Done => (emitted, true)
      | Emit content => for_lines rest (emitted ++ [content])%list
      | Skip => for_lines rest emitted
      end
  end.

(** One turn of [while (true)] after a successful [reader.read()]. *)
Definition read (value : string) (st : Reader) : Reader :=
  let lines := split newline (buffer st ++ value) in
  let '(emitted', returned) := for_lines (removelast lines) (emitted st) in
  mkReader (last lines "") emitted' returned.

Fixpoint pump (values : list string) (st : Reader) : Reader :=
  match values with
  | [] => st
  | value :: rest =>
      let st' := read value st in
      if finished st' then st' else pump rest st'
  end.

(** The reading loop: the pieces [values], then either the end of the body
    or a rejected read. *)
Definition read_body (values : list string) (failure : option JsError)
  : Outcome unit * list string :=
  let st := pump values reader0 in
  if finished st then (Returned tt, emitted st)
  else match failure with
       | Some e => (Threw (ThrownError e), emitted st)
       | None => (Returned tt, emitted st)
       end.

End Parser.

(** The response as the function meets it. *)
Inductive Response : Type :=
| FetchRejected (e : JsError)
| NotOk (status : Z) (errText : string)
| NoBody
| Body (values : list string) (failure : option JsError).

Section Request.

Variable content_of : string -> Outcome (option string).
(** [JSON.parse(errText)] followed by [errJson.error?.message]. *)
Variable error_message_of : string -> Outcome (option string).




End Request.

(** A left-to-right reading of [split] followed by [pop], used to reason
    about pieces put end to end: the complete lines of [cur ++ s] and what
    is left after the last line feed, for [cur] free of line feeds. *)
Fixpoint scan (cur : string) (s : string) : list string * string :=
  match s with
  | EmptyString => ([], cur)
  | String c r =>
      if Ascii.eqb c newline then
        let '(ls, rem) := scan EmptyString r in (cur :: ls, rem)
      else scan (cur ++ String c EmptyString) r
  end.

Definition output (st : Reader) : list string * bool := (emitted st, finished st).

End OpenRouterSse.

(** ** generateChatTitle: the local title

    [createLocalTitle] inside [generateChatTitle], for a message of ASCII
    characters: white space is ASCII white space, as for [trim], and the
    length tested and cut at 25 is the number of characters, which for such
    a message is the number of UTF-16 code units the code counts. *)
Module Title.

Definition lt : ascii := ascii_of_nat 60.
Definition gt : ascii := ascii_of_nat 62.

Fixpoint has_gt (s : string) : bool :=
  match s with
  | EmptyString => false
  | String c r => Ascii.eqb c gt || has_gt r
  end.

(** [text.replace(/<[^>]*>/g, '')]: a [<] with a [>] somewhere after it
    opens a match that ends at the first such [>]; [inTag] holds inside a
    match. *)
Fixpoint strip_tags (inTag : bool) (s : string) : string :=
  match s with
  | EmptyString => EmptyString
  | String c r =>
      if inTag then
        if Ascii.eqb c gt then strip_tags false r else strip_tags true r
      else if Ascii.eqb c lt && has_gt r then strip_tags true r
      else String c (strip_tags false r)
  end.

(** [s.split(/\s+/)]: [cur] is the segment being read, [inSpace] holds
    just after white space. *)
Fixpoint split_spaces (cur : string) (inSpace : bool) (s : string) : list string :=
  match s with
  | EmptyString => [cur]
  | String c r =>
      if Js.isSpace c then
        if inSpace then split_spaces EmptyString true r
        else cur :: split_spaces EmptyString true r
      else split_spaces (cur ++ String c EmptyString) false r
  end.

(** [words.join(' ')]. *)
Fixpoint join_space (words : list string) : string :=
  match words with
  | [] => EmptyString
  | [w] => w
  | w :: rest => w ++ " " ++ join_space rest
  end.

Definition createLocalTitle (text : string) : string :=
  if negb (Js.nonEmpty text) then "New Chat"
  else
    let clean := Js.trim (strip_tags false text) in
    let words := firstn 4 (split_spaces EmptyString false clean) in
    if Nat.eqb (List.length words) 0 then "New Chat"
    else
      let title := join_space words in
      if 25 <? String.length title then FreeLlm.take 25 title ++ "..." else title.

End Title.

(** * Properties *)

Import ExternalSearch Agent Scenario.

(** ** Sanity checks of the embedding *)

Example parse_object : Json.parse "{}" = Returned tt.
Proof. reflexivity. Qed.

Example parse_nested :
  Json.parse (" { " ++ Js.dq ++ "a" ++ Js.dq ++ " : [1, 2.5e3, null, {" ++ Js.dq ++ "b" ++ Js.dq ++ ":true}] } ")
  = Returned tt.
Proof. vm_compute. reflexivity. Qed.

Example parse_rejects_trailing_comma : exists t, Json.parse "[1,]" = Threw t.
Proof. vm_compute. eauto. Qed.

Example parse_rejects_trailing_text : exists t, Json.parse "{} x" = Threw t.
Proof. vm_compute. eauto. Qed.

Example parse_rejects_leading_zero : exists t, Json.parse "01" = Threw t.
Proof. vm_compute. eauto. Qed.

Example matchAll_two :
  Js.matchAll "<SEARCH>" "</SEARCH>" "a<SEARCH>x</SEARCH>b<SEARCH> y </SEARCH>c" = ["x"; " y "].
Proof. reflexivity. Qed.

Example trim_both : Js.trim "  a b  " = "a b".
Proof. reflexivity. Qed.

Example race_today_triggers_search :
  shouldUseExternalSearch "who won the race today" false false = true.
Proof. reflexivity. Qed.

Example canvas_variants :
  canvasMatch "<CANVAS_TRIGGER>a</CANVAS_TRIGGER>" = Some ("a", "") /\
  canvasMatch "<CANVAS_TRIGGER>b</CANVASTRIGGER>" = Some ("b", "") /\
  canvasMatch "<CANVAS>c</CANVAS>" = Some ("c", "") /\
  canvasMatch "<CANVASTRIGGER>d</CANVASTRIGGER>" = Some ("d", "") /\
  canvasMatch "<CANVASTRIGGER>e</CANVAS_TRIGGER>" = None.
Proof. repeat split; reflexivity. Qed.

(** A plain request: one generation, one reply. *)
Example plain_request :
  option_map (fun run => (texts (result run), exit run, iterations run))
    (runAutonomousAgent (script (Some "{}") (fun _ => stream_of ["Hello."])
                                (fun _ => OpenRouterStream ([], None)) None)
                        (request "hi" None fast no_profile) 6)
  = Some (["Hello."], ExitReturn, [1]).
Proof. vm_compute. reflexivity. Qed.

(** A lone search tag with an empty query: the [break] leaves the [switch]
    only, and the same prompt is generated again until the loop bound. *)
Example empty_search_tag_repeats :
  option_map (fun run => (exit run, iterations run, native_models (trace (world run))))
    (runAutonomousAgent (script (Some "{}") (fun _ => stream_of ["<SEARCH> </SEARCH>"])
                                (fun _ => OpenRouterStream ([], None)) None)
                        (request "tell me about cats" None fast no_profile) 6)
  = Some (ExitLoopExhausted, [1; 2; 3; 4; 5; 6],
          [flash; flash; flash; flash; flash; flash]).
Proof. vm_compute. reflexivity. Qed.

(** ** The search service *)

(** C9.  For every message and every value of [modelSupportsSearch],
    [shouldUseExternalSearch message modelSupportsSearch true] is [true]: a
    re-check made with the search-tag flag set is always accepted, whatever
    the keyword heuristic says. *)
Theorem tagged_search_always_accepted :
  forall (message : string) (modelSupportsSearch : bool),
    shouldUseExternalSearch message modelSupportsSearch true = true.
Proof.
  intros message modelSupportsSearch.
  unfold shouldUseExternalSearch.
  rewrite andb_false_r.
  apply orb_true_r.
Qed.

(** The fallback catches whatever its body throws. *)
Lemma fallback_returns :
  forall query reply, exists results, runDuckDuckGoFallback query reply = Returned results.
Proof.
  intros query reply. unfold runDuckDuckGoFallback.
  destruct (ddg_body reply); eauto.
Qed.

Lemma runWebSearch_returns :
  forall query limit primary fallback,
    exists results, fst (runWebSearch query limit primary fallback) = Returned results.
Proof.
  intros query limit primary fallback. unfold runWebSearch.
  destruct (runBubbleSearch query limit primary) as [rs | t]; simpl.
  - eauto.
  - apply fallback_returns.
Qed.

(** When the primary provider throws, the fallback's results are served. *)
Example fallback_serves_after_timeout :
  runWebSearch "cats" 15 NoReplyWithin8s (Response 200 (BodyJson ddg_cat))
  = (Returned [ mkResult (Some (JStr "Cat")) (Some (JStr "https://en.wikipedia.org/wiki/Cat"))
                         (Some (JStr "The cat is a small domesticated carnivorous mammal."))
                         (Some (JStr "The cat is a small domesticated carnivorous mammal.")) ],
     [PrimaryCall "cats" 15; FallbackCall "cats"]).
Proof. reflexivity. Qed.

Lemma primary_failure_throws :
  forall query limit primary,
    Failure.primary primary = true ->
    exists t, runBubbleSearch query limit primary = Threw t.
Proof.
  intros query limit [[e | status [data | ]] | ] H; simpl in *; eauto.
  - rewrite H. eauto.
  - destruct (resp_ok status); simpl; eauto.
Qed.

Lemma fallback_failure_is_empty :
  forall query fallback,
    Failure.transport fallback = true ->
    runDuckDuckGoFallback query fallback = Returned [].
Proof.
  intros query [e | status [data | ]] H; unfold runDuckDuckGoFallback; simpl in *.
  - reflexivity.
  - rewrite H. reflexivity.
  - destruct (resp_ok status); reflexivity.
Qed.

(** C7, as the code has it.  Whenever the primary provider times out, its
    request is rejected, it answers outside 2xx or with a body that is not
    JSON or is [null] (and, more generally, whenever [runBubbleSearch]
    throws), [runWebSearch] calls the fallback provider and returns what it
    returns; any other 2xx JSON payload whose [success] field is not truthy,
    or whose [results] are not an array, is answered by the empty list
    without any fallback call; the fallback never throws; [runWebSearch]
    never throws; and when both providers fail the result is the empty
    list. *)
Theorem search_fallback_chain :
  forall (query : string) (limit : Z) (primary : PrimaryReply) (fallback : Settled),
    (Failure.primary primary = true ->
       runWebSearch query limit primary fallback
       = (runDuckDuckGoFallback query fallback, [PrimaryCall query limit; FallbackCall query]))
    /\ (forall t, runBubbleSearch query limit primary = Threw t ->
       runWebSearch query limit primary fallback
       = (runDuckDuckGoFallback query fallback, [PrimaryCall query limit; FallbackCall query]))
    /\ (forall status data success,
          primary = InTime (Response status (BodyJson data)) ->
          resp_ok status = true ->
          prop (Some data) "success" = Returned success ->
          truthy success = false ->
          runWebSearch query limit primary fallback = (Returned [], [PrimaryCall query limit]))
    /\ (forall status data success results,
          primary = InTime (Response status (BodyJson data)) ->
          resp_ok status = true ->
          prop (Some data) "success" = Returned success ->
          truthy success = true ->
          prop (Some data) "results" = Returned results ->
          isArray results = None ->
          runWebSearch query limit primary fallback = (Returned [], [PrimaryCall query limit]))
    /\ (forall status,
          primary = InTime (Response status (BodyJson JNull)) ->
          runWebSearch query limit primary fallback
          = (runDuckDuckGoFallback query fallback, [PrimaryCall query limit; FallbackCall query]))
    /\ (exists results, runDuckDuckGoFallback query fallback = Returned results)
    /\ (exists results, fst (runWebSearch query limit primary fallback) = Returned results)
    /\ (Failure.primary primary = true -> Failure.transport fallback = true ->
          fst (runWebSearch query limit primary fallback) = Returned []).
Proof.
  intros query limit primary fallback.
  assert (Hthrow : forall t, runBubbleSearch query limit primary = Threw t ->
            runWebSearch query limit primary fallback
            = (runDuckDuckGoFallback query fallback, [PrimaryCall query limit; FallbackCall query])).
  { intros t Ht. unfold runWebSearch. rewrite Ht. reflexivity. }
  assert (Hfail : Failure.primary primary = true ->
            runWebSearch query limit primary fallback
            = (runDuckDuckGoFallback query fallback, [PrimaryCall query limit; FallbackCall query])).
  { intros H. destruct (primary_failure_throws query limit primary H) as [t Ht]. eauto. }
  repeat split.
  - exact Hfail.
  - exact Hthrow.
  - intros status data success -> Hok Hprop Hfalse.
    unfold runWebSearch, runBubbleSearch.
    rewrite Hok. cbn [negb resp_json bind]. rewrite Hprop. cbn [bind]. rewrite Hfalse. reflexivity.
  - intros status data success results -> Hok Hprop Htrue Hres Harr.
    unfold runWebSearch, runBubbleSearch.
    rewrite Hok. cbn [negb resp_json bind]. rewrite Hprop. cbn [bind]. rewrite Htrue, Hres.
    cbn [bind]. rewrite Harr. reflexivity.
  - intros status ->. unfold runWebSearch, runBubbleSearch.
    destruct (resp_ok status); reflexivity.
  - apply fallback_returns.
  - apply runWebSearch_returns.
  - intros Hp Hf. rewrite (Hfail Hp). simpl. apply fallback_failure_is_empty. exact Hf.
Qed.

Lemma search_fallback_chain_witness :
  runWebSearch "cats" 15 (InTime (Response 503 BodyNotJson)) (Rejected (Error "Failed to fetch"))
  = (Returned [], [PrimaryCall "cats" 15; FallbackCall "cats"])
  /\ runWebSearch "cats" 15 (InTime (Response 200 (BodyJson (JObj [("success", JNull)]))))
                  (Response 200 (BodyJson ddg_cat))
     = (Returned [], [PrimaryCall "cats" 15])
  /\ runWebSearch "cats" 15
       (InTime (Response 200 (BodyJson (JObj [("success", JBool true); ("results", JStr "none")]))))
       (Response 200 (BodyJson ddg_cat))
     = (Returned [], [PrimaryCall "cats" 15])
  /\ fst (runWebSearch "cats" 15 NoReplyWithin8s (Response 500 BodyNotJson)) = Returned [].
Proof.
  destruct (search_fallback_chain "cats" 15 (InTime (Response 503 BodyNotJson))
              (Rejected (Error "Failed to fetch"))) as (H1 & _).
  destruct (search_fallback_chain "cats" 15
              (InTime (Response 200 (BodyJson (JObj [("success", JNull)]))))
              (Response 200 (BodyJson ddg_cat))) as (_ & _ & H3 & _).
  destruct (search_fallback_chain "cats" 15
              (InTime (Response 200 (BodyJson (JObj [("success", JBool true); ("results", JStr "none")]))))
              (Response 200 (BodyJson ddg_cat))) as (_ & _ & _ & H4 & _).
  destruct (search_fallback_chain "cats" 15 NoReplyWithin8s (Response 500 BodyNotJson))
    as (_ & _ & _ & _ & _ & _ & _ & H6).
  split; [ | split; [ | split ] ].
  - rewrite (H1 eq_refl). reflexivity.
  - apply (H3 200%Z (JObj [("success", JNull)]) (Some JNull)); reflexivity.
  - apply (H4 200%Z (JObj [("success", JBool true); ("results", JStr "none")])
              (Some (JBool true)) (Some (JStr "none"))); reflexivity.
  - apply H6; reflexivity.
Defined.

(** C7 as stated fails: the primary provider reports failure in a well-formed
    payload ([success] false) and [runWebSearch] returns the empty list
    without calling the fallback provider, which had a result to give. *)
Lemma reported_failure_skips_fallback :
  runWebSearch "cats" 15
    (InTime (Response 200 (BodyJson (JObj [("success", JBool false); ("error", JStr "upstream unavailable")]))))
    (Response 200 (BodyJson ddg_cat))
  = (Returned [], [PrimaryCall "cats" 15])
  /\ exists r, runDuckDuckGoFallback "cats" (Response 200 (BodyJson ddg_cat)) = Returned [r].
Proof. split; [ reflexivity | eexists; reflexivity ]. Qed.

(** ** The retry ladder *)

Example backoff_values : map backoff_delay [0; 1; 2] = [3000; 5000; 9000]%Z.
Proof. reflexivity. Qed.

(** C4 as stated fails: the formula gives 3000 ms, not 5000 ms, for attempt 0
    (and 5000 ms, not 7000 ms, for attempt 1). *)
Lemma backoff_is_not_5000_7000_9000 :
  backoff_delay 0 = 3000%Z /\ backoff_delay 1 = 5000%Z /\
  map backoff_delay [0; 1; 2] <> [5000; 7000; 9000]%Z.
Proof. repeat split; try reflexivity. discriminate. Qed.

Lemma sleeps_app : forall a b, sleeps (a ++ b) = (sleeps a ++ sleeps b)%list.
Proof. intros a b. unfold sleeps. apply flat_map_app. Qed.

Lemma native_models_app :
  forall a b, native_models (a ++ b) = (native_models a ++ native_models b)%list.
Proof. intros a b. unfold native_models. apply flat_map_app. Qed.

Lemma retry_loop_quota_step :
  forall env left attempt retries model prompt w e,
    nativeReply env (nativeCalls w) = ApiError e ->
    isNotFound e = false ->
    isQuotaError e = true ->
    attempt < retries ->
    retry_loop env (S left) attempt retries model prompt w
    = retry_loop env left (S attempt) retries model prompt (after_quota_wait attempt model prompt w).
Proof.
  intros env left attempt retries model prompt w e Hreply Hnf Hq Hlt.
  cbn [retry_loop]. rewrite Hreply, Hnf, Hq.
  apply Nat.ltb_lt in Hlt. rewrite Hlt. reflexivity.
Qed.

Lemma retry_loop_quota_last :
  forall env left attempt retries model prompt w e,
    nativeReply env (nativeCalls w) = ApiError e ->
    isNotFound e = false ->
    retries <= attempt ->
    retry_loop env (S left) attempt retries model prompt w
    = (Threw (ThrownError e), tick (count_native (emit (EvNativeCall model prompt) w))).
Proof.
  intros env left attempt retries model prompt w e Hreply Hnf Hge.
  cbn [retry_loop]. rewrite Hreply, Hnf.
  apply Nat.ltb_ge in Hge. rewrite Hge, andb_false_r. reflexivity.
Qed.

Lemma after_quota_wait_spec :
  forall attempt model prompt w,
    trace (after_quota_wait attempt model prompt w)
    = (trace w ++ [EvNativeCall model prompt; EvSleep (backoff_delay attempt)])%list
    /\ nativeCalls (after_quota_wait attempt model prompt w) = S (nativeCalls w).
Proof.
  intros attempt model prompt w. unfold after_quota_wait.
  cbn [trace nativeCalls tick emit onStreamChunk count_native].
  rewrite <- app_assoc. split; reflexivity.
Qed.

Lemma after_failed_call_spec :
  forall model prompt w,
    trace (tick (count_native (emit (EvNativeCall model prompt) w)))
    = (trace w ++ [EvNativeCall model prompt])%list
    /\ nativeCalls (tick (count_native (emit (EvNativeCall model prompt) w))) = S (nativeCalls w).
Proof. intros. split; reflexivity. Qed.

(** Four quota errors in a row: three waits, then the error is thrown. *)
Lemma quota_exhausted :
  forall env model prompt w e,
    isNotFound e = false ->
    isQuotaError e = true ->
    (forall n, nativeReply env n = ApiError e) ->
    retry_loop env 4 0 3 model prompt w
    = (Threw (ThrownError e),
       tick (count_native (emit (EvNativeCall model prompt)
         (after_quota_wait 2 model prompt
           (after_quota_wait 1 model prompt (after_quota_wait 0 model prompt w)))))).
Proof.
  intros env model prompt w e Hnf Hq Hreply.
  rewrite (retry_loop_quota_step env 3 0 3 model prompt _ e (Hreply _) Hnf Hq) by lia.
  rewrite (retry_loop_quota_step env 2 1 3 model prompt _ e (Hreply _) Hnf Hq) by lia.
  rewrite (retry_loop_quota_step env 1 2 3 model prompt _ e (Hreply _) Hnf Hq) by lia.
  rewrite (retry_loop_quota_last env 0 3 3 model prompt _ e (Hreply _) Hnf) by lia.
  reflexivity.
Qed.

(** C4, as the code has it.  A native generation call that keeps failing
    with a quota error (one that is not also of the not-found class) is
    issued four times in all: the error is retried three times, after waits
    of [2^attempt * 2000 + 1000] ms, that is 3000 ms, 5000 ms and 9000 ms for
    attempts 0, 1 and 2, and the fourth quota error is thrown to the caller. *)
Theorem quota_retries :
  forall (env : Env) (model prompt : string) (w : World) (e : JsError),
    Js.nonEmpty model = true ->
    isNotFound e = false ->
    isQuotaError e = true ->
    (forall n, nativeReply env n = ApiError e) ->
    (forall attempt, backoff_delay attempt = (2 ^ Z.of_nat attempt * 2000 + 1000)%Z)
    /\ exists w',
        generateContentStreamWithRetry env model prompt 3 w = (Threw (ThrownError e), w')
        /\ sleeps (trace w') = (sleeps (trace w) ++ [3000; 5000; 9000]%Z)%list
        /\ nativeCalls w' = nativeCalls w + 4
        /\ native_models (trace w') = (native_models (trace w) ++ [model; model; model; model])%list.
Proof.
  intros env model prompt w e Hmodel Hnf Hq Hreply.
  split; [ intros attempt; reflexivity | ].
  exists (tick (count_native (emit (EvNativeCall model prompt)
           (after_quota_wait 2 model prompt
             (after_quota_wait 1 model prompt (after_quota_wait 0 model prompt w)))))).
  split.
  { unfold generateContentStreamWithRetry. rewrite Hmodel. cbn [negb].
    apply quota_exhausted; assumption. }
  destruct (after_failed_call_spec model prompt
              (after_quota_wait 2 model prompt
                (after_quota_wait 1 model prompt (after_quota_wait 0 model prompt w)))) as [T3 N3].
  destruct (after_quota_wait_spec 2 model prompt
              (after_quota_wait 1 model prompt (after_quota_wait 0 model prompt w))) as [T2 N2].
  destruct (after_quota_wait_spec 1 model prompt (after_quota_wait 0 model prompt w)) as [T1 N1].
  destruct (after_quota_wait_spec 0 model prompt w) as [T0 N0].
  rewrite T3, T2, T1, T0, N3, N2, N1, N0.
  rewrite !sleeps_app, !native_models_app.
  split; [ | split ].
  - rewrite <- !app_assoc. reflexivity.
  - lia.
  - rewrite <- !app_assoc. reflexivity.
Qed.

Lemma quota_retries_witness :
  exists w',
    generateContentStreamWithRetry
      (script (Some "{}") (fun _ => ApiError quota_error) (fun _ => OpenRouterStream ([], None)) None)
      flash "hi" 3 world0 = (Threw (ThrownError quota_error), w')
    /\ sleeps (trace w') = [3000; 5000; 9000]%Z
    /\ nativeCalls w' = 4.
Proof.
  destruct (quota_retries
              (script (Some "{}") (fun _ => ApiError quota_error) (fun _ => OpenRouterStream ([], None)) None)
              flash "hi" world0 quota_error eq_refl eq_refl eq_refl (fun _ => eq_refl))
    as (_ & w' & H1 & H2 & H3 & _).
  exists w'. split; [ exact H1 | split; [ exact H2 | exact H3 ] ].
Defined.

(** ** The bounded loop *)

Lemma while_loop_eq :
  forall env input model isNative fuel n its v w,
    while_loop env input model isNative fuel n its v w =
    if negb (n <? MAX_LOOPS) then Some (mkLoopEnd LoopExhausted v w n its)
    else if aborted env w then Some (mkLoopEnd LoopAborted v w n its)
    else
      match fuel with
      | 0 => None
      | S fuel' =>
          match body env input model isNative v w with
          | StepContinue v' w' =>
              while_loop env input model isNative fuel' (S n) (its ++ [S n]) v' w'
          | StepSwitchBreak v' w' =>
              while_loop env input model isNative fuel' (S n) (its ++ [S n]) v' w'
          | StepCanvas r v' w' => Some (mkLoopEnd (LoopCanvas r) v' w' (S n) (its ++ [S n]))
          | StepReturn r v' w' => Some (mkLoopEnd (LoopReturn r) v' w' (S n) (its ++ [S n]))
          | StepThrow t v' w' => Some (mkLoopEnd (LoopThrow t) v' w' (S n) (its ++ [S n]))
          end
      end.
Proof. intros. destruct fuel; reflexivity. Qed.

(** The loop is left after at most [MAX_LOOPS - loopCount] further passes:
    with that much fuel the model of the loop never runs dry, the counter
    ends within the bound, and the passes are numbered consecutively. *)
Lemma while_loop_bounded :
  forall env input model isNative fuel n v w,
    n <= MAX_LOOPS ->
    MAX_LOOPS - n <= fuel ->
    exists e,
      while_loop env input model isNative fuel n (seq 1 n) v w = Some e
      /\ n <= end_loopCount e <= MAX_LOOPS
      /\ end_iterations e = seq 1 (end_loopCount e).
Proof.
  intros env input model isNative fuel.
  induction fuel as [ | fuel IH ]; intros n v w Hn Hfuel; rewrite while_loop_eq.
  - assert (n = MAX_LOOPS) by lia. subst n.
    simpl. eexists. split; [ reflexivity | ]. simpl. unfold MAX_LOOPS. split; [ lia | reflexivity ].
  - destruct (n <? MAX_LOOPS) eqn:Hlt; simpl negb; cbv iota.
    2: { eexists. split; [ reflexivity | ]. simpl. split; [ lia | reflexivity ]. }
    apply Nat.ltb_lt in Hlt.
    destruct (aborted env w).
    { eexists. split; [ reflexivity | ]. simpl. split; [ lia | reflexivity ]. }
    assert (Hseq : (seq 1 n ++ [S n])%list = seq 1 (S n)).
    { rewrite seq_S. reflexivity. }
    rewrite Hseq.
    destruct (body env input model isNative v w) as [v' w' | v' w' | r v' w' | r v' w' | t v' w'].
    + destruct (IH (S n) v' w') as (e & He & Hb & Hi); [ lia | lia | ].
      exists e. repeat split; try assumption; lia.
    + destruct (IH (S n) v' w') as (e & He & Hb & Hi); [ lia | lia | ].
      exists e. repeat split; try assumption; lia.
    + eexists. split; [ reflexivity | ]. simpl. split; [ lia | reflexivity ].
    + eexists. split; [ reflexivity | ]. simpl. split; [ lia | reflexivity ].
    + eexists. split; [ reflexivity | ]. simpl. split; [ lia | reflexivity ].
Qed.

(** More fuel never changes the outcome of the loop. *)
Lemma while_loop_fuel_mono :
  forall env input model isNative fuel k n its v w e,
    while_loop env input model isNative fuel n its v w = Some e ->
    while_loop env input model isNative (fuel + k) n its v w = Some e.
Proof.
  intros env input model isNative fuel k.
  induction fuel as [ | fuel IH ]; intros n its v w e; rewrite !while_loop_eq.
  - destruct (negb (n <? MAX_LOOPS)); [ auto | ].
    destruct (aborted env w); [ auto | discriminate ].
  - destruct (negb (n <? MAX_LOOPS)); [ auto | ].
    destruct (aborted env w); [ auto | ].
    simpl Nat.add.
    destruct (body env input model isNative v w); auto.
Qed.

Lemma caught_counters :
  forall env t v w n its,
    loopCount (caught env t v w n its) = n /\ iterations (caught env t v w n its) = its
    /\ vars (caught env t v w n its) = v /\ world (caught env t v w n its) = w.
Proof.
  intros env t v w n its. unfold caught.
  destruct (is_AbortError t); repeat split.
Qed.

Lemma after_loop_counters :
  forall env e,
    loopCount (after_loop env e) = end_loopCount e
    /\ iterations (after_loop env e) = end_iterations e
    /\ vars (after_loop env e) = end_vars e
    /\ world (after_loop env e) = end_world e.
Proof.
  intros env e. unfold after_loop.
  destruct (how e); try (repeat split; fail).
  apply caught_counters.
Qed.

(** C1.  Whatever the request and whatever the model keeps emitting, the
    handler returns (given fuel for [MAX_LOOPS = 6] passes, the model of the
    loop never runs dry), the passes through the loop body, each of which
    performs one generation, are numbered 1, 2, ..., [loopCount] (the counter
    goes up by exactly one per pass), and [loopCount] never exceeds 6. *)
Theorem loop_bound :
  forall (env : Env) (input : AgentInput) (fuel : nat),
    MAX_LOOPS <= fuel ->
    MAX_LOOPS = 6
    /\ exists run,
        runAutonomousAgent env input fuel = Some run
        /\ loopCount run <= MAX_LOOPS
        /\ iterations run = seq 1 (loopCount run)
        /\ length (iterations run) <= 6.
Proof.
  intros env input fuel Hfuel. split; [ reflexivity | ].
  assert (Hdone : forall t v w, exists run,
            Some (caught env t v w 0 []) = Some run
            /\ loopCount run <= MAX_LOOPS
            /\ iterations run = seq 1 (loopCount run)
            /\ length (iterations run) <= 6).
  { intros t v w. eexists. split; [ reflexivity | ].
    destruct (caught_counters env t v w 0 []) as (-> & -> & _).
    simpl. repeat split; lia. }
  assert (Hloop : forall model isNative v w, exists run,
            match while_loop env input model isNative fuel 0 [] v w with
            | None => None
            | Some e => Some (after_loop env e)
            end = Some run
            /\ loopCount run <= MAX_LOOPS
            /\ iterations run = seq 1 (loopCount run)
            /\ length (iterations run) <= 6).
  { intros model isNative v w.
    destruct (while_loop_bounded env input model isNative fuel 0 v w) as (e & He & Hb & Hi);
      [ lia | lia | ].
    simpl seq in He. rewrite He.
    eexists. split; [ reflexivity | ].
    destruct (after_loop_counters env e) as (-> & -> & _).
    rewrite Hi, length_seq. unfold MAX_LOOPS in *. repeat split; lia. }
  unfold runAutonomousAgent.
  destruct (thinkingMode input).
  - destruct (freeCompletion env) as [[t m] | t];
      (eexists; split; [ reflexivity | ]; simpl; repeat split; lia).
  - destruct (resolveModel input _) as [r w1].
    destruct (routeReply env) as [action | t]; [ | apply Hdone ].
    destruct (preemptive_search env input _ _ _) as [[[u | t] v1] w3]; [ | apply Hdone ].
    destruct (Json.parse _) as [u' | t]; [ | apply Hdone ].
    apply Hloop.
  - destruct (resolveModel input _) as [r w1].
    destruct (routeReply env) as [action | t]; [ | apply Hdone ].
    destruct (preemptive_search env input _ _ _) as [[[u | t] v1] w3]; [ | apply Hdone ].
    destruct (Json.parse _) as [u' | t]; [ | apply Hdone ].
    apply Hloop.
  - destruct (resolveModel input _) as [r w1].
    destruct (routeReply env) as [action | t]; [ | apply Hdone ].
    destruct (preemptive_search env input _ _ _) as [[[u | t] v1] w3]; [ | apply Hdone ].
    destruct (Json.parse _) as [u' | t]; [ | apply Hdone ].
    apply Hloop.
Qed.

Lemma loop_bound_witness :
  exists run,
    runAutonomousAgent (script (Some "{}") (fun _ => stream_of ["<DEEP>again</DEEP>"])
                               (fun _ => OpenRouterStream ([], None)) None)
                       (request "think hard" None fast no_profile) 6 = Some run
    /\ loopCount run <= 6
    /\ iterations run = seq 1 (loopCount run).
Proof.
  destruct (loop_bound (script (Some "{}") (fun _ => stream_of ["<DEEP>again</DEEP>"])
                               (fun _ => OpenRouterStream ([], None)) None)
                       (request "think hard" None fast no_profile) 6)
    as (_ & run & H1 & H2 & H3 & _).
  - unfold MAX_LOOPS. lia.
  - exists run. split; [ exact H1 | split; [ exact H2 | exact H3 ] ].
Defined.

(** A model that answers every prompt with another deep-reasoning tag is
    generated from six times, and the accumulated text is returned. *)
Example relentless_tags_stop_at_six :
  option_map (fun run => (exit run, iterations run, length (native_models (trace (world run)))))
    (runAutonomousAgent (script (Some "{}") (fun _ => stream_of ["<DEEP>again</DEEP>"])
                                (fun _ => OpenRouterStream ([], None)) None)
                        (request "think hard" None fast no_profile) 100)
  = Some (ExitLoopExhausted, [1; 2; 3; 4; 5; 6], 6).
Proof. vm_compute. reflexivity. Qed.

(** ** Facts about searches issued by the agent *)

Lemma accepted_with_tag :
  forall message modelSupportsSearch,
    shouldUseExternalSearch message modelSupportsSearch true = true.
Proof.
  intros. unfold shouldUseExternalSearch. rewrite andb_false_r. apply orb_true_r.
Qed.

Lemma emit_all_trace :
  forall calls w,
    trace (fold_left (fun w' c => emit (EvSearch c) w') calls w)
    = (trace w ++ map EvSearch calls)%list
    /\ clock (fold_left (fun w' c => emit (EvSearch c) w') calls w) = clock w
    /\ searchCalls (fold_left (fun w' c => emit (EvSearch c) w') calls w) = searchCalls w
    /\ streamed (fold_left (fun w' c => emit (EvSearch c) w') calls w) = streamed w.
Proof.
  induction calls as [ | c calls IH ]; intros w; simpl.
  - rewrite app_nil_r. repeat split.
  - destruct (IH (emit (EvSearch c) w)) as (-> & -> & -> & ->). simpl.
    rewrite <- app_assoc. repeat split.
Qed.

(** A search by the agent always returns, calls the primary provider first,
    and issues nothing but search calls. *)
Lemma do_search_spec :
  forall env query w,
    exists results more,
      fst (do_search env query w) = Returned results
      /\ trace (snd (do_search env query w))
         = (trace w ++ map EvSearch (PrimaryCall query 15 :: more))%list
      /\ searchCalls (snd (do_search env query w)) = S (searchCalls w)
      /\ clock (snd (do_search env query w)) = S (clock w)
      /\ streamed (snd (do_search env query w)) = streamed w.
Proof.
  intros env query w. unfold do_search.
  destruct (runWebSearch_returns query 15 (searchPrimary env (searchCalls w))
              (searchFallback env (searchCalls w))) as [results Hres].
  unfold runWebSearch in *.
  destruct (runBubbleSearch query 15 (searchPrimary env (searchCalls w))) as [rs | t];
    simpl in Hres |- *.
  - exists results, []. repeat split; assumption.
  - exists results, [FallbackCall query]. rewrite <- app_assoc. repeat split; assumption.
Qed.

Lemma generation_calls_app :
  forall a b, generation_calls (a ++ b) = (generation_calls a ++ generation_calls b)%list.
Proof. intros a b. unfold generation_calls. apply filter_app. Qed.

Lemma generation_calls_search :
  forall calls, generation_calls (map EvSearch calls) = [].
Proof. induction calls as [ | c calls IH ]; simpl; auto. Qed.

Lemma preemptive_search_spec :
  forall env input mss v w,
    exists v' w',
      preemptive_search env input mss v w = (Returned tt, v', w')
      /\ generation_calls (trace w') = generation_calls (trace w).
Proof.
  intros env input mss v w. unfold preemptive_search.
  destruct (shouldUseExternalSearch (prompt input) mss false); [ | eauto ].
  destruct (do_search_spec env (prompt input)
              (onStreamChunk ("<SEARCH>" ++ prompt input ++ "</SEARCH>") w))
    as (results & more & Hres & Htr & _).
  destruct (do_search env (prompt input) _) as [r w2]. cbn [fst snd] in Hres, Htr. subst r.
  assert (Hgen : generation_calls (trace w2) = generation_calls (trace w)).
  { rewrite Htr, generation_calls_app, generation_calls_search, app_nil_r. reflexivity. }
  destruct (is_admin (profile input)); destruct results; simpl; eauto.
Qed.

Lemma resolveModel_trace :
  forall input w, trace (snd (resolveModel input w)) = trace w.
Proof.
  intros input w. unfold resolveModel, classify, thinking_compatibility.
  destruct (negb (isGoogleModel _) && _); simpl;
    match goal with |- context [if ?c then _ else _] => destruct c end; reflexivity.
Qed.

(** ** Memory failure *)

Lemma parse_empty :
  Json.parse "" = Threw (ThrownError (SyntaxError "Unexpected end of JSON input")).
Proof. reflexivity. Qed.

(** C3 fails on the code.  When the memory fetch throws, the memory string
    stays empty, [JSON.parse] of the empty string throws inside the outer
    [try], and every request outside instant mode whose routing succeeded
    ends in the outer [catch]: the reply is the warning message, and no
    generation call was issued. *)
Theorem memory_failure_fails_request :
  forall (env : Env) (input : AgentInput) (fuel : nat) (action : RouterAction),
    memoryContext env = None ->
    thinkingMode input <> instant ->
    routeReply env = Returned action ->
    exists v w,
      runAutonomousAgent env input fuel
      = Some (mkRun (Returned [ mkMessage (warning ++ getUserFriendlyError env
                                   (ThrownError (SyntaxError "Unexpected end of JSON input")))
                                 None None ])
                    ExitCaughtError v w 0 [])
      /\ generation_calls (trace w) = [].
Proof.
  intros env input fuel action Hmem Hmode Hroute.
  unfold runAutonomousAgent. rewrite Hmem, Hroute.
  assert (Hgoal : forall w0, trace w0 = [EvMemoryFetch] ->
    exists v w,
      (let '(r, w1) := resolveModel input w0 in
       match preemptive_search env input (res_isNative r || Js.includes (res_model r) "perplexity")
               (vars0 input) (tick (emit EvRoute w1)) with
       | (Threw t, v1, w3) => Some (caught env t v1 w3 0 [])
       | (Returned _, v1, w3) =>
           match Json.parse "" with
           | Threw t => Some (caught env t v1 w3 0 [])
           | Returned _ =>
               match while_loop env input (res_model r) (res_isNative r) fuel 0 []
                       (set_action action v1) w3 with
               | None => None
               | Some e => Some (after_loop env e)
               end
           end
       end)
      = Some (mkRun (Returned [ mkMessage (warning ++ getUserFriendlyError env
                                   (ThrownError (SyntaxError "Unexpected end of JSON input")))
                                 None None ])
                    ExitCaughtError v w 0 [])
      /\ generation_calls (trace w) = []).
  { intros w0 Hw0.
    pose proof (resolveModel_trace input w0) as Htr.
    destruct (resolveModel input w0) as [r w1]. simpl in Htr.
    destruct (preemptive_search_spec env input
                (res_isNative r || Js.includes (res_model r) "perplexity")
                (vars0 input) (tick (emit EvRoute w1))) as (v' & w' & Hpre & Hgen).
    rewrite Hpre, parse_empty.
    exists v', w'. split; [ reflexivity | ].
    rewrite Hgen. simpl. rewrite Htr, Hw0. reflexivity. }
  destruct (thinkingMode input); [ congruence | | | ]; apply Hgoal; reflexivity.
Qed.

Lemma memory_failure_fails_request_witness :
  exists v w,
    runAutonomousAgent (script None (fun _ => stream_of ["Hello."])
                               (fun _ => OpenRouterStream ([], None)) None)
                       (request "hi" None fast no_profile) 6
    = Some (mkRun (Returned [ mkMessage (warning ++ "Something went wrong.") None None ])
                  ExitCaughtError v w 0 [])
    /\ generation_calls (trace w) = [].
Proof.
  apply (memory_failure_fails_request
           (script None (fun _ => stream_of ["Hello."]) (fun _ => OpenRouterStream ([], None)) None)
           (request "hi" None fast no_profile) 6 SIMPLE).
  - reflexivity.
  - discriminate.
  - reflexivity.
Defined.

(** ** Cancellation *)

(** On the native path, a signal that fires after the first delta of a
    stream without tags gives the deltas received so far, as a normal
    reply. *)
Example native_stop_returns_partial_text :
  option_map (fun run => (texts (result run), exit run, streamed (world run),
                          generation_calls (trace (world run))))
    (runAutonomousAgent (script (Some "{}") (fun _ => stream_of ["Hel"; "lo"])
                                (fun _ => OpenRouterStream ([], None)) (Some 5))
                        (request "hi" None fast no_profile) 6)
  = Some (["Hel"], ExitReturn, ["Hel"], [EvNativeCall flash "hi"]).
Proof. vm_compute. reflexivity. Qed.

(** On the native path, a search tag completed before the signal fired is
    still serviced after it: both search providers are called. *)
Example search_issued_after_stop :
  option_map (fun run => (exit run, clock (world run), trace (world run)))
    (runAutonomousAgent (script (Some "{}") (fun _ => stream_of ["<SEARCH>cats</SEARCH>"; "..."])
                                (fun _ => OpenRouterStream ([], None)) (Some 5))
                        (request "hi" None fast no_profile) 6)
  = Some (ExitLoopAborted, 6,
          [EvMemoryFetch; EvRoute; EvNativeCall flash "hi";
           EvSearch (PrimaryCall "cats" 15); EvSearch (FallbackCall "cats")]).
Proof. vm_compute. reflexivity. Qed.

(** C2 fails on the code.  Whatever a generation throws, an [AbortError]
    included, the loop body throws the flag [true] in its place; the outer
    [catch] finds no [name] on it, and the reply is the warning message
    instead of the text streamed so far. *)
Theorem aborted_generation_is_reported_as_error :
  forall (env : Env) (input : AgentInput) (model : string) (isNative : bool)
         (fuel n : nat) (its : list nat) (v v1 : Vars) (w w1 : World),
    n < MAX_LOOPS ->
    aborted env w = false ->
    generate env input model isNative v w = (Threw (ThrownError AbortError), v1, w1) ->
    exists e,
      while_loop env input model isNative (S fuel) n its v w = Some e
      /\ how e = LoopThrow (ThrownBool true)
      /\ after_loop env e
         = mkRun (Returned [ mkMessage (warning ++ getUserFriendlyError env (ThrownBool true))
                               None None ])
                 ExitCaughtError v1 w1 (S n) (its ++ [S n]).
Proof.
  intros env input model isNative fuel n its v v1 w w1 Hn Hab Hgen.
  rewrite while_loop_eq.
  apply Nat.ltb_lt in Hn. rewrite Hn, Hab. simpl negb. cbv iota.
  unfold body. rewrite Hgen.
  eexists. split; [ reflexivity | ]. split; reflexivity.
Qed.

Lemma aborted_generation_is_reported_as_error_witness :
  exists e,
    while_loop (script (Some "{}") (fun _ => stream_of ["Hello."])
                       (fun _ => OpenRouterStream (["Hel"; "lo"], None)) (Some 3))
               compatible_request "openai/gpt-4o" false 6 0 [] (vars0 compatible_request) world0
    = Some e
    /\ how e = LoopThrow (ThrownBool true)
    /\ after_loop (script (Some "{}") (fun _ => stream_of ["Hello."])
                          (fun _ => OpenRouterStream (["Hel"; "lo"], None)) (Some 3)) e
       = mkRun (Returned [ mkMessage (warning ++ "Something went wrong.") None None ])
               ExitCaughtError
               (set_final "Hel" (vars0 compatible_request))
               (mkWorld 3 0 1 0 [EvOpenRouterCall "openai/gpt-4o" "hi"] ["Hel"])
               1 [1].
Proof.
  apply (aborted_generation_is_reported_as_error
           (script (Some "{}") (fun _ => stream_of ["Hello."])
                   (fun _ => OpenRouterStream (["Hel"; "lo"], None)) (Some 3))
           compatible_request "openai/gpt-4o" false 5 0 []
           (vars0 compatible_request)
           (set_final "Hel" (vars0 compatible_request))
           world0
           (mkWorld 3 0 1 0 [EvOpenRouterCall "openai/gpt-4o" "hi"] ["Hel"])).
  - unfold MAX_LOOPS. lia.
  - reflexivity.
  - reflexivity.
Defined.

(** The whole request: the user stops a compatible-provider stream after its
    first delta, ["Hel"]; the reply is the warning message. *)
Example stop_on_compatible_provider :
  option_map (fun run => (texts (result run), exit run, streamed (world run)))
    (runAutonomousAgent stopped_after_first_delta compatible_request 6)
  = Some ([warning ++ "Something went wrong."], ExitCaughtError, ["Hel"]).
Proof. vm_compute. reflexivity. Qed.

(** ** The action router *)

Lemma nonEmpty_app :
  forall a b, Js.nonEmpty (a ++ b) = Js.nonEmpty a || Js.nonEmpty b.
Proof. intros [ | c a ] b; reflexivity. Qed.

Lemma aggregate_from_nonEmpty :
  forall results acc,
    Js.nonEmpty acc = true ->
    Js.nonEmpty (fold_left (fun acc res => acc ++ toString (title res) ++ ": "
                                            ++ toString (snippet res) ++ Js.nl) results acc) = true.
Proof.
  induction results as [ | r results IH ]; intros acc Hacc; simpl.
  - exact Hacc.
  - apply IH. rewrite nonEmpty_app, Hacc. reflexivity.
Qed.

Lemma aggregate_nonEmpty :
  forall r results, Js.nonEmpty (aggregate (r :: results)) = true.
Proof.
  intros r results. unfold aggregate. cbn [fold_left].
  apply aggregate_from_nonEmpty.
  rewrite !nonEmpty_app. cbn [Js.nonEmpty]. rewrite !orb_true_r. reflexivity.
Qed.

Lemma queries_need_matches :
  forall generated query rest,
    queries generated = query :: rest ->
    exists m ms, searchMatches generated = m :: ms.
Proof.
  intros generated query rest H. unfold queries in H.
  destruct (searchMatches generated) as [ | m ms ]; [ discriminate | eauto ].
Qed.

(** Reactive search escalation: a search tag with a query, whatever else the
    generation holds, makes the router search and continue. *)
Lemma dispatch_escalates :
  forall env input mss generated v w query rest,
    queries generated = query :: rest ->
    exists v' w' more results,
      dispatch env input mss generated v w = StepContinue v' w'
      /\ currentAction v' = SIMPLE
      /\ Js.nonEmpty (fallbackSearchContext v') = true
      /\ finalResponseText v' = finalResponseText v
      /\ searchCalls w' = S (searchCalls w)
      /\ trace w' = (trace w ++ map EvSearch (PrimaryCall query 15 :: more))%list
      /\ fst (do_search env query w) = Returned results
      /\ fallbackSearchContext v'
         = match results with
           | [] => no_results_context query
           | _ :: _ => aggregate results
           end
      /\ currentPrompt v'
         = match results with
           | [] => synthesis_without_results (prompt input) query
           | _ :: _ => synthesis_with_results (prompt input) query (aggregate results)
           end.
Proof.
  intros env input mss generated v w query rest Hq.
  destruct (queries_need_matches generated query rest Hq) as (m & ms & Hm).
  unfold dispatch. rewrite Hm, Hq, accepted_with_tag.
  destruct (do_search_spec env query w) as (results & more & Hres & Htr & Hcalls & _).
  destruct (do_search env query w) as [r w1]. cbn [fst snd] in Hres, Htr, Hcalls. subst r.
  destruct results as [ | r results ].
  - exists (set_action SIMPLE
              (set_prompt (synthesis_without_results (prompt input) query)
                 (set_fallback (no_results_context query) v))), w1, more, [].
    repeat split; assumption.
  - eexists _, w1, more, (r :: results). split; [ reflexivity | ].
    repeat split; try assumption.
    simpl. apply aggregate_nonEmpty.
Qed.

(** C5, as the code has it.  If an iteration's output holds a search tag
    with a non-empty query, then, whether or not a fallback search context
    exists, the router runs the search for the first such query, stores a
    fallback search context, sets the action to [SIMPLE] with a synthesis
    prompt and continues: unless the loop bound or a cancellation stops it,
    generation is invoked again, on the synthesis prompt.  The prompt is the
    one for the results found, or the one for no results. *)
Theorem search_tag_escalates :
  forall (env : Env) (input : AgentInput) (model : string) (isNative : bool)
         (generated : string) (v0 v : Vars) (w0 w : World) (query : string) (rest : list string),
    generate env input model isNative v0 w0 = (Returned generated, v, w) ->
    queries generated = query :: rest ->
    exists v' w' more results,
      body env input model isNative v0 w0 = StepContinue v' w'
      /\ currentAction v' = SIMPLE
      /\ Js.nonEmpty (fallbackSearchContext v') = true
      /\ finalResponseText v' = finalResponseText v
      /\ trace w' = (trace w ++ map EvSearch (PrimaryCall query 15 :: more))%list
      /\ fst (do_search env query w) = Returned results
      /\ fallbackSearchContext v'
         = match results with
           | [] => no_results_context query
           | _ :: _ => aggregate results
           end
      /\ currentPrompt v'
         = match results with
           | [] => synthesis_without_results (prompt input) query
           | _ :: _ => synthesis_with_results (prompt input) query (aggregate results)
           end
      /\ forall fuel n its,
           n < MAX_LOOPS -> aborted env w0 = false ->
           while_loop env input model isNative (S fuel) n its v0 w0
           = while_loop env input model isNative fuel (S n) (its ++ [S n]) v' w'.
Proof.
  intros env input model isNative generated v0 v w0 w query rest Hgen Hq.
  destruct (dispatch_escalates env input (isNative || Js.includes model "perplexity")
              generated v w query rest Hq)
    as (v' & w' & more & results & Hd & Ha & Hf & Ht & _ & Htr & Hres & Hctx & Hprompt).
  assert (Hbody : body env input model isNative v0 w0 = StepContinue v' w').
  { unfold body. rewrite Hgen. exact Hd. }
  exists v', w', more, results. repeat split; try assumption.
  intros fuel n its Hn Hab.
  rewrite (while_loop_eq env input model isNative (S fuel)).
  apply Nat.ltb_lt in Hn. rewrite Hn, Hab, Hbody. reflexivity.
Qed.

Lemma search_tag_escalates_witness :
  exists v' w' more,
    body (script (Some "{}") (fun _ => stream_of ["<SEARCH>cats</SEARCH>"])
                 (fun _ => OpenRouterStream ([], None)) None)
         (request "tell me about cats" None fast no_profile) flash true
         (vars0 (request "tell me about cats" None fast no_profile)) world0
    = StepContinue v' w'
    /\ currentAction v' = SIMPLE
    /\ Js.nonEmpty (fallbackSearchContext v') = true
    /\ trace w' = ([EvNativeCall flash "tell me about cats"]
                   ++ map EvSearch (PrimaryCall "cats" 15 :: more))%list
    /\ currentPrompt v' = synthesis_without_results "tell me about cats" "cats".
Proof.
  destruct (search_tag_escalates
              (script (Some "{}") (fun _ => stream_of ["<SEARCH>cats</SEARCH>"])
                      (fun _ => OpenRouterStream ([], None)) None)
              (request "tell me about cats" None fast no_profile) flash true
              "<SEARCH>cats</SEARCH>"
              (vars0 (request "tell me about cats" None fast no_profile))
              (set_final "<SEARCH>cats</SEARCH>"
                 (vars0 (request "tell me about cats" None fast no_profile)))
              world0
              (mkWorld 2 1 0 0 [EvNativeCall flash "tell me about cats"] ["<SEARCH>cats</SEARCH>"])
              "cats" [] eq_refl eq_refl)
    as (v' & w' & more & results & H1 & H2 & H3 & _ & H5 & H6 & _ & H8 & _).
  exists v', w', more. repeat split; try assumption.
  rewrite H8. vm_compute in H6. injection H6 as <-. reflexivity.
Defined.

(** C5 as stated fails: the generation's only actionable content is one
    search tag, no fallback search context exists, and yet the loop goes on:
    both search providers are called and generation is invoked a second time,
    with a synthesis prompt. *)
Lemma lone_search_tag_reinvokes_generation :
  searchMatches "<SEARCH>cats</SEARCH>" = ["cats"]
  /\ option_map (fun run => (texts (result run), exit run, iterations run,
                             length (generation_calls (trace (world run))),
                             searchCalls (world run)))
       (runAutonomousAgent
          (script (Some "{}")
                  (fun n => match n with
                            | 0 => stream_of ["<SEARCH>cats</SEARCH>"]
                            | _ => stream_of ["Cats purr."]
                            end)
                  (fun _ => OpenRouterStream ([], None)) None)
          (request "tell me about cats" None fast no_profile) 6)
     = Some (["<SEARCH>cats</SEARCH>Cats purr."], ExitReturn, [1; 2], 2, 1).
Proof. split; vm_compute; reflexivity. Qed.

(** C6, as the code has it.  When an iteration's output holds a canvas tag,
    in any of the accepted spellings, with content, and no rule of higher
    priority applies (no search tag with a query, no deep-reasoning, image or
    project tag with content, and not a single search tag without fallback
    context), the accumulated text is reset to empty, the trimmed content is
    handed to the canvas collaborator, its result is returned as it is, and
    the loop is left on that very pass. *)
Theorem canvas_handoff :
  forall (env : Env) (input : AgentInput) (model : string) (isNative : bool)
         (generated : string) (v0 v : Vars) (w0 w : World) (c : string)
         (canvasResult : AgentExecutionResult),
    generate env input model isNative v0 w0 = (Returned generated, v, w) ->
    queries generated = [] ->
    capture (Js.match_tag "<DEEP>" "</DEEP>" generated) = None ->
    (length (searchMatches generated) =? 1) && negb (Js.nonEmpty (fallbackSearchContext v)) = false ->
    capture (Js.match_tag "<IMAGE>" "</IMAGE>" generated) = None ->
    capture (Js.match_tag "<PROJECT>" "</PROJECT>" generated) = None ->
    capture (canvasMatch generated) = Some c ->
    runCanvasAgent env (Js.trim c) = Returned canvasResult ->
    exists v' w',
      body env input model isNative v0 w0 = StepCanvas canvasResult v' w'
      /\ finalResponseText v' = ""
      /\ currentAction v' = CANVAS
      /\ currentPrompt v' = Js.trim c
      /\ trace w' = (trace w ++ [EvCanvas (Js.trim c)])%list
      /\ forall fuel n its,
           n < MAX_LOOPS -> aborted env w0 = false ->
           exists e,
             while_loop env input model isNative (S fuel) n its v0 w0 = Some e
             /\ end_loopCount e = S n
             /\ result (after_loop env e) = Returned canvasResult
             /\ exit (after_loop env e) = ExitCanvas
             /\ finalResponseText (vars (after_loop env e)) = "".
Proof.
  intros env input model isNative generated v0 v w0 w c canvasResult
         Hgen Hq Hdeep Hsingle Himage Hproject Hcanvas Hagent.
  assert (Hbody : body env input model isNative v0 w0
                  = StepCanvas canvasResult
                      (set_prompt (Js.trim c) (set_action CANVAS (set_final "" v)))
                      (tick (emit (EvCanvas (Js.trim c)) w))).
  { unfold body. rewrite Hgen. unfold dispatch. rewrite Hq.
    assert (Hroute : route_tags env generated v w
                     = StepCanvas canvasResult
                         (set_prompt (Js.trim c) (set_action CANVAS (set_final "" v)))
                         (tick (emit (EvCanvas (Js.trim c)) w))).
    { unfold route_tags. rewrite Hdeep, Hsingle, Himage, Hproject, Hcanvas, Hagent. reflexivity. }
    destruct (searchMatches generated); exact Hroute. }
  eexists _, _. split; [ exact Hbody | ].
  repeat split.
  intros fuel n its Hn Hab.
  rewrite while_loop_eq.
  apply Nat.ltb_lt in Hn. rewrite Hn, Hab, Hbody. simpl.
  eexists. split; [ reflexivity | ]. repeat split.
Qed.

Lemma canvas_handoff_witness :
  exists v' w',
    body (script (Some "{}") (fun _ => stream_of ["Sure! "; "<CANVAS> todo app </CANVAS>"; "unread"])
                 (fun _ => OpenRouterStream ([], None)) None)
         (request "build" None fast no_profile) flash true
         (vars0 (request "build" None fast no_profile)) world0
    = StepCanvas [ mkMessage "canvas built: todo app" None None ] v' w'
    /\ finalResponseText v' = ""
    /\ currentPrompt v' = "todo app".
Proof.
  destruct (canvas_handoff
              (script (Some "{}") (fun _ => stream_of ["Sure! "; "<CANVAS> todo app </CANVAS>"; "unread"])
                      (fun _ => OpenRouterStream ([], None)) None)
              (request "build" None fast no_profile) flash true
              "Sure! <CANVAS> todo app </CANVAS>"
              (vars0 (request "build" None fast no_profile))
              (set_final "Sure! <CANVAS> todo app </CANVAS>" (vars0 (request "build" None fast no_profile)))
              world0
              (mkWorld 3 1 0 0 [EvNativeCall flash "build"] ["Sure! "; "<CANVAS> todo app </CANVAS>"])
              " todo app "
              [ mkMessage "canvas built: todo app" None None ]
              eq_refl eq_refl eq_refl eq_refl eq_refl eq_refl eq_refl eq_refl)
    as (v' & w' & H1 & H2 & _ & H4 & _).
  exists v', w'. repeat split; assumption.
Defined.

(** C6 as stated fails: the output holds a canvas tag, but a deep-reasoning
    tag comes first in priority; nothing is handed to the canvas collaborator,
    the accumulated text is kept, and a second generation runs. *)
Lemma canvas_tag_outranked_by_deep_tag :
  canvasMatch "<DEEP>plan</DEEP><CANVAS>todo app</CANVAS>" = Some ("todo app", "")
  /\ option_map (fun run => (texts (result run), exit run, iterations run, trace (world run)))
       (runAutonomousAgent
          (script (Some "{}")
                  (fun n => match n with
                            | 0 => stream_of ["<DEEP>plan</DEEP><CANVAS>todo app</CANVAS>"]
                            | _ => stream_of ["Done."]
                            end)
                  (fun _ => OpenRouterStream ([], None)) None)
          (request "build" None fast no_profile) 6)
     = Some (["<DEEP>plan</DEEP><CANVAS>todo app</CANVAS>Done."], ExitReturn, [1; 2],
             [EvMemoryFetch; EvRoute; EvNativeCall flash "build"; EvNativeCall flash "plan"]).
Proof. split; vm_compute; reflexivity. Qed.

(** A canvas tag without content is not handed off either. *)
Example empty_canvas_tag_is_plain_text :
  option_map (fun run => (texts (result run), exit run))
    (runAutonomousAgent (script (Some "{}") (fun _ => stream_of ["<CANVAS></CANVAS>"])
                                (fun _ => OpenRouterStream ([], None)) None)
                        (request "build" None fast no_profile) 6)
  = Some (["<CANVAS></CANVAS>"], ExitReturn).
Proof. vm_compute. reflexivity. Qed.

(** ** The session guard *)

Section GuardFacts.
Import SessionGuard.

Lemma update_last :
  forall (old : list Request) (r : Request) (f : Request -> Request),
    update (length old) f (old ++ [r]) = (old ++ [f r])%list.
Proof.
  induction old as [ | r0 old IH ]; intros r f; cbn [length app update].
  - reflexivity.
  - rewrite IH. reflexivity.
Qed.

Lemma nth_error_last :
  forall (old : list Request) (r : Request), nth_error (old ++ [r]) (length old) = Some r.
Proof.
  induction old as [ | r0 old IH ]; intros r; cbn [length app nth_error].
  - reflexivity.
  - apply IH.
Qed.

Lemma at_rest_spec :
  forall r, at_rest r = true -> settled r = true /\ safetyTimeout r = None.
Proof.
  intros r H. unfold at_rest in H. apply andb_prop in H. destruct H as [Hs Ht].
  split; [ exact Hs | ]. destruct (safetyTimeout r); [ discriminate | reflexivity ].
Qed.

(** The calls before the newest one are over, and there is none after it. *)
Lemma other_requests :
  forall (old : list Request) (r : Request) (i : nat),
    Forall (fun r' => at_rest r' = true) old ->
    i <> length old ->
    nth_error (old ++ [r]) i = None
    \/ exists r', nth_error (old ++ [r]) i = Some r' /\ at_rest r' = true.
Proof.
  intros old r i Hold Hi.
  destruct (Nat.lt_ge_cases i (length old)) as [Hlt | Hge].
  - right. rewrite nth_error_app1 by exact Hlt.
    destruct (nth_error old i) as [r' | ] eqn:E.
    + exists r'. split; [ reflexivity | ].
      rewrite Forall_forall in Hold. apply Hold. eapply nth_error_In. exact E.
    + apply nth_error_None in E. lia.
  - left. apply nth_error_None. rewrite length_app. cbn [length]. lia.
Qed.

Lemma others_do_nothing :
  forall (g : Guard) (old : list Request) (r : Request) (i : nat) (k : Request -> Guard),
    requests g = (old ++ [r])%list ->
    Forall (fun r' => at_rest r' = true) old ->
    i <> length old ->
    while_running i g k = g.
Proof.
  intros g old r i k Hreq Hold Hi. unfold while_running, request_at. rewrite Hreq.
  destruct (other_requests old r i Hold Hi) as [-> | (r' & -> & Hr')]; [ reflexivity | ].
  destruct (at_rest_spec r' Hr') as [-> _]. reflexivity.
Qed.

Lemma fire_not_due :
  forall (g : Guard) (i : nat),
    (forall r due, request_at i g = Some r -> safetyTimeout r = Some due -> (now g < due)%Z) ->
    fire i g = g.
Proof.
  intros g i H. unfold fire.
  destruct (request_at i g) as [r | ]; [ | reflexivity ].
  destruct (safetyTimeout r) as [due | ] eqn:E; [ | reflexivity ].
  specialize (H r due eq_refl E).
  destruct (Z.leb_spec due (now g)); [ lia | reflexivity ].
Qed.

Lemma fire_none_due :
  forall (ids : list nat) (g : Guard),
    (forall i r due, In i ids -> request_at i g = Some r -> safetyTimeout r = Some due ->
                     (now g < due)%Z) ->
    fold_left (fun g' id => fire id g') ids g = g.
Proof.
  induction ids as [ | i ids IH ]; intros g H; cbn [fold_left].
  - reflexivity.
  - rewrite fire_not_due.
    + apply IH. intros i' r due Hin. apply H. right. exact Hin.
    + intros r due. apply H. left. reflexivity.
Qed.

Lemma elapsed_app :
  forall evs evs', elapsed (evs ++ evs') = (elapsed evs + elapsed evs')%Z.
Proof.
  induction evs as [ | ev evs IH ]; intros evs'; cbn [app elapsed fold_right].
  - reflexivity.
  - fold (elapsed (evs ++ evs')). fold (elapsed evs). rewrite IH.
    destruct ev; lia.
Qed.

Lemma elapsed_nonneg :
  forall id evs, Forall (fun ev => waiting id ev = true) evs -> (0 <= elapsed evs)%Z.
Proof.
  intros id evs H. induction H as [ | ev evs Hev _ IH ]; cbn [elapsed fold_right].
  - lia.
  - fold (elapsed evs). destruct ev; try exact IH.
    cbn [waiting] in Hev. apply Z.leb_le in Hev. lia.
Qed.

(** While it waits, the newest request stays as it is. *)
Lemma armed_step :
  forall (old : list Request) (chat : string) (due : Z) (g : Guard) (ev : GuardEvent),
    armed old chat due g ->
    waiting (length old) ev = true ->
    (now g + elapsed [ev] < due)%Z ->
    armed old chat due (step g ev)
    /\ toasts (step g ev) = toasts g
    /\ now (step g ev) = (now g + elapsed [ev])%Z.
Proof.
  intros old chat due g ev (Hflag & Hreq & Hold & Hnow) Hev Hlt.
  assert (Hkeep : armed old chat due g /\ toasts g = toasts g /\ now g = (now g + 0)%Z).
  { unfold armed. repeat split; auto. lia. }
  assert (Hother : forall i k, Nat.eqb i (length old) = false -> while_running i g k = g).
  { intros i k Hi. apply (others_do_nothing g old _ i k Hreq Hold).
    apply Nat.eqb_neq. exact Hi. }
  assert (Hown : forall k, while_running (length old) g k = k (mkRequest chat false (Some due) false)).
  { intros k. unfold while_running, request_at. rewrite Hreq, nth_error_last. reflexivity. }
  assert (Hcase : forall i k,
            (armed old chat due (k (mkRequest chat false (Some due) false))
             /\ toasts (k (mkRequest chat false (Some due) false)) = toasts g
             /\ now (k (mkRequest chat false (Some due) false)) = (now g + 0)%Z) ->
            armed old chat due (while_running i g k)
            /\ toasts (while_running i g k) = toasts g
            /\ now (while_running i g k) = (now g + 0)%Z).
  { intros i k Hk. destruct (Nat.eqb i (length old)) eqn:Hi.
    - apply Nat.eqb_eq in Hi. subst i. rewrite Hown. exact Hk.
    - rewrite (Hother i k Hi). exact Hkeep. }
  destruct ev as [sendable c | ms | | c | | | busy | i chunk | i | i | i | i | i | i name message];
    cbn [waiting] in Hev; cbn [elapsed fold_right] in Hlt |- *; cbn [step];
    try discriminate;
    try (apply negb_true_iff in Hev; rewrite (Hother _ _ Hev); exact Hkeep).
  - unfold handleSendMessage_begin. rewrite Hflag.
    destruct sendable; cbn [negb]; exact Hkeep.
  - apply Z.leb_le in Hev. unfold fire_due. cbn [set_now requests].
    rewrite fire_none_due.
    + unfold armed. cbn [set_now isSendingRef requests now toasts].
      repeat split; auto; lia.
    + intros i r d _ Hr Hd. unfold request_at in Hr. cbn [set_now requests now] in *.
      rewrite Hreq in Hr.
      destruct (Nat.eq_dec i (length old)) as [-> | Hi].
      * rewrite nth_error_last in Hr. injection Hr as <-. cbn [safetyTimeout] in Hd.
        injection Hd as <-. lia.
      * destruct (other_requests old (mkRequest chat false (Some due) false) i Hold Hi)
          as [E | (r' & E & Hr')]; rewrite E in Hr; [ discriminate | ].
        injection Hr as <-. destruct (at_rest_spec r' Hr') as [_ Ht].
        rewrite Ht in Hd. discriminate.
  - unfold selectChat, armed.
    destruct c as [c | ]; [ destruct (previousChatIdRef g) as [p | ];
                            [ destruct (String.eqb c p) | ] | ];
      cbn; repeat split; auto; lia.
  - unfold armed. cbn [set_isMounted isSendingRef requests now toasts].
    repeat split; auto; lia.
  - unfold armed. cbn [set_isMounted isSendingRef requests now toasts].
    repeat split; auto; lia.
  - unfold armed. cbn [setIsLoading isSendingRef requests now toasts].
    repeat split; auto; lia.
  - apply Hcase. unfold onFileUpdate.
    destruct (same_chat g (mkRequest chat false (Some due) false));
      unfold armed; cbn [setAiStatus isSendingRef requests now toasts]; repeat split; auto; lia.
  - apply Hcase. cbn [signal_aborted]. exact Hkeep.
  - apply Hcase.
    destruct (isMounted g && same_chat g (mkRequest chat false (Some due) false));
      unfold armed; cbn [setAiStatus isSendingRef requests now toasts]; repeat split; auto; lia.
Qed.

Lemma armed_run :
  forall (old : list Request) (chat : string) (due : Z) (evs : list GuardEvent) (g : Guard),
    armed old chat due g ->
    Forall (fun ev => waiting (length old) ev = true) evs ->
    (now g + elapsed evs < due)%Z ->
    armed old chat due (run g evs)
    /\ toasts (run g evs) = toasts g
    /\ now (run g evs) = (now g + elapsed evs)%Z.
Proof.
  intros old chat due evs. unfold run.
  induction evs as [ | ev evs IH ]; intros g Harmed Hevs Hlt; cbn [fold_left].
  - cbn [elapsed fold_right]. rewrite Z.add_0_r. auto.
  - inversion Hevs as [ | ? ? Hev Hrest ]; subst.
    pose proof (elapsed_nonneg _ _ Hrest) as Hpos.
    change (ev :: evs) with ([ev] ++ evs)%list in Hlt |- *. rewrite elapsed_app in Hlt |- *.
    destruct (armed_step old chat due g ev Harmed Hev) as (Ha & Ht & Hn); [ lia | ].
    destruct (IH (step g ev) Ha Hrest) as (Ha' & Ht' & Hn'); [ lia | ].
    split; [ exact Ha' | ]. split; [ congruence | lia ].
Qed.

Lemma callback_cancels :
  forall (old : list Request) (chat : string) (g : Guard),
    isSendingRef g = true ->
    requests g = (old ++ [ mkRequest chat false None false ])%list ->
    safetyTimeout_callback (length old) g
    = addToast "Response timed out. The operation took too long." "error"
        (if isMounted g
         then setAiStatus error (setSending false
                (set_isSendingRef false
                   (set_requests (old ++ [ mkRequest chat true None false ]) g)))
         else set_isSendingRef false
                (set_requests (old ++ [ mkRequest chat true None false ]) g)).
Proof.
  intros old chat g Hflag Hreq.
  unfold safetyTimeout_callback, request_at, on_request.
  rewrite Hreq, nth_error_last, Hflag, update_last.
  cbn [signal_aborted negb andb abort targetChatId safetyTimeout settled].
  reflexivity.
Qed.

Lemma fire_cancels :
  forall (old : list Request) (chat : string) (due : Z) (g : Guard),
    isSendingRef g = true ->
    requests g = (old ++ [ mkRequest chat false (Some due) false ])%list ->
    (due <= now g)%Z ->
    fire (length old) g
    = addToast "Response timed out. The operation took too long." "error"
        (if isMounted g
         then setAiStatus error (setSending false
                (set_isSendingRef false
                   (set_requests (old ++ [ mkRequest chat true None false ]) g)))
         else set_isSendingRef false
                (set_requests (old ++ [ mkRequest chat true None false ]) g)).
Proof.
  intros old chat due g Hflag Hreq Hdue.
  unfold fire, request_at. rewrite Hreq, nth_error_last. cbn [safetyTimeout].
  apply Z.leb_le in Hdue. rewrite Hdue.
  unfold on_request. rewrite Hreq, update_last.
  unfold clearTimeout. cbn [targetChatId signal_aborted settled].
  rewrite (callback_cancels old chat
             (set_requests (old ++ [ mkRequest chat false None false ]) g) Hflag eq_refl).
  destruct (isMounted g) eqn:Hm; cbn [set_requests isMounted]; rewrite Hm; reflexivity.
Qed.

(** The timer of the newest request, still waiting, comes due. *)
Lemma armed_fires :
  forall (old : list Request) (chat : string) (due : Z) (g : Guard) (ms : Z),
    armed old chat due g ->
    (due <= now g + ms)%Z ->
    requests (step g (Elapse ms)) = (old ++ [ mkRequest chat true None false ])%list
    /\ isSendingRef (step g (Elapse ms)) = false
    /\ toasts (step g (Elapse ms)) = (toasts g ++ [ timeout_toast ])%list
    /\ isMounted (step g (Elapse ms)) = isMounted g
    /\ (isMounted g = true ->
        aiStatus (step g (Elapse ms)) = error
        /\ isSending (step g (Elapse ms)) = false
        /\ isLoading (step g (Elapse ms)) = false).
Proof.
  intros old chat due g ms (Hflag & Hreq & Hold & Hnow) Hdue.
  assert (Hstep : step g (Elapse ms)
                  = fire (length old) (set_now (now g + ms)%Z g)).
  { cbn [step]. unfold fire_due. cbn [set_now requests].
    rewrite Hreq, length_app. cbn [length]. rewrite seq_app, fold_left_app.
    cbn [seq fold_left Nat.add].
    rewrite fire_none_due; [ reflexivity | ].
    intros i r d Hin Hr Hd. apply in_seq in Hin. unfold request_at in Hr.
    cbn [set_now requests] in Hr. rewrite Hreq in Hr.
    rewrite nth_error_app1 in Hr by lia.
    assert (Hrest : at_rest r = true).
    { rewrite Forall_forall in Hold. apply Hold. eapply nth_error_In. exact Hr. }
    destruct (at_rest_spec r Hrest) as [_ Ht]. rewrite Ht in Hd. discriminate. }
  rewrite Hstep.
  rewrite (fire_cancels old chat due (set_now (now g + ms)%Z g) Hflag Hreq Hdue).
  cbn [set_now isMounted].
  destruct (isMounted g) eqn:Hm.
  - split; [ reflexivity | ]. split; [ reflexivity | ]. split; [ reflexivity | ].
    split; [ exact Hm | ]. intros _. split; [ reflexivity | ]. split; reflexivity.
  - split; [ reflexivity | ]. split; [ reflexivity | ]. split; [ reflexivity | ].
    split; [ exact Hm | ]. intros H. discriminate H.
Qed.

(** The first chunk of the newest request clears its timer. *)
Lemma armed_chunk :
  forall (old : list Request) (chat : string) (due : Z) (g : Guard) (chunk : string),
    armed old chat due g ->
    requests (step g (StreamChunk (length old) chunk))
    = (old ++ [ mkRequest chat false None false ])%list
    /\ isSendingRef (step g (StreamChunk (length old) chunk)) = true
    /\ toasts (step g (StreamChunk (length old) chunk)) = toasts g.
Proof.
  intros old chat due g chunk (Hflag & Hreq & Hold & Hnow).
  cbn [step]. unfold while_running, request_at. rewrite Hreq, nth_error_last.
  cbn [settled]. unfold onStreamChunk, on_request. cbn [signal_aborted].
  rewrite Hreq, update_last. unfold clearTimeout. cbn [targetChatId signal_aborted settled].
  destruct (same_chat _ _); [ destruct (chunk_status chunk) | ];
    cbn [setAiStatus set_requests isSendingRef requests toasts]; auto.
Qed.

Lemma begin_arms :
  forall (g0 g : Guard) (chat : string),
    handleSendMessage_begin true chat g0 = Some g ->
    Forall (fun r => at_rest r = true) (requests g0) ->
    armed (requests g0) chat (now g0 + SAFETY_TIMEOUT_MS)%Z g
    /\ now g = now g0 /\ toasts g = toasts g0.
Proof.
  intros g0 g chat H Hold. unfold handleSendMessage_begin in H. cbn [negb] in H.
  destruct (isSendingRef g0); [ discriminate | ].
  injection H as <-. unfold armed, SAFETY_TIMEOUT_MS. cbn. repeat split; auto. lia.
Qed.

End GuardFacts.

(** C8, as the code has it.  A send accepted while no earlier call is still
    running installs a timer of 300000 ms.  As long as no chunk of the
    request is streamed, the user does not stop and the call does not end,
    the request stays in flight, whatever else happens; a first chunk then
    clears the timer; without one, when the 300000 ms have passed, the timer
    cancels the request, lowers the guard and reports "Response timed out.
    The operation took too long." as an error. *)
Theorem safety_timeout_fires :
  forall (g0 g : SessionGuard.Guard) (chat : string)
         (evs : list SessionGuard.GuardEvent) (ms : Z),
    SessionGuard.handleSendMessage_begin true chat g0 = Some g ->
    Forall (fun r => SessionGuard.at_rest r = true) (SessionGuard.requests g0) ->
    Forall (fun ev => SessionGuard.waiting (length (SessionGuard.requests g0)) ev = true) evs ->
    (SessionGuard.elapsed evs < 300000 <= SessionGuard.elapsed evs + ms)%Z ->
    SessionGuard.SAFETY_TIMEOUT_MS = 300000%Z
    /\ SessionGuard.request_at (length (SessionGuard.requests g0)) g
       = Some (SessionGuard.mkRequest chat false (Some (SessionGuard.now g0 + 300000)%Z) false)
    /\ (SessionGuard.isSendingRef (SessionGuard.run g evs) = true
        /\ SessionGuard.request_at (length (SessionGuard.requests g0)) (SessionGuard.run g evs)
           = Some (SessionGuard.mkRequest chat false (Some (SessionGuard.now g0 + 300000)%Z) false)
        /\ SessionGuard.toasts (SessionGuard.run g evs) = SessionGuard.toasts g0)
    /\ (forall chunk,
          SessionGuard.request_at (length (SessionGuard.requests g0))
            (SessionGuard.run g (evs ++ [SessionGuard.StreamChunk (length (SessionGuard.requests g0)) chunk]))
          = Some (SessionGuard.mkRequest chat false None false))
    /\ (SessionGuard.request_at (length (SessionGuard.requests g0))
          (SessionGuard.run g (evs ++ [SessionGuard.Elapse ms]))
        = Some (SessionGuard.mkRequest chat true None false)
        /\ SessionGuard.isSendingRef (SessionGuard.run g (evs ++ [SessionGuard.Elapse ms])) = false
        /\ SessionGuard.toasts (SessionGuard.run g (evs ++ [SessionGuard.Elapse ms]))
           = (SessionGuard.toasts g0 ++ [ SessionGuard.timeout_toast ])%list
        /\ SessionGuard.timed_out (length (SessionGuard.requests g0))
             (SessionGuard.run g (evs ++ [SessionGuard.Elapse ms])) = true
        /\ (SessionGuard.isMounted (SessionGuard.run g (evs ++ [SessionGuard.Elapse ms])) = true ->
            SessionGuard.aiStatus (SessionGuard.run g (evs ++ [SessionGuard.Elapse ms]))
            = SessionGuard.error
            /\ SessionGuard.isSending (SessionGuard.run g (evs ++ [SessionGuard.Elapse ms])) = false
            /\ SessionGuard.isLoading (SessionGuard.run g (evs ++ [SessionGuard.Elapse ms])) = false)).
Proof.
  intros g0 g chat evs ms Hbegin Hold Hevs Hsum.
  destruct (begin_arms g0 g chat Hbegin Hold) as (Harmed & Hnow & Htoasts).
  unfold SessionGuard.SAFETY_TIMEOUT_MS in Harmed.
  destruct (armed_run _ _ _ evs g Harmed Hevs) as (Ha & Ht & Hn); [ lia | ].
  assert (Hlast : forall (old : list SessionGuard.Request) r,
             nth_error (old ++ [r]) (length old) = Some r) by apply nth_error_last.
  split; [ reflexivity | ]. split; [ | split; [ | split ] ].
  - destruct Harmed as (_ & Hreq & _). unfold SessionGuard.request_at.
    rewrite Hreq. apply Hlast.
  - destruct Ha as (Hflag & Hreq & _). unfold SessionGuard.request_at.
    rewrite Hreq, Hlast. repeat split; [ exact Hflag | congruence ].
  - intros chunk. unfold SessionGuard.run. rewrite fold_left_app. cbn [fold_left].
    destruct (armed_chunk _ _ _ _ chunk Ha) as (Hreq & _).
    unfold SessionGuard.request_at. unfold SessionGuard.run in Hreq. rewrite Hreq. apply Hlast.
  - assert (Hrun : SessionGuard.run g (evs ++ [SessionGuard.Elapse ms])
                   = SessionGuard.step (SessionGuard.run g evs) (SessionGuard.Elapse ms)).
    { unfold SessionGuard.run. rewrite fold_left_app. reflexivity. }
    rewrite Hrun.
    destruct (armed_fires _ _ _ (SessionGuard.run g evs) ms Ha) as (Hreq & Hflag & Hto & Hm & Hui);
      [ lia | ].
    assert (Hr : SessionGuard.request_at (length (SessionGuard.requests g0))
                   (SessionGuard.step (SessionGuard.run g evs) (SessionGuard.Elapse ms))
                 = Some (SessionGuard.mkRequest chat true None false)).
    { unfold SessionGuard.request_at. rewrite Hreq. apply Hlast. }
    split; [ exact Hr | ]. split; [ exact Hflag | ].
    split; [ rewrite Hto; congruence | ]. split.
    + unfold SessionGuard.timed_out. rewrite Hr, Hto, existsb_app. cbn. apply orb_true_r.
    + intros Hmounted. apply Hui. rewrite <- Hm. exact Hmounted.
Qed.

Lemma safety_timeout_fires_witness :
  SessionGuard.timed_out 0
    (SessionGuard.run
       (SessionGuard.mkGuard 0 true (Some 0) true (Some "chat-1") None true true SessionGuard.thinking []
          [ SessionGuard.mkRequest "chat-1" false (Some 300000%Z) false ])
       ([ SessionGuard.Elapse 120000; SessionGuard.Send true "chat-2";
          SessionGuard.SelectChat (Some "chat-2"); SessionGuard.Elapse 120000 ]
        ++ [ SessionGuard.Elapse 60000 ])) = true.
Proof.
  destruct (safety_timeout_fires idle_guard
              (SessionGuard.mkGuard 0 true (Some 0) true (Some "chat-1") None true true
                 SessionGuard.thinking []
                 [ SessionGuard.mkRequest "chat-1" false (Some 300000%Z) false ])
              "chat-1"
              [ SessionGuard.Elapse 120000; SessionGuard.Send true "chat-2";
                SessionGuard.SelectChat (Some "chat-2"); SessionGuard.Elapse 120000 ]
              60000%Z eq_refl)
    as (_ & _ & _ & _ & _ & _ & _ & H & _).
  - constructor.
  - repeat constructor.
  - cbn. lia.
  - exact H.
Defined.

(** C8 as stated fails: a first chunk is streamed, the provider stack then
    never settles, and an hour later nothing has cancelled the request or
    reported a timeout: the chunk cleared the timer. *)
Lemma chunk_disarms_safety_timeout :
  exists g,
    SessionGuard.handleSendMessage_begin true "chat-1" idle_guard = Some g
    /\ SessionGuard.request_at 0 g
       = Some (SessionGuard.mkRequest "chat-1" false (Some 300000%Z) false)
    /\ SessionGuard.request_at 0 (SessionGuard.run g [SessionGuard.StreamChunk 0 "Hel"])
       = Some (SessionGuard.mkRequest "chat-1" false None false)
    /\ SessionGuard.request_at 0
         (SessionGuard.run g [SessionGuard.StreamChunk 0 "Hel"; SessionGuard.Elapse 3600000])
       = Some (SessionGuard.mkRequest "chat-1" false None false)
    /\ SessionGuard.isSendingRef
         (SessionGuard.run g [SessionGuard.StreamChunk 0 "Hel"; SessionGuard.Elapse 3600000]) = true
    /\ SessionGuard.timed_out 0
         (SessionGuard.run g [SessionGuard.StreamChunk 0 "Hel"; SessionGuard.Elapse 3600000]) = false
    /\ SessionGuard.toasts
         (SessionGuard.run g [SessionGuard.StreamChunk 0 "Hel"; SessionGuard.Elapse 3600000]) = [].
Proof. eexists. repeat split. Qed.

(** The guard flag is shared by all calls.  The user stops a first request
    and sends a second one; the first call then ends and its [finally] block
    lowers the flag of the second: five minutes later the second request,
    which has streamed nothing, is neither cancelled nor reported, and in the
    meantime a third send is accepted. *)
Example ended_call_lowers_the_flag_of_the_next :
  let g := SessionGuard.run idle_guard
             [ SessionGuard.Send true "chat-1"; SessionGuard.Stop;
               SessionGuard.Send true "chat-1"; SessionGuard.AgentReturned 0 ] in
  SessionGuard.request_at 1 g
  = Some (SessionGuard.mkRequest "chat-1" false (Some 300000%Z) false)
  /\ SessionGuard.isSendingRef g = false
  /\ SessionGuard.request_at 1 (SessionGuard.run g [SessionGuard.Elapse 300000])
     = Some (SessionGuard.mkRequest "chat-1" false None false)
  /\ SessionGuard.timed_out 1 (SessionGuard.run g [SessionGuard.Elapse 300000]) = false
  /\ exists g', SessionGuard.handleSendMessage_begin true "chat-1" g = Some g'.
Proof.
  cbv zeta. repeat split; try (vm_compute; reflexivity).
  eexists. vm_compute. reflexivity.
Qed.

(** ** Model resolution *)

Ltac trace_step :=
  unfold only_native_flash in *; simpl;
  rewrite ?Forall_app; repeat split; auto;
  repeat constructor; simpl; auto.

Lemma retry_loop_native_flash :
  forall env left attempt retries prompt w,
    only_native_flash w ->
    only_native_flash (snd (retry_loop env left attempt retries flash prompt w)).
Proof.
  intros env left.
  induction left as [ | left IH ]; intros attempt retries prompt w Hw; simpl.
  - exact Hw.
  - destruct (nativeReply env (nativeCalls w)) as [e | s]; simpl.
    + destruct (isNotFound e); simpl.
      * trace_step.
      * destruct (isQuotaError e && (attempt <? retries)); simpl.
        -- apply IH. trace_step.
        -- trace_step.
    + trace_step.
Qed.

Lemma consume_native_trace :
  forall env chunks failure generated v w,
    trace (snd (consume_native env chunks failure generated v w)) = trace w.
Proof.
  intros env chunks.
  induction chunks as [ | c chunks IH ]; intros failure generated v w; cbn [consume_native].
  - destruct failure; reflexivity.
  - destruct (aborted env (tick w)); [ reflexivity | ].
    destruct (Js.nonEmpty (chunk_text c)).
    + destruct (canvas_closed _); [ reflexivity | ]. rewrite IH. reflexivity.
    + rewrite IH. reflexivity.
Qed.

Lemma generate_native_flash :
  forall env input v w,
    only_native_flash w ->
    only_native_flash (snd (generate env input flash true v w)).
Proof.
  intros env input v w Hw.
  assert (Heq : generate env input flash true v w
                = match retry_loop env 4 0 3 flash (currentPrompt v) w with
                  | (Threw t, w1) => (Threw t, v, w1)
                  | (Returned (chunks, failure), w1) => consume_native env chunks failure "" v w1
                  end) by reflexivity.
  rewrite Heq.
  pose proof (retry_loop_native_flash env 4 0 3 (currentPrompt v) w Hw) as Hretry.
  destruct (retry_loop env 4 0 3 flash (currentPrompt v) w) as [[[chunks failure] | t] w1];
    cbn [snd] in Hretry |- *.
  - unfold only_native_flash. rewrite consume_native_trace. exact Hretry.
  - exact Hretry.
Qed.

Lemma route_tags_native_flash :
  forall env generated v w,
    only_native_flash w ->
    only_native_flash (step_world (route_tags env generated v w)).
Proof.
  intros env generated v w Hw. unfold route_tags.
  repeat match goal with
         | |- context [match ?x with _ => _ end] => destruct x; simpl; auto
         end; trace_step.
Qed.

Lemma dispatch_native_flash :
  forall env input mss generated v w,
    only_native_flash w ->
    only_native_flash (step_world (dispatch env input mss generated v w)).
Proof.
  intros env input mss generated v w Hw. unfold dispatch.
  destruct (searchMatches generated) as [ | m ms ];
    [ apply route_tags_native_flash; exact Hw | ].
  destruct (queries generated) as [ | query rest ];
    [ apply route_tags_native_flash; exact Hw | ].
  destruct (shouldUseExternalSearch query mss true);
    [ | apply route_tags_native_flash; exact Hw ].
  destruct (do_search_spec env query w) as (results & more & Hres & Htr & _).
  destruct (do_search env query w) as [r w1]. cbn [fst snd] in Hres, Htr. subst r.
  assert (Hw1 : only_native_flash w1).
  { unfold only_native_flash in *. rewrite Htr, Forall_app. split; [ exact Hw | ].
    apply Forall_forall. intros ev Hin. apply in_map_iff in Hin.
    destruct Hin as (c & <- & _). exact I. }
  destruct results; exact Hw1.
Qed.

Lemma body_native_flash :
  forall env input v w,
    only_native_flash w ->
    only_native_flash (step_world (body env input flash true v w)).
Proof.
  intros env input v w Hw. unfold body.
  pose proof (generate_native_flash env input v w Hw) as Hgen.
  destruct (generate env input flash true v w) as [[[generated | t] v1] w1]; simpl in Hgen.
  - apply dispatch_native_flash. exact Hgen.
  - exact Hgen.
Qed.

Lemma while_loop_native_flash :
  forall env input fuel n its v w e,
    only_native_flash w ->
    while_loop env input flash true fuel n its v w = Some e ->
    only_native_flash (end_world e).
Proof.
  intros env input fuel.
  induction fuel as [ | fuel IH ]; intros n its v w e Hw; rewrite while_loop_eq.
  - destruct (negb (n <? MAX_LOOPS)); [ intros [= <-]; exact Hw | ].
    destruct (aborted env w); [ intros [= <-]; exact Hw | discriminate ].
  - destruct (negb (n <? MAX_LOOPS)); [ intros [= <-]; exact Hw | ].
    destruct (aborted env w); [ intros [= <-]; exact Hw | ].
    pose proof (body_native_flash env input v w Hw) as Hbody.
    destruct (body env input flash true v w); simpl in Hbody.
    + apply IH. exact Hbody.
    + apply IH. exact Hbody.
    + intros [= <-]. exact Hbody.
    + intros [= <-]. exact Hbody.
    + intros [= <-]. exact Hbody.
Qed.

Lemma blank_substitutes_flash :
  forall m, blank m = true -> substituteDefault m = flash.
Proof.
  intros [m | ] H; [ | reflexivity ].
  unfold substituteDefault. rewrite H. reflexivity.
Qed.

Lemma classify_blank :
  forall input w,
    blank (model input) = true ->
    classify input w = (mkResolved flash true 0, w).
Proof.
  intros input w H. unfold classify.
  rewrite (blank_substitutes_flash _ H). reflexivity.
Qed.

Lemma resolve_blank :
  forall input w,
    blank (model input) = true ->
    thinkingMode input <> deep ->
    exists budget, resolveModel input w = (mkResolved flash true budget, w).
Proof.
  intros input w H Hmode. unfold resolveModel.
  rewrite (classify_blank input w H).
  unfold apply_thinkingMode.
  destruct (thinkingMode input); [ | | | congruence ]; eexists; reflexivity.
Qed.

(** C10, as the code has it.  Outside instant mode, a missing, empty or
    white-space-only model string is replaced by ['gemini-2.5-flash'] and
    classified as native, before the router and any provider is called.
    Unless the thinking mode is [deep], which installs its own model, that
    choice stands: every generation call of the request is a native call with
    ['gemini-2.5-flash'], and neither the compatible provider nor the free
    completion service is called. *)
Theorem blank_model_defaults_to_flash :
  forall (env : Env) (input : AgentInput) (fuel : nat) (w : World),
    blank (model input) = true ->
    thinkingMode input <> instant ->
    substituteDefault (model input) = flash
    /\ isGoogleModel (substituteDefault (model input)) = true
    /\ classify input w = (mkResolved flash true 0, w)
    /\ (thinkingMode input <> deep ->
        (exists budget, resolveModel input w = (mkResolved flash true budget, w))
        /\ forall run, runAutonomousAgent env input fuel = Some run ->
                       Forall native_flash (trace (world run))).
Proof.
  intros env input fuel w Hblank Hinstant.
  split; [ apply blank_substitutes_flash; exact Hblank | ].
  split; [ rewrite (blank_substitutes_flash _ Hblank); reflexivity | ].
  split; [ apply classify_blank; exact Hblank | ].
  intros Hdeep. split; [ apply resolve_blank; assumption | ].
  intros run. unfold runAutonomousAgent.
  assert (Hgoal :
    (let '(r, w1) := resolveModel input (tick (emit EvMemoryFetch world0)) in
     match routeReply env with
     | Threw t => Some (caught env t (vars0 input) (tick (emit EvRoute w1)) 0 [])
     | Returned action =>
         match preemptive_search env input (res_isNative r || Js.includes (res_model r) "perplexity")
                 (vars0 input) (tick (emit EvRoute w1)) with
         | (Threw t, v1, w3) => Some (caught env t v1 w3 0 [])
         | (Returned _, v1, w3) =>
             match Json.parse match memoryContext env with Some s => s | None => "" end with
             | Threw t => Some (caught env t v1 w3 0 [])
             | Returned _ =>
                 match while_loop env input (res_model r) (res_isNative r) fuel 0 []
                         (set_action action v1) w3 with
                 | None => None
                 | Some e => Some (after_loop env e)
                 end
             end
         end
     end) = Some run -> Forall native_flash (trace (world run))).
  { destruct (resolve_blank input (tick (emit EvMemoryFetch world0)) Hblank Hdeep)
      as [budget Hres].
    rewrite Hres. cbn [res_model res_isNative].
    assert (Hcaught : forall t v0 w0,
              only_native_flash w0 ->
              Some (caught env t v0 w0 0 []) = Some run -> Forall native_flash (trace (world run))).
    { intros t v0 w0 Hw0 [= <-].
      destruct (caught_counters env t v0 w0 0 []) as (_ & _ & _ & ->). exact Hw0. }
    destruct (routeReply env) as [action | t].
    2: { apply Hcaught. trace_step. }
    destruct (do_search_spec env (prompt input)
                (onStreamChunk ("<SEARCH>" ++ prompt input ++ "</SEARCH>")
                   (tick (emit EvRoute (tick (emit EvMemoryFetch world0))))))
      as (results & more & Hsr & Htr & _).
    assert (Hpre : forall o v1 w3,
              preemptive_search env input (true || Js.includes flash "perplexity")
                (vars0 input) (tick (emit EvRoute (tick (emit EvMemoryFetch world0))))
              = (o, v1, w3) -> only_native_flash w3).
    { unfold preemptive_search.
      destruct (shouldUseExternalSearch (prompt input) _ false).
      - destruct (do_search env (prompt input) _) as [r w2]. cbn [fst snd] in Hsr, Htr. subst r.
        assert (Hw2 : only_native_flash w2).
        { unfold only_native_flash. rewrite Htr, Forall_app. split; [ trace_step | ].
          apply Forall_forall. intros ev Hin. apply in_map_iff in Hin.
          destruct Hin as (c & <- & _). exact I. }
        destruct (is_admin (profile input)); destruct results; intros o v1 w3 [= <- <- <-];
          exact Hw2.
      - intros o v1 w3 [= <- <- <-]. trace_step. }
    destruct (preemptive_search env input _ _ _) as [[o v1] w3] eqn:Hp.
    pose proof (Hpre _ _ _ eq_refl) as Hw3.
    destruct o as [u | t]; [ | apply Hcaught; exact Hw3 ].
    destruct (Json.parse _) as [u' | t]; [ | apply Hcaught; exact Hw3 ].
    destruct (while_loop env input flash true fuel 0 [] (set_action action v1) w3) as [e | ] eqn:Hloop;
      [ | discriminate ].
    intros [= <-].
    destruct (after_loop_counters env e) as (_ & _ & _ & ->).
    exact (while_loop_native_flash env input fuel 0 [] _ w3 e Hw3 Hloop). }
  destruct (thinkingMode input); [ congruence | exact Hgoal | exact Hgoal | congruence ].
Qed.

Lemma blank_model_defaults_to_flash_witness :
  classify (request "hi" (Some "   ") fast no_profile) world0 = (mkResolved flash true 0, world0)
  /\ forall run,
       runAutonomousAgent (script (Some "{}") (fun _ => stream_of ["Hello."])
                                  (fun _ => OpenRouterStream ([], None)) None)
                          (request "hi" (Some "   ") fast no_profile) 6 = Some run ->
       Forall native_flash (trace (world run)).
Proof.
  destruct (blank_model_defaults_to_flash
              (script (Some "{}") (fun _ => stream_of ["Hello."])
                      (fun _ => OpenRouterStream ([], None)) None)
              (request "hi" (Some "   ") fast no_profile) 6 world0 eq_refl)
    as (_ & _ & H3 & H4).
  - discriminate.
  - split; [ exact H3 | ]. apply H4. discriminate.
Defined.

(** C10 as stated fails, twice.  In instant mode the model string is never
    looked at: the free completion service is called and the reply carries
    its model.  In deep mode the substituted default is replaced again by the
    preferred deep model, here one of the compatible provider, which is the
    one called. *)
Lemma blank_model_not_always_native_flash :
  blank None = true /\ blank (Some "  ") = true
  /\ option_map (fun run => (exit run, trace (world run),
                             match result run with
                             | Returned ms => map model_name ms
                             | Threw _ => []
                             end))
       (runAutonomousAgent (script (Some "{}") (fun _ => stream_of ["Hello."])
                                   (fun _ => OpenRouterStream (["Hi"], None)) None)
                           (request "hi" None instant no_profile) 6)
     = Some (ExitInstant, [EvMemoryFetch; EvFreeCompletion], [Some "Instant (Puter)"])
  /\ option_map (fun run => (exit run, trace (world run)))
       (runAutonomousAgent (script (Some "{}") (fun _ => stream_of ["Hello."])
                                   (fun _ => OpenRouterStream (["Hi"], None)) None)
                           (request "hi" (Some "  ") deep
                                    (mkProfile (Some "sk-or-key") (Some "anthropic/claude-3.5-sonnet") None))
                           6)
     = Some (ExitReturn,
             [EvMemoryFetch; EvRoute; EvOpenRouterCall "anthropic/claude-3.5-sonnet" "hi"]).
Proof. repeat split; vm_compute; reflexivity. Qed.

(** * Further properties of the code *)

Import Scenario2.

(** ** The retry ladder, case by case *)

Lemma retry_loop_stream :
  forall env left attempt retries model prompt w s,
    nativeReply env (nativeCalls w) = ApiStream s ->
    retry_loop env (S left) attempt retries model prompt w
    = (Returned s, tick (count_native (emit (EvNativeCall model prompt) w))).
Proof.
  intros env left attempt retries model prompt w s Hreply.
  cbn [retry_loop]. rewrite Hreply. reflexivity.
Qed.

Lemma retry_loop_other :
  forall env left attempt retries model prompt w e,
    nativeReply env (nativeCalls w) = ApiError e ->
    isNotFound e = false ->
    isQuotaError e = false ->
    retry_loop env (S left) attempt retries model prompt w
    = (Threw (ThrownError e), tick (count_native (emit (EvNativeCall model prompt) w))).
Proof.
  intros env left attempt retries model prompt w e Hreply Hnf Hq.
  cbn [retry_loop]. rewrite Hreply, Hnf, Hq. reflexivity.
Qed.

Lemma retry_loop_not_found_on_flash :
  forall env left attempt retries prompt w e,
    nativeReply env (nativeCalls w) = ApiError e ->
    isNotFound e = true ->
    retry_loop env (S left) attempt retries flash prompt w
    = (Threw (ThrownError e), after_not_found flash prompt w).
Proof.
  intros env left attempt retries prompt w e Hreply Hnf.
  cbn [retry_loop]. rewrite Hreply, Hnf, String.eqb_refl. reflexivity.
Qed.

Lemma retry_loop_not_found_swap :
  forall env left attempt retries model prompt w e,
    nativeReply env (nativeCalls w) = ApiError e ->
    isNotFound e = true ->
    String.eqb model flash = false ->
    retry_loop env (S left) attempt retries model prompt w
    = retry_loop env left (S attempt) retries flash prompt (after_not_found model prompt w).
Proof.
  intros env left attempt retries model prompt w e Hreply Hnf Hne.
  cbn [retry_loop]. rewrite Hreply, Hnf, Hne. reflexivity.
Qed.

Lemma after_not_found_spec :
  forall model prompt w,
    trace (after_not_found model prompt w) = (trace w ++ [EvNativeCall model prompt])%list
    /\ nativeCalls (after_not_found model prompt w) = S (nativeCalls w)
    /\ streamed (after_not_found model prompt w)
       = (streamed w ++ [ unavailable_notice model ])%list.
Proof. intros. repeat split. Qed.

Lemma ladder_nonEmpty :
  forall env model prompt retries w,
    Js.nonEmpty model = true ->
    generateContentStreamWithRetry env model prompt retries w
    = retry_loop env (S retries) 0 retries model prompt w.
Proof.
  intros env model prompt retries w H. unfold generateContentStreamWithRetry.
  rewrite H. reflexivity.
Qed.

(** X1.  A not-found/bad-request error on the designated fallback model
    itself is never retried: one call, the notice, and the error is thrown,
    whatever the retry budget. *)
Theorem fallback_model_not_found_is_terminal :
  forall (env : Env) (prompt : string) (retries : nat) (w : World) (e : JsError),
    nativeReply env (nativeCalls w) = ApiError e ->
    isNotFound e = true ->
    exists w',
      generateContentStreamWithRetry env flash prompt retries w = (Threw (ThrownError e), w')
      /\ native_models (trace w') = (native_models (trace w) ++ [flash])%list
      /\ nativeCalls w' = S (nativeCalls w)
      /\ sleeps (trace w') = sleeps (trace w)
      /\ streamed w'
         = (streamed w ++ [ "(Model gemini-2.5-flash unavailable. Falling back to Gemini 2.5 Flash...)" ])%list.
Proof.
  intros env prompt retries w e Hreply Hnf.
  exists (after_not_found flash prompt w).
  split.
  { rewrite ladder_nonEmpty by reflexivity.
    apply retry_loop_not_found_on_flash; assumption. }
  destruct (after_not_found_spec flash prompt w) as (T & N & S').
  rewrite T, N, S', native_models_app, sleeps_app.
  repeat split. cbn [sleeps flat_map app]. rewrite app_nil_r. reflexivity.
Qed.

Lemma fallback_model_not_found_is_terminal_witness :
  exists w',
    generateContentStreamWithRetry
      (script (Some "{}") (fun _ => ApiError not_found_error) (fun _ => OpenRouterStream ([], None)) None)
      flash "hi" 3 world0 = (Threw (ThrownError not_found_error), w')
    /\ nativeCalls w' = 1.
Proof.
  destruct (fallback_model_not_found_is_terminal
              (script (Some "{}") (fun _ => ApiError not_found_error)
                      (fun _ => OpenRouterStream ([], None)) None)
              "hi" 3 world0 not_found_error eq_refl eq_refl)
    as (w' & H1 & _ & H3 & _).
  exists w'. split; [ exact H1 | exact H3 ].
Defined.

(** X2.  A not-found/bad-request error on any other model swaps the call to
    the fallback model, announces it, and retries once: a stream from the
    fallback model is returned, and a second not-found error, now on the
    fallback model, is thrown after exactly these two calls. *)
Theorem unavailable_model_falls_back_once :
  forall (env : Env) (model prompt : string) (retries : nat) (w : World) (e : JsError),
    Js.nonEmpty model = true ->
    String.eqb model flash = false ->
    1 <= retries ->
    nativeReply env (nativeCalls w) = ApiError e ->
    isNotFound e = true ->
    (forall s, nativeReply env (S (nativeCalls w)) = ApiStream s ->
       exists w',
         generateContentStreamWithRetry env model prompt retries w = (Returned s, w')
         /\ native_models (trace w') = (native_models (trace w) ++ [model; flash])%list
         /\ streamed w' = (streamed w ++ [unavailable_notice model])%list)
    /\ (forall e2, nativeReply env (S (nativeCalls w)) = ApiError e2 -> isNotFound e2 = true ->
       exists w',
         generateContentStreamWithRetry env model prompt retries w = (Threw (ThrownError e2), w')
         /\ native_models (trace w') = (native_models (trace w) ++ [model; flash])%list
         /\ nativeCalls w' = S (S (nativeCalls w))).
Proof.
  intros env model prompt retries w e Hmodel Hne Hretries Hreply Hnf.
  destruct retries as [ | retries ]; [ lia | ].
  destruct (after_not_found_spec model prompt w) as (T & N & S').
  split.
  - intros s Hs.
    eexists. split.
    { rewrite ladder_nonEmpty by exact Hmodel.
      rewrite (retry_loop_not_found_swap env _ 0 _ model prompt w e Hreply Hnf Hne).
      apply retry_loop_stream. rewrite N. exact Hs. }
    cbn [trace streamed tick count_native emit].
    rewrite T, S', <- app_assoc, native_models_app. split; reflexivity.
  - intros e2 He2 Hnf2.
    eexists. split.
    { rewrite ladder_nonEmpty by exact Hmodel.
      rewrite (retry_loop_not_found_swap env _ 0 _ model prompt w e Hreply Hnf Hne).
      apply retry_loop_not_found_on_flash; [ rewrite N; exact He2 | exact Hnf2 ]. }
    destruct (after_not_found_spec flash prompt (after_not_found model prompt w)) as (T2 & N2 & _).
    rewrite T2, N2, T, N, <- app_assoc, native_models_app. split; reflexivity.
Qed.

Lemma unavailable_model_falls_back_once_witness :
  exists w',
    generateContentStreamWithRetry
      (script (Some "{}")
              (fun n => match n with 0 => ApiError not_found_error | _ => stream_of ["Hello."] end)
              (fun _ => OpenRouterStream ([], None)) None)
      "gemini-9-ultra" "hi" 3 world0 = (Returned (map chunk ["Hello."], None), w')
    /\ native_models (trace w') = ["gemini-9-ultra"; flash].
Proof.
  destruct (unavailable_model_falls_back_once
              (script (Some "{}")
                      (fun n => match n with 0 => ApiError not_found_error | _ => stream_of ["Hello."] end)
                      (fun _ => OpenRouterStream ([], None)) None)
              "gemini-9-ultra" "hi" 3 world0 not_found_error eq_refl eq_refl)
    as (H & _); [ lia | reflexivity | reflexivity | ].
  destruct (H (map chunk ["Hello."], None) eq_refl) as (w' & H1 & H2 & _).
  exists w'. split; [ exact H1 | exact H2 ].
Defined.

(** X3.  An error that is neither of the not-found class nor of the quota
    class is thrown at once: one call, no wait, nothing streamed. *)
Theorem other_errors_propagate_immediately :
  forall (env : Env) (model prompt : string) (retries : nat) (w : World) (e : JsError),
    Js.nonEmpty model = true ->
    nativeReply env (nativeCalls w) = ApiError e ->
    isNotFound e = false ->
    isQuotaError e = false ->
    exists w',
      generateContentStreamWithRetry env model prompt retries w = (Threw (ThrownError e), w')
      /\ trace w' = (trace w ++ [EvNativeCall model prompt])%list
      /\ nativeCalls w' = S (nativeCalls w)
      /\ streamed w' = streamed w.
Proof.
  intros env model prompt retries w e Hmodel Hreply Hnf Hq.
  eexists. split.
  { rewrite ladder_nonEmpty by exact Hmodel.
    apply retry_loop_other; assumption. }
  repeat split.
Qed.

Lemma other_errors_propagate_immediately_witness :
  exists w',
    generateContentStreamWithRetry
      (script (Some "{}") (fun _ => ApiError overloaded_error) (fun _ => OpenRouterStream ([], None)) None)
      flash "hi" 3 world0 = (Threw (ThrownError overloaded_error), w')
    /\ trace w' = [EvNativeCall flash "hi"]
    /\ streamed w' = [].
Proof.
  destruct (other_errors_propagate_immediately
              (script (Some "{}") (fun _ => ApiError overloaded_error)
                      (fun _ => OpenRouterStream ([], None)) None)
              flash "hi" 3 world0 overloaded_error eq_refl eq_refl eq_refl eq_refl)
    as (w' & H1 & H2 & _ & H4).
  exists w'. repeat split; assumption.
Defined.

Ltac budget_done :=
  repeat split; cbn [length]; first [ lia | constructor | reflexivity ].

(** The budget of the loop, for any provider behaviour. *)
Lemma retry_loop_budget :
  forall env left attempt retries model prompt w,
    exists ds,
      sleeps (trace (snd (retry_loop env left attempt retries model prompt w)))
      = (sleeps (trace w) ++ ds)%list
      /\ length ds <= retries - attempt
      /\ Forall (fun d => exists a, attempt <= a < retries /\ d = backoff_delay a) ds
      /\ nativeCalls w <= nativeCalls (snd (retry_loop env left attempt retries model prompt w))
         <= nativeCalls w + left.
Proof.
  intros env left.
  induction left as [ | left IH ]; intros attempt retries model prompt w.
  - exists []. cbn [retry_loop snd]. rewrite app_nil_r. budget_done.
  - cbn [retry_loop].
    destruct (nativeReply env (nativeCalls w)) as [e | s] eqn:Hreply.
    + destruct (isNotFound e) eqn:Hnf.
      * destruct (String.eqb model flash) eqn:Hm.
        -- exists []. cbn [snd trace nativeCalls onStreamChunk tick count_native emit].
           rewrite sleeps_app. cbn [sleeps flat_map app]. budget_done.
        -- destruct (IH (S attempt) retries flash prompt
                       (onStreamChunk ("(Model " ++ model ++
                          " unavailable. Falling back to Gemini 2.5 Flash...)")
                          (tick (count_native (emit (EvNativeCall model prompt) w)))))
             as (ds & Hs & Hl & Hf & Hn).
           exists ds. rewrite Hs.
           cbn [trace nativeCalls onStreamChunk tick count_native emit] in *.
           rewrite sleeps_app. cbn [sleeps flat_map app]. rewrite app_nil_r.
           repeat split; try lia.
           eapply Forall_impl; [ | exact Hf ].
           intros d (a & Ha & Hd). exists a. split; [ lia | exact Hd ].
      * destruct (isQuotaError e && (attempt <? retries)) eqn:Hq.
        -- apply andb_true_iff in Hq. destruct Hq as [_ Hlt]. apply Nat.ltb_lt in Hlt.
           destruct (IH (S attempt) retries model prompt
                       (tick (emit (EvSleep (backoff_delay attempt))
                          (onStreamChunk ("(Rate limit hit. Retrying in " ++
                             Js.string_of_Z (round_seconds (backoff_delay attempt)) ++ "s...)")
                             (tick (count_native (emit (EvNativeCall model prompt) w)))))))
             as (ds & Hs & Hl & Hf & Hn).
           exists (backoff_delay attempt :: ds). rewrite Hs.
           cbn [trace nativeCalls onStreamChunk tick count_native emit] in *.
           rewrite !sleeps_app. cbn [sleeps flat_map app length].
           rewrite app_nil_r, <- app_assoc. cbn [app].
           repeat split; try lia.
           constructor.
           ++ exists attempt. split; [ lia | reflexivity ].
           ++ eapply Forall_impl; [ | exact Hf ].
              intros d (a & Ha & Hd). exists a. split; [ lia | exact Hd ].
        -- exists []. cbn [snd trace nativeCalls tick count_native emit].
           rewrite sleeps_app. cbn [sleeps flat_map app]. budget_done.
    + exists []. cbn [snd trace nativeCalls tick count_native emit].
      rewrite sleeps_app. cbn [sleeps flat_map app]. budget_done.
Qed.

(** X4.  Whatever the provider answers, one call of the retry ladder with a
    budget of [retries] issues at least one and at most [retries + 1] native
    calls and waits at most [retries] times, each wait being
    [2^attempt * 2000 + 1000] ms for an attempt below [retries].  The budget
    is taken to be at most 21 (the code passes 3): up to there the delays
    the code computes in floating point are these integers and fit a
    timer. *)
Theorem retry_ladder_budget :
  forall (env : Env) (model prompt : string) (retries : nat) (w : World),
    retries <= 21 ->
    exists ds,
      sleeps (trace (snd (generateContentStreamWithRetry env model prompt retries w)))
      = (sleeps (trace w) ++ ds)%list
      /\ length ds <= retries
      /\ Forall (fun d => exists a, a < retries
                                   /\ d = (2 ^ Z.of_nat a * 2000 + 1000)%Z
                                   /\ (3000 <= d < 2 ^ 31)%Z) ds
      /\ S (nativeCalls w)
         <= nativeCalls (snd (generateContentStreamWithRetry env model prompt retries w))
         <= nativeCalls w + S retries.
Proof.
  intros env model prompt retries w Hsmall.
  unfold generateContentStreamWithRetry.
  set (m := if negb (Js.nonEmpty model) then flash else model).
  destruct (retry_loop_budget env (S retries) 0 retries m prompt w) as (ds & Hs & Hl & Hf & Hn).
  exists ds. split; [ exact Hs | ]. split; [ lia | ]. split.
  - eapply Forall_impl; [ | exact Hf ].
    intros d (a & Ha & Hd). exists a. split; [ lia | ]. split; [ exact Hd | ].
    subst d. unfold backoff_delay.
    assert (H1 : (0 < 2 ^ Z.of_nat a)%Z) by (apply Z.pow_pos_nonneg; lia).
    assert (H2 : (2 ^ Z.of_nat a <= 2 ^ 20)%Z) by (apply Z.pow_le_mono_r; lia).
    change (2 ^ 20)%Z with 1048576%Z in H2. change (2 ^ 31)%Z with 2147483648%Z. lia.
  - split; [ | lia ].
    clear. cbn [retry_loop].
    assert (Hmono : forall left attempt model' w0,
              nativeCalls w0 <= nativeCalls (snd (retry_loop env left attempt retries model' prompt w0))).
    { intros left attempt model' w0.
      destruct (retry_loop_budget env left attempt retries model' prompt w0) as (_ & _ & _ & _ & H).
      lia. }
    destruct (nativeReply env (nativeCalls w)) as [e | s].
    + destruct (isNotFound e).
      * destruct (String.eqb m flash); [ cbn; lia | ].
        eapply Nat.le_trans; [ | apply Hmono ]. cbn. lia.
      * destruct (isQuotaError e && (0 <? retries)); [ | cbn; lia ].
        eapply Nat.le_trans; [ | apply Hmono ]. cbn. lia.
    + cbn. lia.
Qed.

Lemma retry_ladder_budget_witness :
  exists ds,
    sleeps (trace (snd (generateContentStreamWithRetry
                          (script (Some "{}") (fun _ => ApiError quota_error)
                                  (fun _ => OpenRouterStream ([], None)) None)
                          flash "hi" 3 world0)))
    = ([] ++ ds)%list
    /\ length ds <= 3.
Proof.
  destruct (retry_ladder_budget
              (script (Some "{}") (fun _ => ApiError quota_error)
                      (fun _ => OpenRouterStream ([], None)) None)
              flash "hi" 3 world0) as (ds & H1 & H2 & _).
  - lia.
  - exists ds. split; [ exact H1 | exact H2 ].
Defined.

(** X5.  The loop counter is shared by both kinds of retry.  When the model
    is not the fallback model and the provider answers three quota errors and
    then a not-found error, the fallback is announced but the loop has no
    attempt left: the fallback model is never called and the caller gets
    "Max retries exceeded" instead of the provider's error. *)
Theorem announced_fallback_out_of_attempts :
  forall (env : Env) (model prompt : string) (w : World) (q e : JsError),
    Js.nonEmpty model = true ->
    String.eqb model flash = false ->
    isNotFound q = false ->
    isQuotaError q = true ->
    isNotFound e = true ->
    nativeReply env (nativeCalls w) = ApiError q ->
    nativeReply env (S (nativeCalls w)) = ApiError q ->
    nativeReply env (S (S (nativeCalls w))) = ApiError q ->
    nativeReply env (S (S (S (nativeCalls w)))) = ApiError e ->
    exists w',
      generateContentStreamWithRetry env model prompt 3 w
      = (Threw (ThrownError (Error "Max retries exceeded")), w')
      /\ native_models (trace w') = (native_models (trace w) ++ [model; model; model; model])%list
      /\ sleeps (trace w') = (sleeps (trace w) ++ [3000; 5000; 9000]%Z)%list
      /\ exists earlier, streamed w' = (earlier ++ [unavailable_notice model])%list.
Proof.
  intros env model prompt w q e Hmodel Hne Hqnf Hq Hnf H0 H1 H2 H3.
  destruct (after_quota_wait_spec 0 model prompt w) as [T0 N0].
  destruct (after_quota_wait_spec 1 model prompt (after_quota_wait 0 model prompt w)) as [T1 N1].
  destruct (after_quota_wait_spec 2 model prompt
              (after_quota_wait 1 model prompt (after_quota_wait 0 model prompt w))) as [T2 N2].
  exists (after_not_found model prompt
            (after_quota_wait 2 model prompt
               (after_quota_wait 1 model prompt (after_quota_wait 0 model prompt w)))).
  split.
  { rewrite ladder_nonEmpty by exact Hmodel.
    rewrite (retry_loop_quota_step env 3 0 3 model prompt w q H0 Hqnf Hq) by lia.
    rewrite (retry_loop_quota_step env 2 1 3 model prompt _ q) by
      (try lia; try assumption; rewrite N0; exact H1).
    rewrite (retry_loop_quota_step env 1 2 3 model prompt _ q) by
      (try lia; try assumption; rewrite N1, N0; exact H2).
    rewrite (retry_loop_not_found_swap env 0 3 3 model prompt _ e) by
      (try assumption; rewrite N2, N1, N0; exact H3).
    reflexivity. }
  destruct (after_not_found_spec model prompt
              (after_quota_wait 2 model prompt
                 (after_quota_wait 1 model prompt (after_quota_wait 0 model prompt w))))
    as (T3 & N3 & S3).
  rewrite T3, S3, T2, T1, T0.
  rewrite !native_models_app, !sleeps_app.
  split; [ rewrite <- !app_assoc; reflexivity | ].
  split; [ rewrite <- !app_assoc; reflexivity | ].
  eexists. reflexivity.
Qed.

Lemma announced_fallback_out_of_attempts_witness :
  exists w',
    generateContentStreamWithRetry
      (script (Some "{}")
              (fun n => match n with 3 => ApiError not_found_error | _ => ApiError quota_error end)
              (fun _ => OpenRouterStream ([], None)) None)
      "gemini-3-pro-preview" "hi" 3 world0
    = (Threw (ThrownError (Error "Max retries exceeded")), w')
    /\ native_models (trace w')
       = ["gemini-3-pro-preview"; "gemini-3-pro-preview"; "gemini-3-pro-preview"; "gemini-3-pro-preview"].
Proof.
  destruct (announced_fallback_out_of_attempts
              (script (Some "{}")
                      (fun n => match n with 3 => ApiError not_found_error | _ => ApiError quota_error end)
                      (fun _ => OpenRouterStream ([], None)) None)
              "gemini-3-pro-preview" "hi" world0 quota_error not_found_error
              eq_refl eq_refl eq_refl eq_refl eq_refl eq_refl eq_refl eq_refl eq_refl)
    as (w' & H1 & H2 & _).
  exists w'. split; [ exact H1 | exact H2 ].
Defined.

(** ** Search results *)

Lemma js_or_truthy_r :
  forall a b, truthy b = true -> truthy (js_or a b) = true.
Proof. intros a b Hb. unfold js_or. destruct (truthy a) eqn:Ha; assumption. Qed.

Lemma mapM_Forall :
  forall (A B : Type) (f : A -> Outcome B) (P : B -> Prop) xs ys,
    (forall x y, f x = Returned y -> P y) ->
    mapM f xs = Returned ys ->
    Forall P ys /\ length ys = length xs.
Proof.
  intros A B f P xs. induction xs as [ | x xs IH ]; intros ys Hf H; cbn [mapM] in H.
  - inversion H. split; [ constructor | reflexivity ].
  - unfold bind in H. destruct (f x) as [y | t] eqn:Hx; [ | discriminate ].
    destruct (mapM f xs) as [ys' | t] eqn:Hxs; [ | discriminate ].
    inversion H; subst. destruct (IH ys' Hf eq_refl) as [HF HL].
    split; [ constructor; eauto | simpl; congruence ].
Qed.

Lemma bubble_result_titled :
  forall r y, bubble_result r = Returned y -> Results.titled y = true.
Proof.
  intros r y H. unfold bubble_result, bind in H.
  destruct (prop (Some r) "title") as [t | ]; [ | discriminate ].
  destruct (prop (Some r) "url") as [u | ]; [ | discriminate ].
  destruct (prop (Some r) "snippet") as [s | ]; [ | discriminate ].
  inversion H; subst. unfold Results.titled. cbn [title snippet].
  rewrite !js_or_truthy_r by reflexivity. reflexivity.
Qed.

Lemma primary_results_titled :
  forall query limit reply results,
    runBubbleSearch query limit reply = Returned results ->
    Forall (fun r => Results.titled r = true) results.
Proof.
  intros query limit reply results H. unfold runBubbleSearch in H.
  destruct reply as [[e | status body] | ]; try discriminate.
  destruct (negb (resp_ok status)); [ discriminate | ].
  unfold bind in H.
  destruct (resp_json body) as [data | ]; [ | discriminate ].
  destruct (prop (Some data) "success") as [success | ]; [ | discriminate ].
  destruct (truthy success); [ | inversion H; constructor ].
  destruct (prop (Some data) "results") as [rs | ]; [ | discriminate ].
  destruct (isArray rs) as [xs | ]; [ | inversion H; constructor ].
  apply (mapM_Forall _ _ bubble_result _ xs results bubble_result_titled H).
Qed.

Lemma ddg_topic_spec :
  forall t acc out,
    ddg_topic t acc = Returned out ->
    out = acc \/ exists r, out = (acc ++ [r])%list /\ Results.linked r = true.
Proof.
  intros t acc out H. unfold ddg_topic, bind in H.
  destruct (prop (Some t) "FirstURL") as [firstURL | ]; [ | discriminate ].
  destruct (truthy firstURL) eqn:Hu; [ | inversion H; auto ].
  destruct (prop (Some t) "Text") as [text | ]; [ | discriminate ].
  destruct (truthy text) eqn:Ht; [ | inversion H; auto ].
  destruct text as [[ | | | s | | ] | ]; try discriminate.
  inversion H; subst. right. eexists. split; [ reflexivity | ].
  unfold Results.linked, Results.titled. cbn [title snippet url].
  rewrite js_or_truthy_r by reflexivity. rewrite Ht, Hu. reflexivity.
Qed.

Lemma ddg_topics_spec :
  forall ts acc out,
    forEachM ddg_topic ts acc = Returned out ->
    Forall (fun r => Results.linked r = true) acc ->
    Forall (fun r => Results.linked r = true) out
    /\ length out <= length acc + length ts.
Proof.
  induction ts as [ | t ts IH ]; intros acc out H Hacc; cbn [forEachM] in H.
  - inversion H; subst. split; [ exact Hacc | lia ].
  - unfold bind in H. destruct (ddg_topic t acc) as [acc' | ] eqn:Ht; [ | discriminate ].
    destruct (ddg_topic_spec t acc acc' Ht) as [-> | (r & -> & Hr)].
    + destruct (IH acc out H Hacc) as [HF HL]. split; [ exact HF | simpl; lia ].
    + destruct (IH (acc ++ [r])%list out H) as [HF HL].
      * apply Forall_app. split; [ exact Hacc | constructor; [ exact Hr | constructor ] ].
      * split; [ exact HF | rewrite length_app in HL; simpl in *; lia ].
Qed.

Lemma fallback_results_spec :
  forall query reply results,
    runDuckDuckGoFallback query reply = Returned results ->
    Forall (fun r => Results.linked r = true) results /\ length results <= 6.
Proof.
  intros query reply results H. unfold runDuckDuckGoFallback in H.
  destruct (ddg_body reply) as [rs | t] eqn:Hb; inversion H; subst; clear H;
    [ | split; [ constructor | simpl; lia ] ].
  unfold ddg_body in Hb.
  destruct reply as [e | status body]; [ discriminate | ].
  destruct (negb (resp_ok status)); [ inversion Hb; split; [ constructor | simpl; lia ] | ].
  unfold bind in Hb.
  destruct (resp_json body) as [data | ]; [ | discriminate ].
  destruct (prop (Some data) "AbstractURL") as [abstractURL | ]; [ | discriminate ].
  destruct (truthy abstractURL) eqn:Hu.
  - destruct (prop (Some data) "Heading") as [heading | ]; [ | discriminate ].
    destruct (truthy heading) eqn:Hh; cbn [andb] in Hb.
    + destruct (prop (Some data) "Abstract") as [abstract | ]; [ | discriminate ].
      destruct (prop (Some data) "RelatedTopics") as [related | ]; [ | discriminate ].
      assert (Hfirst : Forall (fun r => Results.linked r = true)
                [ {| title := heading; url := abstractURL;
                     snippet := js_or abstract (Some (JStr "Result from DuckDuckGo"));
                     content := abstract |} ]).
      { constructor; [ | constructor ].
        unfold Results.linked, Results.titled. cbn [title snippet url].
        rewrite js_or_truthy_r by reflexivity. rewrite Hh, Hu. reflexivity. }
      destruct (truthy related); [ | inversion Hb; subst; split; [ exact Hfirst | simpl; lia ] ].
      destruct (isArray related) as [ts | ];
        [ | inversion Hb; subst; split; [ exact Hfirst | simpl; lia ] ].
      destruct (ddg_topics_spec _ _ _ Hb Hfirst) as [HF HL].
      split; [ exact HF | ].
      pose proof (firstn_le_length 5 ts) as Hlen. cbn [length] in HL. lia.
    + destruct (prop (Some data) "RelatedTopics") as [related | ]; [ | discriminate ].
      destruct (truthy related); [ | inversion Hb; subst; split; [ constructor | simpl; lia ] ].
      destruct (isArray related) as [ts | ];
        [ | inversion Hb; subst; split; [ constructor | simpl; lia ] ].
      destruct (ddg_topics_spec _ _ _ Hb (Forall_nil _)) as [HF HL].
      split; [ exact HF | ].
      pose proof (firstn_le_length 5 ts) as Hlen. cbn [length] in HL. lia.
  - cbn [andb] in Hb.
    destruct (prop (Some data) "RelatedTopics") as [related | ]; [ | discriminate ].
    destruct (truthy related); [ | inversion Hb; subst; split; [ constructor | simpl; lia ] ].
    destruct (isArray related) as [ts | ];
      [ | inversion Hb; subst; split; [ constructor | simpl; lia ] ].
    destruct (ddg_topics_spec _ _ _ Hb (Forall_nil _)) as [HF HL].
    split; [ exact HF | ].
    pose proof (firstn_le_length 5 ts) as Hlen. cbn [length] in HL. lia.
Qed.

(** X6.  Whatever the two providers answer, every result that [runWebSearch]
    returns has a truthy title and a truthy snippet: the primary path fills in
    "Untitled Page" and "No description available.", the fallback path only
    keeps entries that have both. *)
Theorem search_results_have_title_and_snippet :
  forall (query : string) (limit : Z) (primary : PrimaryReply) (fallback : Settled)
         (results : list WebSearchResult),
    fst (runWebSearch query limit primary fallback) = Returned results ->
    Forall (fun r => truthy (title r) = true /\ truthy (snippet r) = true) results.
Proof.
  intros query limit primary fallback results H.
  assert (Ht : Forall (fun r => Results.titled r = true) results).
  { unfold runWebSearch in H.
    destruct (runBubbleSearch query limit primary) as [rs | t] eqn:Hp; cbn [fst] in H.
    - inversion H; subst. exact (primary_results_titled _ _ _ _ Hp).
    - destruct (fallback_results_spec _ _ _ H) as [HF _].
      eapply Forall_impl; [ | exact HF ].
      intros r Hr. unfold Results.linked in Hr. apply andb_true_iff in Hr. tauto. }
  eapply Forall_impl; [ | exact Ht ].
  intros r Hr. unfold Results.titled in Hr. apply andb_true_iff in Hr. exact Hr.
Qed.

Lemma search_results_have_title_and_snippet_witness :
  Forall (fun r => truthy (title r) = true /\ truthy (snippet r) = true)
    [ mkResult (Some (JStr "Untitled Page")) None
               (Some (JStr "No description available.")) None ].
Proof.
  apply (search_results_have_title_and_snippet "cats" 15
           (InTime (Response 200 (BodyJson (JObj [ ("success", JBool true);
                                                   ("results", JArr [ JObj [] ]) ]))))
           (Rejected (Error "Failed to fetch"))).
  reflexivity.
Defined.

(** X7.  The fallback provider returns at most six results (the abstract and
    up to five related topics), each with a truthy title, link and snippet. *)
Theorem fallback_at_most_six_linked_results :
  forall (query : string) (reply : Settled) (results : list WebSearchResult),
    runDuckDuckGoFallback query reply = Returned results ->
    length results <= 6
    /\ Forall (fun r => truthy (title r) = true /\ truthy (url r) = true
                        /\ truthy (snippet r) = true) results.
Proof.
  intros query reply results H.
  destruct (fallback_results_spec _ _ _ H) as [HF HL].
  split; [ exact HL | ].
  eapply Forall_impl; [ | exact HF ].
  intros r Hr. unfold Results.linked, Results.titled in Hr.
  apply andb_true_iff in Hr. destruct Hr as [Hr Hu].
  apply andb_true_iff in Hr. tauto.
Qed.

Lemma fallback_at_most_six_linked_results_witness :
  length [ mkResult (Some (JStr "Cat")) (Some (JStr "https://en.wikipedia.org/wiki/Cat"))
                    (Some (JStr "The cat is a small domesticated carnivorous mammal."))
                    (Some (JStr "The cat is a small domesticated carnivorous mammal.")) ] <= 6
  /\ Forall (fun r => truthy (title r) = true /\ truthy (url r) = true
                      /\ truthy (snippet r) = true)
       [ mkResult (Some (JStr "Cat")) (Some (JStr "https://en.wikipedia.org/wiki/Cat"))
                  (Some (JStr "The cat is a small domesticated carnivorous mammal."))
                  (Some (JStr "The cat is a small domesticated carnivorous mammal.")) ].
Proof.
  apply (fallback_at_most_six_linked_results "cats" (Response 200 (BodyJson ddg_cat))).
  reflexivity.
Defined.

(** ** The keyword heuristic *)

Lemma prefix_app : forall p s, String.prefix p (p ++ s) = true.
Proof.
  induction p as [ | c p IH ]; intros s; simpl.
  - destruct s; reflexivity.
  - destruct (ascii_dec c c) as [ _ | Hne ]; [ apply IH | congruence ].
Qed.

Lemma split_at_found :
  forall sub a s, exists r, Js.split_at sub (a ++ sub ++ s) = Some r.
Proof.
  intros sub a s. induction a as [ | c a IH ].
  - cbn [append]. destruct (sub ++ s) as [ | d r ] eqn:Hs.
    + cbn [Js.split_at]. pose proof (prefix_app sub s) as Hp. rewrite Hs in Hp.
      rewrite Hp. eauto.
    + cbn [Js.split_at]. pose proof (prefix_app sub s) as Hp. rewrite Hs in Hp.
      rewrite Hp. eauto.
  - cbn [append Js.split_at].
    destruct (String.prefix sub (String c (a ++ sub ++ s))); [ eauto | ].
    destruct IH as [[before after] ->]. eauto.
Qed.

Lemma includes_app :
  forall sub a s, Js.includes (a ++ sub ++ s) sub = true.
Proof.
  intros sub a s. unfold Js.includes.
  destruct (split_at_found sub a s) as [r ->]. reflexivity.
Qed.

Lemma toLowerCase_app :
  forall a b, Js.toLowerCase (a ++ b) = Js.toLowerCase a ++ Js.toLowerCase b.
Proof.
  induction a as [ | c a IH ]; intros b; simpl; [ reflexivity | rewrite IH; reflexivity ].
Qed.

(** X8.  For a model without built-in search and no search tag, the heuristic
    fires on every message that contains one of its twelve keywords, in any
    letter case and at any position. *)
Theorem keyword_anywhere_triggers_search :
  forall (before word after kw : string),
    In kw keywords ->
    Js.toLowerCase word = kw ->
    shouldUseExternalSearch (before ++ word ++ after) false false = true.
Proof.
  intros before word after kw Hin Hlow.
  unfold shouldUseExternalSearch. cbn [andb negb].
  rewrite orb_false_r.
  apply existsb_exists. exists kw. split; [ exact Hin | ].
  rewrite !toLowerCase_app, Hlow. apply includes_app.
Qed.

Lemma keyword_anywhere_triggers_search_witness :
  shouldUseExternalSearch ("So, " ++ "WHO IS" ++ " the mayor?") false false = true.
Proof.
  apply (keyword_anywhere_triggers_search "So, " "WHO IS" " the mayor?" "who is").
  - unfold keywords. simpl. tauto.
  - reflexivity.
Defined.

(** ** The handler as a whole *)

Lemma caught_returns_one :
  forall env t v w n its,
    exists m, result (caught env t v w n its) = Returned [m]
              /\ exit (caught env t v w n its) <> ExitCanvas.
Proof.
  intros env t v w n its. unfold caught.
  destruct (is_AbortError t); eexists; (split; [ reflexivity | discriminate ]).
Qed.

Lemma route_tags_return :
  forall env generated v w r v' w',
    route_tags env generated v w = StepReturn r v' w' -> r = reply_of v'.
Proof.
  intros env generated v w r v' w'. unfold route_tags.
  repeat match goal with
         | |- context [match ?x with _ => _ end] => destruct x
         end; intros H; inversion H; reflexivity.
Qed.

Lemma body_return :
  forall env input model isNative v w r v' w',
    body env input model isNative v w = StepReturn r v' w' -> r = reply_of v'.
Proof.
  intros env input model isNative v w r v' w'. unfold body.
  destruct (generate env input model isNative v w) as [[[g | t] v1] w1]; [ | discriminate ].
  unfold dispatch.
  destruct (searchMatches g); [ apply route_tags_return | ].
  destruct (queries g); [ apply route_tags_return | ].
  destruct (shouldUseExternalSearch _ _ true); [ | apply route_tags_return ].
  destruct (do_search env _ w1) as [[[ | r0 rs] | t] w2]; discriminate.
Qed.

Lemma while_loop_return :
  forall env input model isNative fuel n its v w e r,
    while_loop env input model isNative fuel n its v w = Some e ->
    how e = LoopReturn r -> r = reply_of (end_vars e).
Proof.
  intros env input model isNative fuel.
  induction fuel as [ | fuel IH ]; intros n its v w e r; rewrite while_loop_eq.
  - destruct (negb (n <? MAX_LOOPS)); [ intros [= <-]; discriminate | ].
    destruct (aborted env w); [ intros [= <-]; discriminate | discriminate ].
  - destruct (negb (n <? MAX_LOOPS)); [ intros [= <-]; discriminate | ].
    destruct (aborted env w); [ intros [= <-]; discriminate | ].
    destruct (body env input model isNative v w) as [v' w' | v' w' | r' v' w' | r' v' w' | t v' w']
      eqn:Hbody.
    + apply IH.
    + apply IH.
    + intros [= <-]. discriminate.
    + intros [= <-]. cbn [how end_vars]. intros [= <-].
      exact (body_return _ _ _ _ _ _ _ _ _ Hbody).
    + intros [= <-]. discriminate.
Qed.

Lemma run_cases :
  forall env input fuel run,
    runAutonomousAgent env input fuel = Some run ->
    thinkingMode input <> instant ->
    (exists t v w, run = caught env t v w 0 [])
    \/ (exists model isNative v w e,
          while_loop env input model isNative fuel 0 [] v w = Some e
          /\ run = after_loop env e).
Proof.
  intros env input fuel run H Hmode. unfold runAutonomousAgent in H.
  assert (Hgoal :
    (let '(r, w1) := resolveModel input (tick (emit EvMemoryFetch world0)) in
     match routeReply env with
     | Threw t => Some (caught env t (vars0 input) (tick (emit EvRoute w1)) 0 [])
     | Returned action =>
         match preemptive_search env input (res_isNative r || Js.includes (res_model r) "perplexity")
                 (vars0 input) (tick (emit EvRoute w1)) with
         | (Threw t, v1, w3) => Some (caught env t v1 w3 0 [])
         | (Returned _, v1, w3) =>
             match Json.parse match memoryContext env with Some s => s | None => "" end with
             | Threw t => Some (caught env t v1 w3 0 [])
             | Returned _ =>
                 match while_loop env input (res_model r) (res_isNative r) fuel 0 []
                         (set_action action v1) w3 with
                 | None => None
                 | Some e => Some (after_loop env e)
                 end
             end
         end
     end) = Some run ->
    (exists t v w, run = caught env t v w 0 [])
    \/ (exists model isNative v w e,
          while_loop env input model isNative fuel 0 [] v w = Some e
          /\ run = after_loop env e)).
  { destruct (resolveModel input _) as [r w1].
    destruct (routeReply env) as [action | t]; [ | intros [= <-]; left; eauto ].
    destruct (preemptive_search env input _ _ _) as [[[u | t] v1] w3];
      [ | intros [= <-]; left; eauto ].
    destruct (Json.parse _) as [u' | t]; [ | intros [= <-]; left; eauto ].
    destruct (while_loop env input _ _ fuel 0 [] _ w3) as [e | ] eqn:Hloop; [ | discriminate ].
    intros [= <-]. right. eauto 10. }
  destruct (thinkingMode input); [ congruence | | | ]; exact (Hgoal H).
Qed.

(** X9.  The handler rejects in instant mode only, with "Instant mode service
    unavailable."; in every other mode each failure (routing, memory parsing,
    generation, canvas hand-off) is turned into a reply, and unless the reply
    is the canvas collaborator's it is exactly one message. *)
Theorem only_instant_mode_rejects :
  forall (env : Env) (input : AgentInput) (fuel : nat) (run : Run),
    runAutonomousAgent env input fuel = Some run ->
    (forall t, result run = Threw t ->
       thinkingMode input = instant
       /\ t = ThrownError (Error "Instant mode service unavailable."))
    /\ (thinkingMode input <> instant ->
        exit run = ExitCanvas \/ exists m, result run = Returned [m]).
Proof.
  intros env input fuel run H.
  assert (Hother : thinkingMode input <> instant ->
            (exists r, result run = Returned r)
            /\ (exit run = ExitCanvas \/ exists m, result run = Returned [m])).
  { intros Hmode.
    destruct (run_cases env input fuel run H Hmode)
      as [(t & v & w & ->) | (model & isNative & v & w & e & Hloop & ->)].
    - destruct (caught_returns_one env t v w 0 []) as (m & Hm & _).
      split; [ eauto | right; eauto ].
    - unfold after_loop.
      destruct (how e) as [ | | r | r | t ] eqn:Hhow; cbn [result exit].
      + split; [ eauto | right; unfold reply_of; eauto ].
      + split; [ eauto | right; unfold reply_of; eauto ].
      + split; [ eauto | left; reflexivity ].
      + rewrite (while_loop_return _ _ _ _ _ _ _ _ _ _ _ Hloop Hhow).
        split; [ eauto | right; unfold reply_of; eauto ].
      + destruct (caught_returns_one env t (end_vars e) (end_world e)
                    (end_loopCount e) (end_iterations e)) as (m & Hm & _).
        split; [ eauto | right; eauto ]. }
  split.
  - intros t Ht.
    destruct (thinkingMode input) eqn:Hmode.
    2,3,4: (destruct Hother as [[r Hr] _]; [ discriminate | congruence ]).
    split; [ reflexivity | ].
    unfold runAutonomousAgent in H. rewrite Hmode in H.
    destruct (freeCompletion env) as [[txt m] | t0]; inversion H; subst; cbn [result] in Ht.
    + discriminate.
    + inversion Ht. reflexivity.
  - intros Hmode. apply Hother. exact Hmode.
Qed.

Lemma only_instant_mode_rejects_witness :
  exists run,
    runAutonomousAgent (script None (fun _ => ApiError overloaded_error)
                               (fun _ => OpenRouterStream ([], None)) None)
                       (request "hi" None fast no_profile) 6 = Some run
    /\ (exit run = ExitCanvas \/ exists m, result run = Returned [m]).
Proof.
  destruct (runAutonomousAgent (script None (fun _ => ApiError overloaded_error)
                                       (fun _ => OpenRouterStream ([], None)) None)
                               (request "hi" None fast no_profile) 6) as [run | ] eqn:H.
  - exists run. split; [ reflexivity | ].
    destruct (only_instant_mode_rejects _ _ _ run H) as [_ H2].
    apply H2. discriminate.
  - vm_compute in H. discriminate.
Defined.

(** *** Invariants of the trace of a run *)

Section RunInvariant.

Variable ok : Event -> Prop.
Hypothesis ok_memory : ok EvMemoryFetch.
Hypothesis ok_route : ok EvRoute.
Hypothesis ok_search : forall c, ok (EvSearch c).

Variables (env : Env) (input : AgentInput) (fuel : nat).

Hypothesis loop_keeps :
  forall v w e,
    Forall ok (trace w) ->
    while_loop env input
      (res_model (fst (resolveModel input (tick (emit EvMemoryFetch world0)))))
      (res_isNative (fst (resolveModel input (tick (emit EvMemoryFetch world0)))))
      fuel 0 [] v w = Some e ->
    Forall ok (trace (end_world e)).

Lemma search_events_ok : forall calls, Forall ok (map EvSearch calls).
Proof.
  intros calls. apply Forall_forall. intros ev Hin. apply in_map_iff in Hin.
  destruct Hin as (c & <- & _). apply ok_search.
Qed.

Lemma preemptive_search_keeps :
  forall mss v w o v' w',
    Forall ok (trace w) ->
    preemptive_search env input mss v w = (o, v', w') ->
    Forall ok (trace w').
Proof.
  intros mss v w o v' w' Hw. unfold preemptive_search.
  destruct (shouldUseExternalSearch (prompt input) mss false); [ | intros [= <- <- <-]; exact Hw ].
  destruct (do_search_spec env (prompt input)
              (onStreamChunk ("<SEARCH>" ++ prompt input ++ "</SEARCH>") w))
    as (results & more & Hres & Htr & _).
  destruct (do_search env (prompt input) _) as [r w2]. cbn [fst snd] in Hres, Htr. subst r.
  assert (Hw2 : Forall ok (trace w2)).
  { rewrite Htr. apply Forall_app. split; [ exact Hw | apply search_events_ok ]. }
  destruct (is_admin (profile input)); destruct results; intros [= <- <- <-]; exact Hw2.
Qed.

Lemma run_keeps :
  forall run,
    thinkingMode input <> instant ->
    runAutonomousAgent env input fuel = Some run ->
    Forall ok (trace (world run)).
Proof.
  intros run Hmode H. unfold runAutonomousAgent in H.
  assert (Hgoal :
    (let '(r, w1) := resolveModel input (tick (emit EvMemoryFetch world0)) in
     match routeReply env with
     | Threw t => Some (caught env t (vars0 input) (tick (emit EvRoute w1)) 0 [])
     | Returned action =>
         match preemptive_search env input (res_isNative r || Js.includes (res_model r) "perplexity")
                 (vars0 input) (tick (emit EvRoute w1)) with
         | (Threw t, v1, w3) => Some (caught env t v1 w3 0 [])
         | (Returned _, v1, w3) =>
             match Json.parse match memoryContext env with Some s => s | None => "" end with
             | Threw t => Some (caught env t v1 w3 0 [])
             | Returned _ =>
                 match while_loop env input (res_model r) (res_isNative r) fuel 0 []
                         (set_action action v1) w3 with
                 | None => None
                 | Some e => Some (after_loop env e)
                 end
             end
         end
     end) = Some run -> Forall ok (trace (world run))).
  { pose proof (resolveModel_trace input (tick (emit EvMemoryFetch world0))) as Htr.
    pose proof loop_keeps as Hloop.
    destruct (resolveModel input (tick (emit EvMemoryFetch world0))) as [r w1].
    cbn [fst snd] in Htr, Hloop.
    assert (Hw2 : Forall ok (trace (tick (emit EvRoute w1)))).
    { cbn [trace tick emit]. rewrite Htr. cbn [trace tick emit world0 app].
      repeat constructor; assumption. }
    assert (Hcaught : forall t v0 w0,
              Forall ok (trace w0) ->
              Some (caught env t v0 w0 0 []) = Some run -> Forall ok (trace (world run))).
    { intros t v0 w0 Hw0 [= <-].
      destruct (caught_counters env t v0 w0 0 []) as (_ & _ & _ & ->). exact Hw0. }
    destruct (routeReply env) as [action | t]; [ | apply Hcaught; exact Hw2 ].
    destruct (preemptive_search env input _ _ _) as [[o v1] w3] eqn:Hp.
    pose proof (preemptive_search_keeps _ _ _ _ _ _ Hw2 Hp) as Hw3.
    destruct o as [u | t]; [ | apply Hcaught; exact Hw3 ].
    destruct (Json.parse _) as [u' | t]; [ | apply Hcaught; exact Hw3 ].
    destruct (while_loop env input _ _ fuel 0 [] _ w3) as [e | ] eqn:He; [ | discriminate ].
    intros [= <-].
    destruct (after_loop_counters env e) as (_ & _ & _ & ->).
    exact (Hloop _ _ _ Hw3 He). }
  destruct (thinkingMode input); [ congruence | | | ]; exact (Hgoal H).
Qed.

End RunInvariant.

Import Observe.

Ltac keep_trace :=
  cbn [trace tick emit onStreamChunk count_native count_openRouter count_search];
  rewrite ?Forall_app; repeat split; auto; repeat constructor; cbn; auto.

Lemma retry_loop_not_compatible :
  forall env left attempt retries model prompt w,
    Forall not_compatible (trace w) ->
    Forall not_compatible (trace (snd (retry_loop env left attempt retries model prompt w))).
Proof.
  intros env left.
  induction left as [ | left IH ]; intros attempt retries model prompt w Hw; cbn [retry_loop].
  - exact Hw.
  - destruct (nativeReply env (nativeCalls w)) as [e | s]; cbn [snd].
    + destruct (isNotFound e).
      * destruct (String.eqb model flash); cbn [snd].
        -- keep_trace.
        -- apply IH. keep_trace.
      * destruct (isQuotaError e && (attempt <? retries)); cbn [snd].
        -- apply IH. keep_trace.
        -- keep_trace.
    + keep_trace.
Qed.

Lemma generate_not_compatible :
  forall env input model isNative v w,
    key_present (openrouter_api_key (profile input)) = false ->
    Forall not_compatible (trace w) ->
    Forall not_compatible (trace (snd (generate env input model isNative v w))).
Proof.
  intros env input model isNative v w Hkey Hw. unfold generate.
  destruct isNative.
  - unfold generateContentStreamWithRetry.
    set (m := if negb (Js.nonEmpty model) then flash else model).
    pose proof (retry_loop_not_compatible env 4 0 3 m (currentPrompt v) w Hw) as Hretry.
    destruct (retry_loop env 4 0 3 m (currentPrompt v) w) as [[[chunks failure] | t] w1];
      cbn [snd] in Hretry |- *.
    + rewrite consume_native_trace. exact Hretry.
    + exact Hretry.
  - rewrite Hkey. cbn [negb snd]. exact Hw.
Qed.

Lemma route_tags_not_compatible :
  forall env generated v w,
    Forall not_compatible (trace w) ->
    Forall not_compatible (trace (step_world (route_tags env generated v w))).
Proof.
  intros env generated v w Hw. unfold route_tags.
  repeat match goal with
         | |- context [match ?x with _ => _ end] => destruct x; cbn [step_world]; auto
         end; keep_trace.
Qed.

Lemma dispatch_not_compatible :
  forall env input mss generated v w,
    Forall not_compatible (trace w) ->
    Forall not_compatible (trace (step_world (dispatch env input mss generated v w))).
Proof.
  intros env input mss generated v w Hw. unfold dispatch.
  destruct (searchMatches generated) as [ | m ms ];
    [ apply route_tags_not_compatible; exact Hw | ].
  destruct (queries generated) as [ | query rest ];
    [ apply route_tags_not_compatible; exact Hw | ].
  destruct (shouldUseExternalSearch query mss true);
    [ | apply route_tags_not_compatible; exact Hw ].
  destruct (do_search_spec env query w) as (results & more & Hres & Htr & _).
  destruct (do_search env query w) as [r w1]. cbn [fst snd] in Hres, Htr. subst r.
  assert (Hw1 : Forall not_compatible (trace w1)).
  { rewrite Htr. apply Forall_app. split; [ exact Hw | ].
    apply search_events_ok. intros c. exact I. }
  destruct results; exact Hw1.
Qed.

Lemma while_loop_not_compatible :
  forall env input model isNative fuel n its v w e,
    key_present (openrouter_api_key (profile input)) = false ->
    Forall not_compatible (trace w) ->
    while_loop env input model isNative fuel n its v w = Some e ->
    Forall not_compatible (trace (end_world e)).
Proof.
  intros env input model isNative fuel.
  induction fuel as [ | fuel IH ]; intros n its v w e Hkey Hw; rewrite while_loop_eq.
  - destruct (negb (n <? MAX_LOOPS)); [ intros [= <-]; exact Hw | ].
    destruct (aborted env w); [ intros [= <-]; exact Hw | discriminate ].
  - destruct (negb (n <? MAX_LOOPS)); [ intros [= <-]; exact Hw | ].
    destruct (aborted env w); [ intros [= <-]; exact Hw | ].
    assert (Hbody : Forall not_compatible
                      (trace (step_world (body env input model isNative v w)))).
    { unfold body.
      pose proof (generate_not_compatible env input model isNative v w Hkey Hw) as Hgen.
      destruct (generate env input model isNative v w) as [[[g | t] v1] w1]; cbn [snd] in Hgen.
      - apply dispatch_not_compatible. exact Hgen.
      - exact Hgen. }
    destruct (body env input model isNative v w); cbn [step_world] in Hbody.
    + apply IH; assumption.
    + apply IH; assumption.
    + intros [= <-]. exact Hbody.
    + intros [= <-]. exact Hbody.
    + intros [= <-]. exact Hbody.
Qed.

(** X10.  Without an OpenRouter key the compatible provider is never called,
    in any thinking mode and for any model string: a compatible model is
    downgraded to the native default, and where deep mode installs a
    compatible model anyway the generation throws before any request. *)
Theorem no_key_no_compatible_call :
  forall (env : Env) (input : AgentInput) (fuel : nat) (run : Run),
    key_present (openrouter_api_key (profile input)) = false ->
    runAutonomousAgent env input fuel = Some run ->
    Forall not_compatible (trace (world run)).
Proof.
  intros env input fuel run Hkey H.
  destruct (thinkingMode input) eqn:Hmode.
  - unfold runAutonomousAgent in H. rewrite Hmode in H.
    destruct (freeCompletion env) as [[txt m] | t]; inversion H; subst; cbn [world];
      repeat constructor.
  - apply (run_keeps not_compatible I I (fun _ => I) env input fuel); [ | congruence | exact H ].
    intros v w e Hw. apply while_loop_not_compatible; assumption.
  - apply (run_keeps not_compatible I I (fun _ => I) env input fuel); [ | congruence | exact H ].
    intros v w e Hw. apply while_loop_not_compatible; assumption.
  - apply (run_keeps not_compatible I I (fun _ => I) env input fuel); [ | congruence | exact H ].
    intros v w e Hw. apply while_loop_not_compatible; assumption.
Qed.

Lemma no_key_no_compatible_call_witness :
  exists run,
    runAutonomousAgent (script (Some "{}") (fun _ => stream_of ["Hello."])
                               (fun _ => OpenRouterStream (["Hi"], None)) None)
                       (request "hi" (Some "openai/gpt-4o") deep
                                (mkProfile None (Some "anthropic/claude-3.5-sonnet") None)) 6
    = Some run
    /\ Forall not_compatible (trace (world run)).
Proof.
  destruct (runAutonomousAgent
              (script (Some "{}") (fun _ => stream_of ["Hello."])
                      (fun _ => OpenRouterStream (["Hi"], None)) None)
              (request "hi" (Some "openai/gpt-4o") deep
                       (mkProfile None (Some "anthropic/claude-3.5-sonnet") None)) 6)
    as [run | ] eqn:H.
  - exists run. split; [ reflexivity | ].
    eapply no_key_no_compatible_call; [ | exact H ]; reflexivity.
  - vm_compute in H. discriminate.
Defined.

Lemma aborted_from_start :
  forall env w, abortAt env = Some 0 -> aborted env w = true.
Proof. intros env w H. unfold aborted. rewrite H. reflexivity. Qed.

(** X11.  A request whose signal is already aborted when the handler is
    called (outside instant mode) never generates: the loop is left at its
    first check, no provider call is issued and the pass counter stays at
    zero.  (Routing and a pre-emptive search are not guarded and may still
    have run.) *)
Theorem cancelled_before_start_never_generates :
  forall (env : Env) (input : AgentInput) (fuel : nat) (run : Run),
    abortAt env = Some 0 ->
    thinkingMode input <> instant ->
    runAutonomousAgent env input fuel = Some run ->
    Forall not_generation (trace (world run))
    /\ loopCount run = 0
    /\ iterations run = []
    /\ exists m, result run = Returned [m].
Proof.
  intros env input fuel run Habort Hmode H.
  assert (Hloop : forall model isNative v w e,
            while_loop env input model isNative fuel 0 [] v w = Some e ->
            e = mkLoopEnd LoopAborted v w 0 []).
  { intros model isNative v w e. rewrite while_loop_eq.
    rewrite (aborted_from_start env w Habort). cbn. intros [= <-]. reflexivity. }
  split.
  - apply (run_keeps not_generation I I (fun _ => I) env input fuel); [ | exact Hmode | exact H ].
    intros v w e Hw He. rewrite (Hloop _ _ _ _ _ He). exact Hw.
  - destruct (run_cases env input fuel run H Hmode)
      as [(t & v & w & ->) | (model & isNative & v & w & e & He & ->)].
    + destruct (caught_counters env t v w 0 []) as (-> & -> & _).
      destruct (caught_returns_one env t v w 0 []) as (m & Hm & _). eauto.
    + rewrite (Hloop _ _ _ _ _ He). cbn. repeat split. eexists. reflexivity.
Qed.

Lemma cancelled_before_start_never_generates_witness :
  exists run,
    runAutonomousAgent (script (Some "{}") (fun _ => stream_of ["Hello."])
                               (fun _ => OpenRouterStream (["Hi"], None)) (Some 0))
                       (request "hi" None fast no_profile) 6 = Some run
    /\ Forall not_generation (trace (world run))
    /\ iterations run = [].
Proof.
  destruct (runAutonomousAgent
              (script (Some "{}") (fun _ => stream_of ["Hello."])
                      (fun _ => OpenRouterStream (["Hi"], None)) (Some 0))
              (request "hi" None fast no_profile) 6) as [run | ] eqn:H.
  - exists run. split; [ reflexivity | ].
    assert (G : Forall not_generation (trace (world run)) /\ loopCount run = 0
                /\ iterations run = [] /\ exists m, result run = Returned [m]).
    { eapply cancelled_before_start_never_generates; [ | | exact H ];
        [ reflexivity | discriminate ]. }
    destruct G as (H1 & _ & H3 & _).
    split; assumption.
  - vm_compute in H. discriminate.
Defined.

(** ** Model resolution, in every mode *)

Lemma blank_false_nonEmpty :
  forall m, blank (Some m) = false -> Js.nonEmpty m = true.
Proof.
  intros m H. unfold blank in H. apply orb_false_iff in H. destruct H as [H _].
  destruct (Js.nonEmpty m); [ reflexivity | discriminate ].
Qed.

Lemma substituteDefault_nonEmpty :
  forall m, Js.nonEmpty (substituteDefault m) = true.
Proof.
  intros [m | ]; [ | reflexivity ]. unfold substituteDefault.
  destruct (blank (Some m)) eqn:Hb; [ reflexivity | apply blank_false_nonEmpty; exact Hb ].
Qed.

Lemma truthy_or_nonEmpty :
  forall s d, Js.nonEmpty d = true -> Js.nonEmpty (truthy_or s d) = true.
Proof.
  intros [x | ] d Hd; unfold truthy_or; [ | exact Hd ].
  destruct (Js.nonEmpty x) eqn:Hx; assumption.
Qed.

(** X12.  Whatever the request, the model that model resolution settles on
    is never the empty string; when a thinking budget is set on the native
    provider it is a ['gemini-2.5'] or ['gemini-3'] model; think mode always
    resolves to native ['gemini-2.5-flash'] with a budget of 2048; and a
    request that resolves to the compatible provider outside deep mode has an
    OpenRouter key. *)
Theorem resolved_model_is_usable :
  forall (input : AgentInput) (w : World),
    Js.nonEmpty (res_model (fst (resolveModel input w))) = true
    /\ ((0 < res_thinkingBudget (fst (resolveModel input w)))%Z ->
        res_isNative (fst (resolveModel input w)) = true ->
        Js.includes (res_model (fst (resolveModel input w))) "gemini-2.5"
        || Js.includes (res_model (fst (resolveModel input w))) "gemini-3" = true)
    /\ (thinkingMode input = think ->
        fst (resolveModel input w) = mkResolved flash true 2048)
    /\ (res_isNative (fst (resolveModel input w)) = false ->
        thinkingMode input <> deep ->
        key_present (openrouter_api_key (profile input)) = true).
Proof.
  intros input w. unfold resolveModel.
  destruct (classify input w) as [r w1] eqn:Hc.
  assert (Hr : Js.nonEmpty (res_model r) = true
               /\ (res_isNative r = false ->
                   key_present (openrouter_api_key (profile input)) = true)).
  { unfold classify in Hc.
    destruct (negb (isGoogleModel (substituteDefault (model input)))
              && negb (key_present (openrouter_api_key (profile input)))) eqn:Hd;
      inversion Hc; subst; cbn [res_model res_isNative].
    - split; [ reflexivity | discriminate ].
    - split; [ apply substituteDefault_nonEmpty | ].
      intros Hn. rewrite Hn in Hd. cbn [negb andb] in Hd.
      destruct (key_present _); [ reflexivity | discriminate ]. }
  destruct Hr as [Hne Hkey].
  assert (Ha : Js.nonEmpty (res_model (apply_thinkingMode input r)) = true).
  { unfold apply_thinkingMode. destruct (thinkingMode input); cbn [res_model]; auto.
    apply truthy_or_nonEmpty. reflexivity. }
  unfold thinking_compatibility.
  destruct ((0 <? res_thinkingBudget (apply_thinkingMode input r))%Z
            && res_isNative (apply_thinkingMode input r)
            && negb (Js.includes (res_model (apply_thinkingMode input r)) "gemini-2.5")
            && negb (Js.includes (res_model (apply_thinkingMode input r)) "gemini-3")) eqn:Hcond;
    cbn [fst res_model res_thinkingBudget res_isNative].
  - apply andb_true_iff in Hcond. destruct Hcond as [Hcond _].
    apply andb_true_iff in Hcond. destruct Hcond as [Hcond _].
    apply andb_true_iff in Hcond. destruct Hcond as [_ Hnat].
    split; [ reflexivity | ]. split; [ intros; reflexivity | ]. split.
    + intros Hthink. unfold apply_thinkingMode. rewrite Hthink. reflexivity.
    + intros Hn. rewrite Hn in Hnat. discriminate.
  - split; [ exact Ha | ]. split; [ | split ].
    + intros Hb Hn. apply Z.ltb_lt in Hb. rewrite Hb, Hn in Hcond. cbn [andb] in Hcond.
      destruct (Js.includes _ "gemini-2.5"); [ reflexivity | ].
      destruct (Js.includes _ "gemini-3"); [ reflexivity | discriminate ].
    + intros Hthink. unfold apply_thinkingMode. rewrite Hthink. reflexivity.
    + intros Hn Hdeep. apply Hkey.
      unfold apply_thinkingMode in Hn.
      destruct (thinkingMode input); cbn [res_isNative] in Hn;
        try assumption; try discriminate; congruence.
Qed.

Lemma resolved_model_is_usable_witness :
  fst (resolveModel (request "hi" (Some "mistral/large") think no_profile) world0)
  = mkResolved flash true 2048.
Proof.
  destruct (resolved_model_is_usable (request "hi" (Some "mistral/large") think no_profile) world0)
    as (_ & _ & H & _).
  apply H. reflexivity.
Defined.

(** ** What one generation streams and accumulates *)

Lemma append_assoc' : forall a b c : string, (a ++ b) ++ c = a ++ (b ++ c).
Proof.
  induction a as [ | x a IH ]; intros b c; simpl; [ reflexivity | rewrite IH; reflexivity ].
Qed.

Lemma append_empty_r : forall a : string, a ++ "" = a.
Proof. induction a as [ | x a IH ]; simpl; [ reflexivity | rewrite IH; reflexivity ]. Qed.

Lemma push_grounding_final :
  forall g v, finalResponseText (push_grounding g v) = finalResponseText v.
Proof. intros [cs | ] v; reflexivity. Qed.

Lemma consume_native_accumulates :
  forall env chunks failure g v w o v1 w1,
    consume_native env chunks failure g v w = (o, v1, w1) ->
    exists k,
      streamed w1 = (streamed w ++ filter Js.nonEmpty (map chunk_text (firstn k chunks)))%list
      /\ finalResponseText v1
         = finalResponseText v ++ joined (filter Js.nonEmpty (map chunk_text (firstn k chunks)))
      /\ forall g', o = Returned g' ->
           g' = g ++ joined (filter Js.nonEmpty (map chunk_text (firstn k chunks))).
Proof.
  intros env chunks.
  induction chunks as [ | c chunks IH ]; intros failure g v w o v1 w1; cbn [consume_native].
  - intros H. exists 0. cbn [firstn map filter joined fold_right].
    rewrite app_nil_r, !append_empty_r.
    destruct failure; inversion H; subst; repeat split; try reflexivity.
    + intros g' [=].
    + intros g' [= <-]. reflexivity.
  - destruct (aborted env (tick w)).
    { intros [= <- <- <-]. exists 0. cbn [firstn map filter joined fold_right].
      rewrite app_nil_r, !append_empty_r. repeat split. intros g' [= <-]. reflexivity. }
    destruct (Js.nonEmpty (chunk_text c)) eqn:Hc.
    + destruct (canvas_closed (g ++ chunk_text c)).
      * intros [= <- <- <-]. exists 1.
        cbn [firstn map filter]. rewrite Hc. cbn [joined fold_right].
        rewrite push_grounding_final, append_empty_r. repeat split.
        intros g' [= <-]. reflexivity.
      * intros H. destruct (IH _ _ _ _ _ _ _ H) as (k & Hs & Hf & Hg).
        exists (S k). cbn [firstn map filter]. rewrite Hc. cbn [joined fold_right].
        fold (joined (filter Js.nonEmpty (map chunk_text (firstn k chunks)))).
        rewrite Hs, Hf, push_grounding_final. cbn [streamed onStreamChunk tick finalResponseText set_final].
        rewrite <- app_assoc, append_assoc'. repeat split.
        intros g' Hg'. rewrite (Hg g' Hg'), append_assoc'. reflexivity.
    + intros H. destruct (IH _ _ _ _ _ _ _ H) as (k & Hs & Hf & Hg).
      exists (S k). cbn [firstn map filter]. rewrite Hc.
      split; [ exact Hs | ]. split; [ exact Hf | exact Hg ].
Qed.

Lemma consume_openRouter_accumulates :
  forall env deltas failure g v w o v1 w1,
    consume_openRouter env deltas failure g v w = (o, v1, w1) ->
    exists k,
      streamed w1 = (streamed w ++ firstn k deltas)%list
      /\ finalResponseText v1 = finalResponseText v ++ joined (firstn k deltas)
      /\ forall g', o = Returned g' -> g' = g ++ joined (firstn k deltas).
Proof.
  intros env deltas.
  induction deltas as [ | d deltas IH ]; intros failure g v w o v1 w1; cbn [consume_openRouter].
  - intros H. exists 0. cbn [firstn joined fold_right].
    rewrite app_nil_r, !append_empty_r.
    destruct (aborted env (tick w)); [ | destruct failure ]; inversion H; subst;
      repeat split; try reflexivity; try (intros g' [=]; fail).
    intros g' [= <-]. reflexivity.
  - destruct (aborted env (tick w)).
    { intros [= <- <- <-]. exists 0. cbn [firstn joined fold_right].
      rewrite app_nil_r, !append_empty_r. repeat split. intros g' [=]. }
    intros H. destruct (IH _ _ _ _ _ _ _ H) as (k & Hs & Hf & Hg).
    exists (S k). cbn [firstn joined fold_right]. fold (joined (firstn k deltas)).
    rewrite Hs, Hf. cbn [streamed onStreamChunk tick finalResponseText set_final].
    rewrite <- app_assoc, append_assoc'. repeat split.
    intros g' Hg'. rewrite (Hg g' Hg'), append_assoc'. reflexivity.
Qed.

Lemma startsWith_app : forall (p rest : string), Js.startsWith (p ++ rest) p = true.
Proof.
  unfold Js.startsWith.
  induction p as [ | c p IH ]; intros rest.
  - destruct rest; reflexivity.
  - cbn [append String.prefix]. destruct (ascii_dec c c) as [_ | H]; [ apply IH | contradiction ].
Qed.

Lemma fallback_notice : forall (model : string),
  is_notice ("(Model " ++ model ++ " unavailable. Falling back to Gemini 2.5 Flash...)") = true.
Proof.
  intros model. unfold is_notice. rewrite (startsWith_app "(Model "). apply orb_true_r.
Qed.

Lemma retry_notice : forall (seconds : string),
  is_notice ("(Rate limit hit. Retrying in " ++ seconds ++ "s...)") = true.
Proof.
  intros seconds. unfold is_notice. rewrite (startsWith_app "(Rate limit hit. Retrying in ").
  reflexivity.
Qed.

Lemma retry_loop_streams_notices :
  forall env left attempt retries model prompt w,
    exists notices,
      streamed (snd (retry_loop env left attempt retries model prompt w))
      = (streamed w ++ notices)%list
      /\ Forall (fun n => is_notice n = true) notices.
Proof.
  intros env left.
  induction left as [ | left IH ]; intros attempt retries model prompt w; cbn [retry_loop].
  - exists []. cbn [snd]. rewrite app_nil_r. split; [ reflexivity | constructor ].
  - destruct (nativeReply env (nativeCalls w)) as [e | s]; cbn [snd].
    + destruct (isNotFound e).
      * destruct (String.eqb model flash); cbn [snd].
        -- eexists. split; [ reflexivity | ]. constructor; [ apply fallback_notice | constructor ].
        -- destruct (IH (S attempt) retries flash prompt
                       (onStreamChunk ("(Model " ++ model ++
                          " unavailable. Falling back to Gemini 2.5 Flash...)")
                          (tick (count_native (emit (EvNativeCall model prompt) w)))))
             as (ns & Hn & Hns).
           rewrite Hn. cbn [streamed onStreamChunk tick count_native emit].
           rewrite <- app_assoc. eexists. split; [ reflexivity | ].
           constructor; [ apply fallback_notice | exact Hns ].
      * destruct (isQuotaError e && (attempt <? retries)); cbn [snd].
        -- destruct (IH (S attempt) retries model prompt
                       (tick (emit (EvSleep (backoff_delay attempt))
                          (onStreamChunk ("(Rate limit hit. Retrying in " ++
                             Js.string_of_Z (round_seconds (backoff_delay attempt)) ++ "s...)")
                             (tick (count_native (emit (EvNativeCall model prompt) w)))))))
             as (ns & Hn & Hns).
           rewrite Hn. cbn [streamed onStreamChunk tick count_native emit].
           rewrite <- app_assoc. eexists. split; [ reflexivity | ].
           constructor; [ apply retry_notice | exact Hns ].
        -- exists []. cbn [streamed tick count_native emit]. rewrite app_nil_r.
           split; [ reflexivity | constructor ].
    + exists []. cbn [streamed tick count_native emit]. rewrite app_nil_r.
      split; [ reflexivity | constructor ].
Qed.

(** X13.  The text one generation adds to the reply is exactly, and in
    order, the concatenation of the deltas it handed to [onStreamChunk]:
    what is streamed after the retry ladder is what is accumulated.  The
    ladder's retry and fallback notices are streamed before the deltas and
    are not part of the reply; and the text the action router scans
    afterwards is that same concatenation.  This holds on both providers
    and however the generation ends (completion, cancellation, canvas tag,
    error). *)
Theorem generation_accumulates_what_it_streams :
  forall (env : Env) (input : AgentInput) (model : string) (isNative : bool)
         (v v1 : Vars) (w w1 : World) (o : Outcome string),
    generate env input model isNative v w = (o, v1, w1) ->
    exists notices deltas,
      streamed (after_ladder env model isNative v w) = (streamed w ++ notices)%list
      /\ Forall (fun n => is_notice n = true) notices
      /\ (isNative = false -> notices = [])
      /\ streamed w1 = (streamed (after_ladder env model isNative v w) ++ deltas)%list
      /\ finalResponseText v1 = finalResponseText v ++ joined deltas
      /\ forall generatedThisLoop, o = Returned generatedThisLoop ->
           generatedThisLoop = joined deltas.
Proof.
  intros env input model isNative v v1 w w1 o. unfold generate, after_ladder.
  destruct isNative.
  - unfold generateContentStreamWithRetry.
    set (m := if negb (Js.nonEmpty model) then flash else model).
    destruct (retry_loop_streams_notices env 4 0 3 m (currentPrompt v) w) as (notices & Hn & Hns).
    destruct (retry_loop env 4 0 3 m (currentPrompt v) w) as [[[chunks failure] | t] w0];
      cbn [snd] in Hn |- *.
    + intros H. destruct (consume_native_accumulates _ _ _ _ _ _ _ _ _ H) as (k & Hs & Hf & Hg).
      exists notices, (filter Js.nonEmpty (map chunk_text (firstn k chunks))).
      split; [ exact Hn | ]. split; [ exact Hns | ]. split; [ discriminate | ].
      split; [ exact Hs | ]. split; [ exact Hf | exact Hg ].
    + intros [= <- <- <-]. exists notices, []. cbn [joined fold_right].
      rewrite app_nil_r, append_empty_r.
      split; [ exact Hn | ]. split; [ exact Hns | ]. split; [ discriminate | ].
      repeat split. intros g [=].
  - assert (Hnone : forall w', streamed w' = streamed w ->
              forall v', finalResponseText v' = finalResponseText v ->
              exists notices deltas : list string,
                streamed w = (streamed w ++ notices)%list
                /\ Forall (fun n => is_notice n = true) notices
                /\ (false = false -> notices = [])
                /\ streamed w' = (streamed w ++ deltas)%list
                /\ finalResponseText v' = finalResponseText v ++ joined deltas
                /\ forall g t, Threw t = Returned g -> g = joined deltas).
    { intros w' Hw v' Hv. exists [], []. cbn [joined fold_right].
      rewrite !app_nil_r, append_empty_r. repeat split; auto. intros g t [=]. }
    destruct (negb (key_present (openrouter_api_key (profile input)))).
    { intros [= <- <- <-].
      destruct (Hnone w eq_refl v eq_refl) as (ns & ds & H1 & H2 & H3 & H4 & H5 & H6).
      exists ns, ds. repeat split; auto. intros g Hg. eapply H6. exact Hg. }
    destruct (hasImage (files input) && negb (vision_capable model)).
    { intros [= <- <- <-].
      destruct (Hnone w eq_refl v eq_refl) as (ns & ds & H1 & H2 & H3 & H4 & H5 & H6).
      exists ns, ds. repeat split; auto. intros g Hg. eapply H6. exact Hg. }
    destruct (aborted env _).
    { intros [= <- <- <-].
      destruct (Hnone (tick (count_openRouter (emit (EvOpenRouterCall model (currentPrompt v)) w)))
                  eq_refl v eq_refl) as (ns & ds & H1 & H2 & H3 & H4 & H5 & H6).
      exists ns, ds. repeat split; auto. intros g Hg. eapply H6. exact Hg. }
    destruct (openRouterReply env (openRouterCalls w)) as [e | [deltas failure]].
    { intros [= <- <- <-].
      destruct (Hnone (tick (count_openRouter (emit (EvOpenRouterCall model (currentPrompt v)) w)))
                  eq_refl v eq_refl) as (ns & ds & H1 & H2 & H3 & H4 & H5 & H6).
      exists ns, ds. repeat split; auto. intros g Hg. eapply H6. exact Hg. }
    intros H. destruct (consume_openRouter_accumulates _ _ _ _ _ _ _ _ _ H) as (k & Hs & Hf & Hg).
    exists [], (firstn k deltas). rewrite app_nil_r.
    cbn [streamed tick count_openRouter emit] in Hs.
    split; [ reflexivity | ]. split; [ constructor | ]. split; [ reflexivity | ].
    split; [ exact Hs | ]. split; [ exact Hf | exact Hg ].
Qed.

Lemma generation_accumulates_what_it_streams_witness :
  exists deltas,
    ["(Rate limit hit. Retrying in 3s...)"; "Hel"; "lo"]
    = (["(Rate limit hit. Retrying in 3s...)"] ++ deltas)%list
    /\ "Hello" = "" ++ joined deltas.
Proof.
  destruct (generation_accumulates_what_it_streams
              (script (Some "{}")
                      (fun n => match n with 0 => ApiError quota_error | _ => stream_of ["Hel"; ""; "lo"] end)
                      (fun _ => OpenRouterStream ([], None)) None)
              (request "hi" None fast no_profile) flash true
              (vars0 (request "hi" None fast no_profile))
              (set_final "Hello" (vars0 (request "hi" None fast no_profile)))
              world0
              (mkWorld 6 2 0 0 [EvNativeCall flash "hi"; EvSleep 3000; EvNativeCall flash "hi"]
                       ["(Rate limit hit. Retrying in 3s...)"; "Hel"; "lo"])
              (Returned "Hello") eq_refl)
    as (notices & deltas & _ & _ & _ & H1 & H2 & _).
  exists deltas. split; [ exact H1 | exact H2 ].
Defined.

Import Scenario3.

(** X14.  An image sent to a compatible-provider model without vision
    support is refused before any provider call is made, but the descriptive
    error is replaced by the flag [true] on its way to the outer [catch]: the
    reply is the warning marker followed by whatever [getUserFriendlyError]
    makes of [true], and the hint to switch models never reaches the user. *)
Theorem image_on_blind_model_is_refused :
  forall (env : Env) (input : AgentInput) (fuel : nat) (m memory : string) (action : RouterAction),
    model input = Some m ->
    blank (Some m) = false ->
    isGoogleModel m = false ->
    key_present (openrouter_api_key (profile input)) = true ->
    thinkingMode input = fast ->
    hasImage (files input) = true ->
    vision_capable m = false ->
    routeReply env = Returned action ->
    memoryContext env = Some memory ->
    Json.parse memory = Returned tt ->
    abortAt env = None ->
    exists run,
      runAutonomousAgent env input (S fuel) = Some run
      /\ exit run = ExitCaughtError
      /\ result run
         = Returned [ mkMessage (warning ++ getUserFriendlyError env (ThrownBool true)) None None ]
      /\ Forall not_generation (trace (world run))
      /\ iterations run = [1].
Proof.
  intros env input fuel m memory action Hm Hblank Hgoogle Hkey Hmode Himg Hvision
         Hroute Hmem Hparse Habort.
  unfold runAutonomousAgent. rewrite Hmode, Hroute, Hmem, Hparse.
  assert (Hres : resolveModel input (tick (emit EvMemoryFetch world0))
                 = (mkResolved m false 0, tick (emit EvMemoryFetch world0))).
  { unfold resolveModel, classify, substituteDefault. rewrite Hm, Hblank, Hgoogle, Hkey.
    cbn [negb andb]. unfold apply_thinkingMode. rewrite Hmode.
    unfold thinking_compatibility. reflexivity. }
  rewrite Hres. cbn [res_model res_isNative].
  destruct (preemptive_search env input (false || Js.includes m "perplexity") (vars0 input)
              (tick (emit EvRoute (tick (emit EvMemoryFetch world0))))) as [[o v1] w3] eqn:Hp.
  assert (Hw3 : Forall not_generation (trace w3)).
  { refine (preemptive_search_keeps not_generation (fun _ => I) env input _ _ _ _ _ _ _ Hp).
    repeat constructor. }
  destruct (preemptive_search_spec env input (false || Js.includes m "perplexity") (vars0 input)
              (tick (emit EvRoute (tick (emit EvMemoryFetch world0))))) as (v' & w' & Hp' & _).
  rewrite Hp in Hp'. inversion Hp'; subst o v' w'.
  rewrite while_loop_eq.
  assert (Hab : aborted env w3 = false) by (unfold aborted; rewrite Habort; reflexivity).
  rewrite Hab. cbn [Nat.ltb Nat.leb MAX_LOOPS negb].
  assert (Hbody : body env input m false (set_action action v1) w3
                  = StepThrow (ThrownBool true) (set_action action v1) w3).
  { unfold body, generate. rewrite Hkey, Himg, Hvision. reflexivity. }
  rewrite Hbody.
  eexists. split; [ reflexivity | ].
  cbn. repeat split. exact Hw3.
Qed.

Lemma image_on_blind_model_is_refused_witness :
  exists run,
    runAutonomousAgent (script (Some "{}") (fun _ => stream_of ["Hello."])
                               (fun _ => OpenRouterStream (["A cat."], None)) None)
                       blind_request 6 = Some run
    /\ exit run = ExitCaughtError
    /\ result run = Returned [ mkMessage (warning ++ "Something went wrong.") None None ].
Proof.
  destruct (image_on_blind_model_is_refused
              (script (Some "{}") (fun _ => stream_of ["Hello."])
                      (fun _ => OpenRouterStream (["A cat."], None)) None)
              blind_request 5 "mistral/mistral-large" "{}" SIMPLE
              eq_refl eq_refl eq_refl eq_refl eq_refl eq_refl eq_refl eq_refl eq_refl eq_refl eq_refl)
    as (run & H1 & H2 & H3 & _).
  exists run. repeat split; assumption.
Defined.

(** ** The session guard, further *)

Section GuardMore.
Import SessionGuard GuardStates.

Lemma running_request :
  forall (g : Guard) (id : nat) (r : Request) (k : Request -> Guard),
    request_at id g = Some r -> settled r = false -> while_running id g k = k r.
Proof.
  intros g id r k Hr Hs. unfold while_running. rewrite Hr, Hs. reflexivity.
Qed.

Lemma nth_error_update :
  forall (rs : list Request) (id : nat) (f : Request -> Request) (r : Request),
    nth_error rs id = Some r -> nth_error (update id f rs) id = Some (f r).
Proof.
  induction rs as [ | r0 rs IH ]; intros id f r H; destruct id as [ | id ];
    cbn [nth_error update] in *; try discriminate.
  - injection H as <-. reflexivity.
  - apply IH. exact H.
Qed.

Lemma aborted_update_clearTimeout :
  forall (rs : list Request) (id : nat),
    map signal_aborted (update id clearTimeout rs) = map signal_aborted rs.
Proof.
  induction rs as [ | r0 rs IH ]; intros id; destruct id as [ | id ]; cbn [update map].
  - reflexivity.
  - reflexivity.
  - reflexivity.
  - rewrite IH. reflexivity.
Qed.





(** With the flag down, a timer that comes due does nothing but disappear. *)
Lemma fire_when_idle :
  forall (g : Guard) (i : nat),
    isSendingRef g = false ->
    isSendingRef (fire i g) = false
    /\ toasts (fire i g) = toasts g
    /\ aiStatus (fire i g) = aiStatus g
    /\ abortControllerRef (fire i g) = abortControllerRef g
    /\ map signal_aborted (requests (fire i g)) = map signal_aborted (requests g).
Proof.
  intros g i Hflag. unfold fire.
  destruct (request_at i g) as [r | ]; [ | auto ].
  destruct (safetyTimeout r) as [due | ]; [ | auto ].
  destruct (due <=? now g)%Z; [ | auto ].
  unfold safetyTimeout_callback.
  destruct (request_at i (on_request i clearTimeout g)) as [r' | ];
    unfold on_request; cbn [set_requests isSendingRef]; rewrite ?Hflag; cbn [andb];
    cbn [set_requests isSendingRef toasts aiStatus abortControllerRef requests];
    rewrite aborted_update_clearTimeout; auto.
Qed.

Lemma fire_all_when_idle :
  forall (ids : list nat) (g : Guard),
    isSendingRef g = false ->
    isSendingRef (fold_left (fun g' id => fire id g') ids g) = false
    /\ toasts (fold_left (fun g' id => fire id g') ids g) = toasts g
    /\ aiStatus (fold_left (fun g' id => fire id g') ids g) = aiStatus g
    /\ abortControllerRef (fold_left (fun g' id => fire id g') ids g) = abortControllerRef g
    /\ map signal_aborted (requests (fold_left (fun g' id => fire id g') ids g))
       = map signal_aborted (requests g).
Proof.
  induction ids as [ | i ids IH ]; intros g Hflag; cbn [fold_left].
  - auto.
  - destruct (fire_when_idle g i Hflag) as (F1 & F2 & F3 & F4 & F5).
    destruct (IH (fire i g) F1) as (H1 & H2 & H3 & H4 & H5).
    repeat split; congruence.
Qed.

Lemma idle_stays :
  forall (waits : list Z) (g : Guard),
    isSendingRef g = false ->
    isSendingRef (run g (map Elapse waits)) = false
    /\ toasts (run g (map Elapse waits)) = toasts g
    /\ aiStatus (run g (map Elapse waits)) = aiStatus g
    /\ abortControllerRef (run g (map Elapse waits)) = abortControllerRef g
    /\ map signal_aborted (requests (run g (map Elapse waits)))
       = map signal_aborted (requests g).
Proof.
  unfold run.
  induction waits as [ | ms waits IH ]; intros g Hflag; cbn [map fold_left].
  - auto.
  - assert (Hstep : isSendingRef (step g (Elapse ms)) = false
                    /\ toasts (step g (Elapse ms)) = toasts g
                    /\ aiStatus (step g (Elapse ms)) = aiStatus g
                    /\ abortControllerRef (step g (Elapse ms)) = abortControllerRef g
                    /\ map signal_aborted (requests (step g (Elapse ms)))
                       = map signal_aborted (requests g)).
    { cbn [step]. unfold fire_due.
      apply (fire_all_when_idle _ (set_now (now g + ms)%Z g)). exact Hflag. }
    destruct Hstep as (F1 & F2 & F3 & F4 & F5).
    destruct (IH (step g (Elapse ms)) F1) as (H1 & H2 & H3 & H4 & H5).
    repeat split; congruence.
Qed.

Lemma aborted_at :
  forall (rs rs' : list Request) (id : nat) (r : Request),
    map signal_aborted rs' = map signal_aborted rs ->
    nth_error rs id = Some r ->
    exists r', nth_error rs' id = Some r' /\ signal_aborted r' = signal_aborted r.
Proof.
  intros rs rs' id r Hmap Hr.
  pose proof (map_nth_error signal_aborted id rs Hr) as H. rewrite <- Hmap in H.
  rewrite nth_error_map in H.
  destruct (nth_error rs' id) as [r' | ]; [ | discriminate ].
  cbn [option_map] in H. injection H as H. exists r'. auto.
Qed.

(** X16.  Stopping a request disarms its safety timeout for good: whatever
    happened before and however long one waits afterwards, the only message
    added is "Generation stopped.", the status is idle, the guard is down,
    the signal of the request that was current is aborted and no time-out is
    ever reported. *)
Theorem stop_silences_the_timeout :
  forall (g : Guard) (waits : list Z),
    toasts (run g (Stop :: map Elapse waits))
    = (toasts g ++ [ mkToast "Generation stopped." "info" ])%list
    /\ aiStatus (run g (Stop :: map Elapse waits)) = idle
    /\ isSendingRef (run g (Stop :: map Elapse waits)) = false
    /\ abortControllerRef (run g (Stop :: map Elapse waits)) = None
    /\ (forall id r,
          abortControllerRef g = Some id -> request_at id g = Some r ->
          exists r', request_at id (run g (Stop :: map Elapse waits)) = Some r'
                     /\ signal_aborted r' = true).
Proof.
  intros g waits.
  change (run g (Stop :: map Elapse waits)) with (run (step g Stop) (map Elapse waits)).
  destruct (idle_stays waits (step g Stop)) as (H1 & H2 & H3 & H4 & H5).
  { cbn [step]. unfold handleStopGeneration. reflexivity. }
  rewrite H2, H3, H4.
  split; [ cbn [step]; unfold handleStopGeneration; destruct (abortControllerRef g); reflexivity | ].
  split; [ reflexivity | ].
  split; [ exact H1 | ]. split.
  - cbn [step]. unfold handleStopGeneration.
    destruct (abortControllerRef g) eqn:E; [ reflexivity | exact E ].
  - intros id r Hc Hr.
    assert (Hstop : request_at id (step g Stop) = Some (abort r)).
    { cbn [step]. unfold handleStopGeneration. rewrite Hc.
      unfold request_at in *. cbn. apply nth_error_update. exact Hr. }
    destruct (aborted_at _ _ id (abort r) H5 Hstop) as (r' & Hr' & Ha).
    exists r'. split; [ exact Hr' | ]. rewrite Ha. reflexivity.
Qed.

Lemma finally_block_spec :
  forall (g : Guard) (id : nat) (r : Request),
    request_at id g = Some r ->
    isSendingRef (finally_block g id r) = false
    /\ request_at id (finally_block g id r)
       = Some (mkRequest (targetChatId r) (signal_aborted r) None true)
    /\ aiStatus (finally_block g id r) = aiStatus g
    /\ toasts (finally_block g id r) = toasts g
    /\ isSending (finally_block g id r)
       = (if isMounted g && same_chat g r then false else isSending g)
    /\ isLoading (finally_block g id r)
       = (if isMounted g && same_chat g r then false else isLoading g).
Proof.
  intros g id r Hr. unfold finally_block.
  assert (Hreq : request_at id (set_isSendingRef false
                   (on_request id (fun r' => settle (clearTimeout r')) g))
                 = Some (mkRequest (targetChatId r) (signal_aborted r) None true)).
  { unfold request_at in *. cbn [set_isSendingRef on_request set_requests requests].
    rewrite (nth_error_update _ _ _ r Hr). reflexivity. }
  change (isMounted (set_isSendingRef false
            (on_request id (fun r' => settle (clearTimeout r')) g))) with (isMounted g).
  change (same_chat (set_isSendingRef false
            (on_request id (fun r' => settle (clearTimeout r')) g)) r) with (same_chat g r).
  destruct (isMounted g && same_chat g r).
  - split; [ reflexivity | ]. split; [ exact Hreq | ]. repeat split.
  - split; [ reflexivity | ]. split; [ exact Hreq | ]. repeat split.
Qed.

(** X17.  The end of a call.  However the call of a request ends, its
    [finally] block lowers the shared guard flag and clears the request's
    timer, so that the next send is accepted and no amount of waiting
    produces a message afterwards.  After [return agentResult] the block
    resets [isSending] and [isLoading] only if the view is still mounted and
    still on the request's chat, and it leaves the status as it is. *)
Theorem completion_releases_the_guard :
  forall (g : Guard) (id : nat) (r : Request) (chat : string) (waits : list Z),
    request_at id g = Some r ->
    settled r = false ->
    (forall ev,
       ends_call id r ev = true ->
       isSendingRef (step g ev) = false
       /\ request_at id (step g ev)
          = Some (mkRequest (targetChatId r) (signal_aborted r) None true)
       /\ (exists g', handleSendMessage_begin true chat (step g ev) = Some g')
       /\ toasts (run (step g ev) (map Elapse waits)) = toasts (step g ev))
    /\ aiStatus (step g (Returns id)) = aiStatus g
    /\ toasts (step g (Returns id)) = toasts g
    /\ isSending (step g (Returns id))
       = (if isMounted g && same_chat g r then false else isSending g)
    /\ isLoading (step g (Returns id))
       = (if isMounted g && same_chat g r then false else isLoading g).
Proof.
  intros g id r chat waits Hr Hs.
  assert (Hend : forall g1,
            request_at id g1 = Some r ->
            isSendingRef (finally_block g1 id r) = false
            /\ request_at id (finally_block g1 id r)
               = Some (mkRequest (targetChatId r) (signal_aborted r) None true)
            /\ (exists g', handleSendMessage_begin true chat (finally_block g1 id r) = Some g')
            /\ toasts (run (finally_block g1 id r) (map Elapse waits))
               = toasts (finally_block g1 id r)).
  { intros g1 Hr1. destruct (finally_block_spec g1 id r Hr1) as (F1 & F2 & _).
    split; [ exact F1 | ]. split; [ exact F2 | ]. split.
    - unfold handleSendMessage_begin. rewrite F1. cbn [negb]. eexists. reflexivity.
    - destruct (idle_stays waits (finally_block g1 id r) F1) as (_ & H & _). exact H. }
  split.
  - intros ev Hev.
    destruct ev as [sendable c | ms | | c | | | busy | i chunk | i | i | i | i | i | i name message];
      cbn [ends_call] in Hev; try discriminate;
      try (apply andb_prop in Hev; destruct Hev as [Hev Hab]);
      apply Nat.eqb_eq in Hev; subst i; cbn [step]; rewrite (running_request g id r _ Hr Hs).
    + apply Hend. exact Hr.
    + replace (if signal_aborted r then finally_block (setAiStatus idle g) id r else g)
        with (finally_block (setAiStatus idle g) id r) by (rewrite Hab; reflexivity).
      apply Hend. exact Hr.
    + apply Hend. exact Hr.
    + apply Hend. unfold catch_block.
      destruct (signal_aborted r || _); [ exact Hr | ].
      destruct (isMounted _ && same_chat _ r); exact Hr.
  - cbn [step]. rewrite (running_request g id r _ Hr Hs).
    destruct (finally_block_spec g id r Hr) as (_ & _ & F3 & F4 & F5 & F6). auto.
Qed.

Lemma completion_releases_the_guard_witness :
  isSendingRef
    (step (mkGuard 0 true (Some 0) true (Some "chat-2") None true true thinking []
             [ mkRequest "chat-1" false (Some 300000%Z) false ])
          (Caught 0 (Some "TypeError") (Some "Failed to fetch"))) = false
  /\ isSending
       (step (mkGuard 0 true (Some 0) true (Some "chat-2") None true true thinking []
                [ mkRequest "chat-1" false (Some 300000%Z) false ])
             (Returns 0)) = true.
Proof.
  destruct (completion_releases_the_guard
              (mkGuard 0 true (Some 0) true (Some "chat-2") None true true thinking []
                 [ mkRequest "chat-1" false (Some 300000%Z) false ])
              0 (mkRequest "chat-1" false (Some 300000%Z) false) "chat-3" [300000%Z]
              eq_refl eq_refl) as (H & _ & _ & Hsending & _).
  split.
  - destruct (H (Caught 0 (Some "TypeError") (Some "Failed to fetch")) eq_refl) as (Hflag & _).
    exact Hflag.
  - rewrite Hsending. reflexivity.
Defined.

End GuardMore.

(** ** The stream callback *)

Section SinkFacts.
Import StreamSink.

Lemma is_prefix_refl : forall s, is_prefix s s.
Proof. intros s. exists "". rewrite append_empty_r. reflexivity. Qed.

Lemma is_prefix_app : forall p s t, is_prefix p s -> is_prefix p (s ++ t).
Proof.
  intros p s t [rest ->]. exists (rest ++ t). apply append_assoc'.
Qed.

Lemma aborted_sink_is_deaf :
  forall target evs s,
    aborted s = true ->
    currentText (run target s evs) = currentText s
    /\ shownText (run target s evs) = shownText s.
Proof.
  unfold run.
  intros target evs. induction evs as [ | ev evs IH ]; intros s Ha; cbn [fold_left].
  - auto.
  - destruct ev as [text | id | | ]; cbn [step].
    + unfold onStreamChunk. rewrite Ha. apply IH. exact Ha.
    + destruct (IH (mkSink (currentText s) (shownText s) id (isMounted s) (aborted s)
                           (timerPending s) (aiStatus s) (activityLog s)) Ha) as [H1 H2].
      rewrite H1, H2. auto.
    + destruct (IH (mkSink (currentText s) (shownText s) (activeChatId s) false (aborted s)
                           (timerPending s) (aiStatus s) (activityLog s)) Ha) as [H1 H2].
      rewrite H1, H2. auto.
    + destruct (IH (mkSink (currentText s) (shownText s) (activeChatId s) (isMounted s) true
                           (timerPending s) (aiStatus s) (activityLog s)) eq_refl) as [H1 H2].
      rewrite H1, H2. auto.
Qed.

Lemma onStreamChunk_spec :
  forall target text s,
    aborted s = false ->
    currentText (onStreamChunk target text s) = currentText s ++ text
    /\ aborted (onStreamChunk target text s) = false
    /\ timerPending (onStreamChunk target text s) = false
    /\ (shownText (onStreamChunk target text s) = shownText s
        \/ shownText (onStreamChunk target text s) = currentText s ++ text).
Proof.
  intros target text s Ha. unfold onStreamChunk. rewrite Ha.
  destruct (String.eqb (activeChatId s) target).
  - destruct (status_of text s) as [status log]. cbn.
    destruct (isMounted s); auto.
  - cbn. auto.
Qed.

(** X18.  Streamed text survives navigation.  Whatever the user does while a
    request streams (switching chats, leaving the view), the text accumulated
    for persistence is exactly the chunks delivered before the request was
    aborted, in order; chunks after the abort are dropped; and the text on
    screen is never anything but a prefix of the accumulated text. *)
Theorem stream_text_survives_navigation :
  forall (target : string) (evs : list SinkEvent) (s : Sink),
    aborted s = false ->
    is_prefix (shownText s) (currentText s) ->
    currentText (run target s evs) = currentText s ++ joined (delivered evs)
    /\ is_prefix (shownText (run target s evs)) (currentText (run target s evs)).
Proof.
  unfold run.
  intros target evs. induction evs as [ | ev evs IH ]; intros s Ha Hp; cbn [fold_left delivered].
  - cbn [joined fold_right]. rewrite append_empty_r. auto.
  - destruct ev as [text | id | | ]; cbn [step].
    + destruct (onStreamChunk_spec target text s Ha) as (Hc & Ha' & _ & Hs).
      destruct (IH (onStreamChunk target text s) Ha') as [H1 H2].
      { destruct Hs as [-> | ->]; rewrite Hc;
          [ apply is_prefix_app; exact Hp | apply is_prefix_refl ]. }
      split; [ | exact H2 ].
      rewrite H1, Hc. cbn [joined fold_right]. apply append_assoc'.
    + apply (IH (mkSink (currentText s) (shownText s) id (isMounted s) (aborted s)
                        (timerPending s) (aiStatus s) (activityLog s))); assumption.
    + apply (IH (mkSink (currentText s) (shownText s) (activeChatId s) false (aborted s)
                        (timerPending s) (aiStatus s) (activityLog s))); assumption.
    + destruct (aborted_sink_is_deaf target evs
                  (mkSink (currentText s) (shownText s) (activeChatId s) (isMounted s) true
                          (timerPending s) (aiStatus s) (activityLog s)) eq_refl) as [H1 H2].
      fold (run target (mkSink (currentText s) (shownText s) (activeChatId s) (isMounted s) true
                               (timerPending s) (aiStatus s) (activityLog s)) evs).
      rewrite H1, H2. cbn [currentText shownText joined fold_right].
      rewrite append_empty_r. auto.
Qed.

Lemma stream_text_survives_navigation_witness :
  currentText
    (run "chat-1" (mkSink "" "" "chat-1" true false true SessionGuard.thinking [])
         [Chunk "Hel"; SwitchChat "chat-2"; Chunk "lo"; Abort; Chunk "!"])
  = "" ++ joined ["Hel"; "lo"].
Proof.
  destruct (stream_text_survives_navigation "chat-1"
              [Chunk "Hel"; SwitchChat "chat-2"; Chunk "lo"; Abort; Chunk "!"]
              (mkSink "" "" "chat-1" true false true SessionGuard.thinking [])
              eq_refl (is_prefix_refl "")) as [H _].
  exact H.
Defined.

End SinkFacts.

(** ** The instant-mode completion chain (services/freeLlmService.ts) *)

Section FreeFacts.
Import FreeLlm.

Lemma take_drop : forall (n : nat) (s : string), take n s ++ Js.drop n s = s.
Proof.
  induction n as [ | n IH ]; intros s.
  - reflexivity.
  - destruct s as [ | c r ]; [ reflexivity | ].
    cbn [take Js.drop append]. rewrite IH. reflexivity.
Qed.

Lemma drop_length : forall (n : nat) (s : string),
  String.length (Js.drop n s) = String.length s - n.
Proof.
  induction n as [ | n IH ]; intros s.
  - cbn [Js.drop]. lia.
  - destruct s as [ | c r ]; [ reflexivity | ].
    cbn [Js.drop String.length]. rewrite IH. lia.
Qed.

Lemma take_length : forall (n : nat) (s : string),
  String.length (take n s) = Nat.min n (String.length s).
Proof.
  induction n as [ | n IH ]; intros s.
  - reflexivity.
  - destruct s as [ | c r ]; [ reflexivity | ].
    cbn [take String.length]. rewrite IH. lia.
Qed.

Lemma joined_app : forall (a b : list string), joined (a ++ b) = joined a ++ joined b.
Proof.
  induction a as [ | x a IH ]; intros b.
  - reflexivity.
  - cbn [app joined fold_right]. fold (joined (a ++ b)). fold (joined a).
    rewrite IH. symmetry. apply append_assoc'.
Qed.

(** Slicing loses and reorders nothing, for a positive chunk size. *)
Lemma joined_slices : forall (fuel chunkSize : nat) (s : string),
  0 < chunkSize -> String.length s <= fuel -> joined (slices fuel chunkSize s) = s.
Proof.
  induction fuel as [ | fuel IH ]; intros chunkSize s Hpos Hlen.
  - destruct s; [ reflexivity | cbn [String.length] in Hlen; lia ].
  - destruct s as [ | c r ]; [ reflexivity | ].
    cbn [slices joined fold_right]. fold (joined (slices fuel chunkSize (Js.drop chunkSize (String c r)))).
    rewrite IH.
    + apply take_drop.
    + exact Hpos.
    + rewrite drop_length. cbn [String.length] in *. lia.
Qed.

Lemma slices_sizes : forall (fuel chunkSize : nat) (s : string),
  0 < chunkSize ->
  Forall (fun c => 1 <= String.length c <= chunkSize) (slices fuel chunkSize s).
Proof.
  induction fuel as [ | fuel IH ]; intros chunkSize s Hpos.
  - constructor.
  - destruct s as [ | c r ]; [ constructor | ].
    cbn [slices]. constructor.
    + rewrite take_length. cbn [String.length]. lia.
    + apply IH. exact Hpos.
Qed.

Lemma simulate_streaming_spec : forall (onStream : bool) (chunkSize : nat) (text : string) (l : Log),
  0 < chunkSize ->
  exists chunks,
    simulate_streaming onStream chunkSize text l
    = mkLog (streamed l ++ chunks) (calls l) (polls l)
    /\ (onStream = true -> joined chunks = text)
    /\ (onStream = false -> chunks = [])
    /\ Forall (fun c => 1 <= String.length c <= chunkSize) chunks.
Proof.
  intros onStream chunkSize text l Hpos. unfold simulate_streaming.
  destruct onStream.
  - exists (slices (String.length text) chunkSize text).
    split; [ reflexivity | ]. split; [ | split ].
    + intros _. apply joined_slices; [ exact Hpos | lia ].
    + discriminate.
    + apply slices_sizes. exact Hpos.
  - exists []. rewrite app_nil_r. destruct l.
    split; [ reflexivity | ]. split; [ discriminate | ]. split; [ reflexivity | constructor ].
Qed.

(** What polling for Puter comes to. *)
Lemma waitForPuter_from_never : forall (env : Env) (left i : nat),
  puterAppearsAt env = None -> waitForPuter_from env left i = (false, left).
Proof.
  intros env left. induction left as [ | left IH ]; intros i Hn.
  - reflexivity.
  - cbn [waitForPuter_from]. unfold puter_present. rewrite Hn.
    rewrite (IH (S i) Hn). reflexivity.
Qed.

Lemma waitForPuter_from_at : forall (env : Env) (k left i : nat),
  puterAppearsAt env = Some k -> i <= k ->
  waitForPuter_from env left i
  = if k - i <? left then (true, k - i) else (false, left).
Proof.
  intros env k left. induction left as [ | left IH ]; intros i Hk Hi.
  - reflexivity.
  - cbn [waitForPuter_from]. unfold puter_present. rewrite Hk.
    destruct (Nat.leb_spec k i) as [Hle | Hgt].
    + replace (k - i) with 0 by lia. reflexivity.
    + rewrite (IH (S i) Hk) by lia.
      destruct (Nat.ltb_spec (k - S i) left) as [H1 | H1];
        destruct (Nat.ltb_spec (k - i) (S left)) as [H2 | H2]; try lia.
      * replace (k - i) with (S (k - S i)) by lia. reflexivity.
      * reflexivity.
Qed.

Lemma waitForPuter_spec : forall (env : Env),
  waitForPuter env
  = if hasWindow env then
      match puterAppearsAt env with
      | Some k => if k <? 20 then (true, k) else (false, 20)
      | None => (false, 20)
      end
    else (false, 0).
Proof.
  intros env. unfold waitForPuter.
  destruct (hasWindow env); [ | reflexivity ]. cbn [negb].
  destruct (puterAppearsAt env) as [k | ] eqn:Hk.
  - rewrite (waitForPuter_from_at env k 20 0 Hk) by lia.
    rewrite Nat.sub_0_r. reflexivity.
  - apply waitForPuter_from_never. exact Hk.
Qed.

Lemma tryPuter_ok : forall env onStream l, attempt_ok 8 onStream (tryPuter env onStream l) l.
Proof.
  intros env onStream l. unfold tryPuter, attempt_ok.
  destruct (waitForPuter env) as [isLoaded waited].
  destruct isLoaded; cbn [fst snd wait polls streamed]; [ | split; [ lia | reflexivity ] ].
  destruct (puterChat env) as [resp | t]; cbn [fst snd call wait polls streamed];
    [ | split; [ lia | reflexivity ] ].
  destruct (Js.nonEmpty (puter_text resp)); cbn [negb fst snd call wait polls streamed];
    [ | split; [ lia | reflexivity ] ].
  destruct (simulate_streaming_spec onStream 8 (puter_text resp)
              (call PuterChat (wait waited l))) as (chunks & -> & Ht & Hf & Hs); [ lia | ].
  cbn [polls streamed call wait text]. split; [ lia | ].
  exists chunks. repeat split; auto.
  intros Hon. exists (puter_text resp). auto.
Qed.

Lemma tryHuggingFace_ok : forall env onStream l,
  attempt_ok 8 onStream (tryHuggingFace env onStream l) l.
Proof.
  intros env onStream l. unfold tryHuggingFace, attempt_ok.
  destruct (hfFetch env) as [e | status body]; cbn [fst snd call polls streamed];
    [ split; [ lia | reflexivity ] | ].
  destruct (resp_ok status); cbn [negb fst snd call polls streamed];
    [ | split; [ lia | reflexivity ] ].
  destruct (hf_text body) as [[t | ] | t]; cbn [fst snd call polls streamed];
    try (split; [ lia | reflexivity ]).
  destruct (Js.nonEmpty t); cbn [fst snd call polls streamed];
    [ | split; [ lia | reflexivity ] ].
  destruct (simulate_streaming_spec onStream 8 t (call HuggingFaceFetch l))
    as (chunks & -> & Ht & Hf & Hs); [ lia | ].
  cbn [polls streamed call text]. split; [ lia | ].
  exists chunks. repeat split; auto.
  intros Hon. exists t. auto.
Qed.

Lemma tryLegacyApi_ok : forall env onStream l,
  attempt_ok 4 onStream (tryLegacyApi env onStream l) l.
Proof.
  intros env onStream l. unfold tryLegacyApi, attempt_ok.
  destruct (legacyFetch env) as [e | status body]; cbn [fst snd call polls streamed];
    [ split; [ lia | reflexivity ] | ].
  destruct (resp_ok status); cbn [negb fst snd call polls streamed];
    [ | split; [ lia | reflexivity ] ].
  destruct body as [ | | data]; cbn [fst snd call polls streamed];
    try (split; [ lia | reflexivity ]).
  destruct (is_success data); cbn [fst snd call polls streamed];
    [ | split; [ lia | reflexivity ] ].
  destruct (response data) as [aiText | ].
  - destruct (simulate_streaming_spec onStream 4 aiText (call LegacyFetch l))
      as (chunks & -> & Ht & Hf & Hs); [ lia | ].
    cbn [fst snd polls streamed call text]. split; [ lia | ].
    exists chunks. repeat split; auto.
    intros Hon. exists aiText. auto.
  - destruct onStream; cbn [fst snd call polls streamed].
    + split; [ lia | reflexivity ].
    + split; [ lia | ]. exists []. rewrite app_nil_r.
      split; [ reflexivity | ]. split; [ discriminate | ]. split; [ reflexivity | constructor ].
Qed.

(** The provider calls one attempt adds to the log. *)
Lemma tryPuter_calls : forall env onStream l,
  calls (snd (tryPuter env onStream l))
  = (calls l ++ (if fst (waitForPuter env) then [PuterChat] else []))%list
  /\ polls (snd (tryPuter env onStream l)) = polls l + snd (waitForPuter env).
Proof.
  intros env onStream l. unfold tryPuter.
  destruct (waitForPuter env) as [isLoaded waited]. cbn [fst snd].
  destruct isLoaded.
  - destruct (puterChat env) as [resp | t]; [ | cbn; auto ].
    destruct (Js.nonEmpty (puter_text resp)); [ | cbn; auto ].
    unfold simulate_streaming. destruct onStream; cbn; auto.
  - cbn. rewrite app_nil_r. auto.
Qed.

Lemma tryHuggingFace_calls : forall env onStream l,
  calls (snd (tryHuggingFace env onStream l)) = (calls l ++ [HuggingFaceFetch])%list
  /\ polls (snd (tryHuggingFace env onStream l)) = polls l.
Proof.
  intros env onStream l. unfold tryHuggingFace.
  destruct (hfFetch env) as [e | status body]; [ cbn; auto | ].
  destruct (resp_ok status); [ | cbn; auto ].
  destruct (hf_text body) as [[t | ] | t]; try (cbn; auto; fail).
  destruct (Js.nonEmpty t); [ | cbn; auto ].
  unfold simulate_streaming. destruct onStream; cbn; auto.
Qed.

Lemma tryLegacyApi_calls : forall env onStream l,
  calls (snd (tryLegacyApi env onStream l)) = (calls l ++ [LegacyFetch])%list
  /\ polls (snd (tryLegacyApi env onStream l)) = polls l.
Proof.
  intros env onStream l. unfold tryLegacyApi.
  destruct (legacyFetch env) as [e | status body]; [ cbn; auto | ].
  destruct (resp_ok status); [ | cbn; auto ].
  destruct body as [ | | data]; try (cbn; auto; fail).
  destruct (is_success data); [ | cbn; auto ].
  destruct (response data) as [aiText | ].
  - unfold simulate_streaming. destruct onStream; cbn; auto.
  - destruct onStream; cbn; auto.
Qed.

(** Whether a provider answers does not depend on what was logged before. *)
Lemma tryPuter_fst : forall env onStream l,
  fst (tryPuter env onStream l) = fst (tryPuter env onStream log0).
Proof.
  intros env onStream l. unfold tryPuter.
  destruct (waitForPuter env) as [isLoaded waited].
  destruct isLoaded; [ | reflexivity ].
  destruct (puterChat env) as [resp | t]; [ | reflexivity ].
  destruct (Js.nonEmpty (puter_text resp)); reflexivity.
Qed.

Lemma tryHuggingFace_fst : forall env onStream l,
  fst (tryHuggingFace env onStream l) = fst (tryHuggingFace env onStream log0).
Proof.
  intros env onStream l. unfold tryHuggingFace.
  destruct (hfFetch env) as [e | status body]; [ reflexivity | ].
  destruct (resp_ok status); [ | reflexivity ].
  destruct (hf_text body) as [[t | ] | t]; try reflexivity.
  destruct (Js.nonEmpty t); reflexivity.
Qed.

Lemma tryLegacyApi_fst : forall env onStream l,
  fst (tryLegacyApi env onStream l) = fst (tryLegacyApi env onStream log0).
Proof.
  intros env onStream l. unfold tryLegacyApi.
  destruct (legacyFetch env) as [e | status body]; [ reflexivity | ].
  destruct (resp_ok status); [ | reflexivity ].
  destruct body as [ | | data]; try reflexivity.
  destruct (is_success data); [ | reflexivity ].
  destruct (response data) as [aiText | ]; [ reflexivity | ].
  destruct onStream; reflexivity.
Qed.

(** No provider signs its answer with the name reserved for failure. *)
Lemma tryPuter_model : forall env onStream l r l',
  tryPuter env onStream l = (Returned r, l') -> modelUsed r <> "Error".
Proof.
  intros env onStream l r l'. unfold tryPuter.
  destruct (waitForPuter env) as [isLoaded waited].
  destruct isLoaded; [ | discriminate ].
  destruct (puterChat env) as [resp | t]; [ | discriminate ].
  destruct (Js.nonEmpty (puter_text resp)); [ | discriminate ].
  cbn [negb]. intros H. injection H as <- _. cbn [modelUsed].
  unfold puter_model. destruct resp as [s | mc c str [m | ] | ]; try discriminate.
  destruct (Js.nonEmpty m); discriminate.
Qed.

Lemma tryHuggingFace_model : forall env onStream l r l',
  tryHuggingFace env onStream l = (Returned r, l') -> modelUsed r <> "Error".
Proof.
  intros env onStream l r l'. unfold tryHuggingFace.
  destruct (hfFetch env) as [e | status body]; [ discriminate | ].
  destruct (resp_ok status); [ | discriminate ].
  destruct (hf_text body) as [[t | ] | t]; try discriminate.
  destruct (Js.nonEmpty t); [ | discriminate ].
  cbn [negb]. intros H. injection H as <- _. discriminate.
Qed.

Lemma tryLegacyApi_model : forall env onStream l r l',
  tryLegacyApi env onStream l = (Returned r, l') -> modelUsed r = "Legacy API".
Proof.
  intros env onStream l r l'. unfold tryLegacyApi.
  destruct (legacyFetch env) as [e | status body]; [ discriminate | ].
  destruct (resp_ok status); [ | discriminate ].
  destruct body as [ | | data]; try discriminate.
  destruct (is_success data); [ | discriminate ].
  cbn [negb].
  destruct (response data) as [aiText | ].
  - intros H. injection H as <- _. reflexivity.
  - destruct onStream; [ discriminate | ]. intros H. injection H as <- _. reflexivity.
Qed.

(** The chain, case by case. *)
Lemma generateFreeCompletion_cases : forall env onStream,
  let p := tryPuter env onStream log0 in
  let h := tryHuggingFace env onStream (snd p) in
  let g := tryLegacyApi env onStream (snd h) in
  (exists r, fst p = Returned r /\ generateFreeCompletion env onStream = (Returned r, snd p))
  \/ (failed p = true
      /\ exists r, fst h = Returned r /\ generateFreeCompletion env onStream = (Returned r, snd h))
  \/ (failed p = true /\ failed h = true
      /\ exists r, fst g = Returned r /\ generateFreeCompletion env onStream = (Returned r, snd g))
  \/ (failed p = true /\ failed h = true /\ failed g = true
      /\ generateFreeCompletion env onStream
         = (Returned (mkFree (Some busy) "Error"),
            if onStream then stream [busy] (snd g) else snd g)).
Proof.
  intros env onStream p h g. unfold generateFreeCompletion, try_catch, failed.
  subst g h p.
  destruct (tryPuter env onStream log0) as [[r | t] l1]; cbn [fst snd].
  - left. exists r. auto.
  - right.
    destruct (tryHuggingFace env onStream l1) as [[r | t'] l2]; cbn [fst snd].
    + left. split; [ reflexivity | ]. exists r. auto.
    + right.
      destruct (tryLegacyApi env onStream l2) as [[r | t''] l3]; cbn [fst snd].
      * left. repeat split. exists r. auto.
      * right. repeat split.
Qed.

(** X19.  The free completion service always answers.  Whatever the three
    providers do, [generateFreeCompletion] returns a result and never
    rejects; the result is signed 'Error' exactly when Puter, Hugging Face and
    the legacy API all failed, and then its text is the busy message. *)
Theorem free_completion_always_answers :
  forall (env : Env) (onStream : bool),
    exists r l,
      generateFreeCompletion env onStream = (Returned r, l)
      /\ (modelUsed r = "Error"
          <-> failed (tryPuter env onStream log0) = true
              /\ failed (tryHuggingFace env onStream log0) = true
              /\ failed (tryLegacyApi env onStream log0) = true)
      /\ (modelUsed r = "Error" -> FreeLlm.text r = Some busy).
Proof.
  intros env onStream.
  pose proof (generateFreeCompletion_cases env onStream) as H. cbv zeta in H.
  unfold failed in *.
  rewrite (tryHuggingFace_fst env onStream (snd (tryPuter env onStream log0))) in H.
  rewrite (tryLegacyApi_fst env onStream
             (snd (tryHuggingFace env onStream (snd (tryPuter env onStream log0))))) in H.
  destruct H as [(r & Hr & ->) | [(Hp & r & Hr & ->) | [(Hp & Hh & r & Hr & ->) | (Hp & Hh & Hg & ->)]]].
  - exists r, (snd (tryPuter env onStream log0)).
    assert (Hm : modelUsed r <> "Error").
    { eapply (tryPuter_model env onStream log0 r). apply injective_projections; [ exact Hr | reflexivity ]. }
    split; [ reflexivity | ]. split; [ split | ].
    + intros E. contradiction.
    + rewrite Hr. intros (E & _). discriminate.
    + intros E. contradiction.
  - exists r, (snd (tryHuggingFace env onStream (snd (tryPuter env onStream log0)))).
    assert (Hm : modelUsed r <> "Error").
    { eapply (tryHuggingFace_model env onStream log0 r).
      apply injective_projections; [ exact Hr | reflexivity ]. }
    split; [ reflexivity | ]. split; [ split | ].
    + intros E. contradiction.
    + rewrite Hr. intros (_ & E & _). discriminate.
    + intros E. contradiction.
  - exists r, (snd (tryLegacyApi env onStream
                      (snd (tryHuggingFace env onStream (snd (tryPuter env onStream log0)))))).
    assert (Hm : modelUsed r = "Legacy API").
    { eapply (tryLegacyApi_model env onStream log0 r).
      apply injective_projections; [ exact Hr | reflexivity ]. }
    split; [ reflexivity | ]. split; [ split | ].
    + rewrite Hm. discriminate.
    + rewrite Hr. intros (_ & _ & E). discriminate.
    + rewrite Hm. discriminate.
  - eexists. eexists. split; [ reflexivity | ].
    cbn [modelUsed FreeLlm.text]. repeat split; auto.
Qed.

Lemma tryPuter_text : forall env onStream l r l',
  tryPuter env onStream l = (Returned r, l') ->
  exists t, FreeLlm.text r = Some t /\ Js.nonEmpty t = true.
Proof.
  intros env onStream l r l'. unfold tryPuter.
  destruct (waitForPuter env) as [isLoaded waited].
  destruct isLoaded; [ | discriminate ].
  destruct (puterChat env) as [resp | t]; [ | discriminate ].
  destruct (Js.nonEmpty (puter_text resp)) eqn:Hne; [ | discriminate ].
  cbn [negb]. intros H. injection H as <- _. exists (puter_text resp). auto.
Qed.

Lemma tryHuggingFace_text : forall env onStream l r l',
  tryHuggingFace env onStream l = (Returned r, l') ->
  exists t, FreeLlm.text r = Some t /\ Js.nonEmpty t = true.
Proof.
  intros env onStream l r l'. unfold tryHuggingFace.
  destruct (hfFetch env) as [e | status body]; [ discriminate | ].
  destruct (resp_ok status); [ | discriminate ].
  destruct (hf_text body) as [[t | ] | t]; try discriminate.
  destruct (Js.nonEmpty t) eqn:Hne; [ | discriminate ].
  cbn [negb]. intros H. injection H as <- _. exists t. auto.
Qed.

Lemma surjective_pair : forall (A B : Type) (p : A * B) (a : A),
  fst p = a -> p = (a, snd p).
Proof. intros A B [x y] a H. cbn in *. subst. reflexivity. Qed.

Lemma chunks_upto : forall (n m : nat) (chunks : list string),
  n <= m ->
  Forall (fun c => 1 <= String.length c <= n) chunks ->
  Forall (fun c => 1 <= String.length c <= m) chunks.
Proof.
  intros n m chunks Hle H. induction H as [ | c chunks Hc _ IH ]; constructor; [ lia | exact IH ].
Qed.

(** What one request hands to the callback. *)
Lemma generateFreeCompletion_streamed : forall env onStream,
  exists r l,
    generateFreeCompletion env onStream = (Returned r, l)
    /\ (onStream = true -> exists t, FreeLlm.text r = Some t /\ joined (streamed l) = t)
    /\ (onStream = false -> streamed l = [])
    /\ ((modelUsed r <> "Error"
         /\ Forall (fun c => 1 <= String.length c <= 8) (streamed l))
        \/ (modelUsed r = "Error" /\ (onStream = true -> streamed l = [busy])))
    /\ (modelUsed r = "Legacy API" \/ modelUsed r = "Error"
        \/ exists t, FreeLlm.text r = Some t /\ Js.nonEmpty t = true).
Proof.
  intros env onStream.
  pose proof (generateFreeCompletion_cases env onStream) as H. cbv zeta in H.
  pose proof (tryPuter_ok env onStream log0) as Hp.
  pose proof (tryHuggingFace_ok env onStream (snd (tryPuter env onStream log0))) as Hh.
  pose proof (tryLegacyApi_ok env onStream
                (snd (tryHuggingFace env onStream (snd (tryPuter env onStream log0))))) as Hg.
  unfold attempt_ok, failed in *.
  destruct Hp as [_ Hp]. destruct Hh as [_ Hh]. destruct Hg as [_ Hg].
  set (p := tryPuter env onStream log0) in *.
  set (h := tryHuggingFace env onStream (snd p)) in *.
  set (g := tryLegacyApi env onStream (snd h)) in *.
  destruct H as [(r & Hr & ->) | [(Ep & r & Hr & ->) | [(Ep & Eh & r & Hr & ->) | (Ep & Eh & Eg & ->)]]].
  - rewrite Hr in Hp. destruct Hp as (chunks & Hs & Ht & Hf & Hsz).
    cbn [streamed log0 app] in Hs.
    pose proof (surjective_pair _ _ p _ Hr) as Hpair.
    exists r, (snd p). rewrite Hs.
    split; [ reflexivity | ]. split; [ exact Ht | ]. split; [ exact Hf | ]. split.
    + left. split; [ exact (tryPuter_model _ _ _ _ _ Hpair) | exact Hsz ].
    + right. right. exact (tryPuter_text _ _ _ _ _ Hpair).
  - destruct (fst p) as [ | tp ] eqn:Hfp; [ discriminate | ].
    rewrite Hr in Hh. destruct Hh as (chunks & Hs & Ht & Hf & Hsz).
    rewrite Hp in Hs. cbn [streamed log0 app] in Hs.
    pose proof (surjective_pair _ _ h _ Hr) as Hpair.
    exists r, (snd h). rewrite Hs.
    split; [ reflexivity | ]. split; [ exact Ht | ]. split; [ exact Hf | ]. split.
    + left. split; [ exact (tryHuggingFace_model _ _ _ _ _ Hpair) | exact Hsz ].
    + right. right. exact (tryHuggingFace_text _ _ _ _ _ Hpair).
  - destruct (fst p) as [ | tp ] eqn:Hfp; [ discriminate | ].
    destruct (fst h) as [ | th ] eqn:Hfh; [ discriminate | ].
    rewrite Hr in Hg. destruct Hg as (chunks & Hs & Ht & Hf & Hsz).
    rewrite Hh, Hp in Hs. cbn [streamed log0 app] in Hs.
    pose proof (surjective_pair _ _ g _ Hr) as Hpair.
    pose proof (tryLegacyApi_model _ _ _ _ _ Hpair) as Hm.
    exists r, (snd g). rewrite Hs.
    split; [ reflexivity | ]. split; [ exact Ht | ]. split; [ exact Hf | ]. split.
    + left. split; [ rewrite Hm; discriminate | ].
      apply (chunks_upto 4 8); [ lia | exact Hsz ].
    + left. exact Hm.
  - destruct (fst p) as [ | tp ] eqn:Hfp; [ discriminate | ].
    destruct (fst h) as [ | th ] eqn:Hfh; [ discriminate | ].
    destruct (fst g) as [ | tg ] eqn:Hfg; [ discriminate | ].
    assert (Hs : streamed (snd g) = []).
    { rewrite Hg, Hh, Hp. reflexivity. }
    eexists. eexists. split; [ reflexivity | ].
    cbn [modelUsed FreeLlm.text].
    split; [ | split; [ | split ] ].
    + intros ->. exists busy. split; [ reflexivity | ].
      cbn [stream streamed]. rewrite Hs. reflexivity.
    + intros ->. exact Hs.
    + right. split; [ reflexivity | ]. intros ->. cbn [stream streamed]. rewrite Hs. reflexivity.
    + right. left. reflexivity.
Qed.

(** X20.  Streaming round trip of the free service.  With a callback, the
    result always carries a text, and that text is exactly the chunks handed
    to the callback, put end to end in order: the simulated streaming of
    Puter and Hugging Face (8 characters) and of the legacy API (4
    characters) loses nothing, a failed provider streams nothing, and the
    busy message is streamed when all fail.  Only the legacy API can answer
    with an empty text. *)
Theorem free_stream_round_trip :
  forall (env : Env),
    exists r l t,
      generateFreeCompletion env true = (Returned r, l)
      /\ FreeLlm.text r = Some t
      /\ joined (streamed l) = t
      /\ (modelUsed r <> "Legacy API" -> t <> "").
Proof.
  intros env.
  destruct (generateFreeCompletion_streamed env true) as (r & l & Hrun & Ht & _ & Hsz & Hne).
  destruct (Ht eq_refl) as (t & Htext & Hj).
  exists r, l, t. repeat split; auto.
  intros Hm Hempty.
  destruct Hne as [Hl | [He | (t' & Ht' & Hn)]].
  - contradiction.
  - destruct Hsz as [[Hno _] | [_ Hb]]; [ contradiction | ].
    rewrite (Hb eq_refl), Hempty in Hj. discriminate.
  - rewrite Htext in Ht'. injection Ht' as <-. rewrite Hempty in Hn. discriminate.
Qed.

Lemma is_ascii_app : forall (a b : string), is_ascii (a ++ b) = is_ascii a && is_ascii b.
Proof.
  induction a as [ | c r IH ]; intros b; cbn [append is_ascii].
  - reflexivity.
  - rewrite IH, andb_assoc. reflexivity.
Qed.

Lemma is_ascii_joined : forall (chunks : list string),
  is_ascii (joined chunks) = true -> Forall (fun c => is_ascii c = true) chunks.
Proof.
  induction chunks as [ | c chunks IH ]; cbn [joined fold_right]; intros H.
  - constructor.
  - fold (joined chunks) in H. rewrite is_ascii_app in H. apply andb_prop in H.
    destruct H as [Hc Hrest]. constructor; [ exact Hc | apply IH; exact Hrest ].
Qed.

(** X22.  Shape of the streamed chunks.  When the text returned is made of
    ASCII characters, every chunk a provider's answer is cut into is
    non-empty and at most 8 characters long; the busy message is the only
    longer chunk, and when it is streamed it is the only chunk of the
    request.  Without a callback nothing is streamed. *)
Theorem free_chunks_are_small_or_the_busy_message :
  forall (env : Env) (onStream : bool) (r : FreeGenerationResult) (l : Log),
    generateFreeCompletion env onStream = (Returned r, l) ->
    (forall t, FreeLlm.text r = Some t -> is_ascii t = true) ->
    (Forall (fun c => is_ascii c = true /\ 1 <= String.length c <= 8) (streamed l)
     \/ streamed l = [busy])
    /\ (In busy (streamed l) -> streamed l = [busy])
    /\ (onStream = false -> streamed l = []).
Proof.
  intros env onStream r l Hrun Hascii.
  destruct (generateFreeCompletion_streamed env onStream) as (r' & l' & Hrun' & Ht & Hf & Hsz & _).
  rewrite Hrun in Hrun'. injection Hrun' as <- <-.
  assert (Hchunks : Forall (fun c => is_ascii c = true) (streamed l)).
  { destruct onStream.
    - destruct (Ht eq_refl) as (t & Htext & Hj).
      apply is_ascii_joined. rewrite Hj. apply Hascii. exact Htext.
    - rewrite (Hf eq_refl). constructor. }
  split; [ | split ].
  - destruct Hsz as [[_ Hs] | [_ Hb]].
    + left. rewrite Forall_forall in *. intros c Hc. split; [ apply Hchunks | apply Hs ]; exact Hc.
    + destruct onStream; [ right; auto | left; rewrite Hf by reflexivity; constructor ].
  - intros Hin. destruct Hsz as [[_ Hs] | [_ Hb]].
    + rewrite Forall_forall in Hs. apply Hs in Hin. vm_compute in Hin. lia.
    + destruct onStream; [ auto | ]. rewrite Hf in Hin by reflexivity. destruct Hin.
  - exact Hf.
Qed.

Lemma free_chunks_are_small_or_the_busy_message_witness :
  Forall (fun c => is_ascii c = true /\ 1 <= String.length c <= 8) ["Hello, w"; "orld!"]
  \/ ["Hello, w"; "orld!"] = [busy].
Proof.
  destruct (free_chunks_are_small_or_the_busy_message
              (mkEnv true (Some 0) (Returned (RespString "Hello, world!"))
                     (Answer 503 NotJson) (Answer 503 NotJson))
              true
              (mkFree (Some "Hello, world!") "Instant (Auto)")
              (mkLog ["Hello, w"; "orld!"] [PuterChat] 0)
              eq_refl) as (H & _).
  - intros t [= <-]. reflexivity.
  - exact H.
Defined.

(** Puter and Hugging Face answer the same with or without a callback. *)
Lemma tryPuter_callback : forall env l,
  fst (tryPuter env false l) = fst (tryPuter env true l).
Proof.
  intros env l. unfold tryPuter.
  destruct (waitForPuter env) as [isLoaded waited].
  destruct isLoaded; [ | reflexivity ].
  destruct (puterChat env) as [resp | t]; [ | reflexivity ].
  destruct (Js.nonEmpty (puter_text resp)); reflexivity.
Qed.

Lemma tryHuggingFace_callback : forall env l,
  fst (tryHuggingFace env false l) = fst (tryHuggingFace env true l).
Proof.
  intros env l. unfold tryHuggingFace.
  destruct (hfFetch env) as [e | status body]; [ reflexivity | ].
  destruct (resp_ok status); [ | reflexivity ].
  destruct (hf_text body) as [[t | ] | t]; try reflexivity.
  destruct (Js.nonEmpty t); reflexivity.
Qed.

Lemma tryLegacyApi_callback : forall env l,
  fst (tryLegacyApi env false l) = fst (tryLegacyApi env true l)
  \/ (fst (tryLegacyApi env false l) = Returned (mkFree None "Legacy API")
      /\ failed (tryLegacyApi env true l) = true).
Proof.
  intros env l. unfold tryLegacyApi, failed.
  destruct (legacyFetch env) as [e | status body]; [ left; reflexivity | ].
  destruct (resp_ok status); [ | left; reflexivity ].
  destruct body as [ | | data]; try (left; reflexivity).
  destruct (is_success data); [ | left; reflexivity ].
  destruct (response data) as [aiText | ]; [ left; reflexivity | ].
  right. split; reflexivity.
Qed.

Lemma generateFreeCompletion_fst : forall env onStream,
  fst (generateFreeCompletion env onStream)
  = match fst (tryPuter env onStream log0) with
    | Returned r => Returned r
    | Threw _ =>
        match fst (tryHuggingFace env onStream log0) with
        | Returned r => Returned r
        | Threw _ =>
            match fst (tryLegacyApi env onStream log0) with
            | Returned r => Returned r
            | Threw _ => Returned (mkFree (Some busy) "Error")
            end
        end
    end.
Proof.
  intros env onStream. unfold generateFreeCompletion, try_catch.
  destruct (tryPuter env onStream log0) as [[r | t] l1]; cbn [fst]; [ reflexivity | ].
  rewrite <- (tryHuggingFace_fst env onStream l1).
  destruct (tryHuggingFace env onStream l1) as [[r | t'] l2]; cbn [fst]; [ reflexivity | ].
  rewrite <- (tryLegacyApi_fst env onStream l2).
  destruct (tryLegacyApi env onStream l2) as [[r | t''] l3]; reflexivity.
Qed.

(** X21.  Passing a callback can change the answer.  The result of
    [generateFreeCompletion] is the same with and without [onStream], with
    one exception: when the answer comes from the legacy API with status
    'success' and no [response], the call without a callback returns an
    undefined text signed 'Legacy API', while the call with a callback
    (whose chunk loop reads [aiText.length]) ends in the busy message signed
    'Error'. *)
Theorem callback_only_changes_a_textless_legacy_answer :
  forall (env : Env),
    fst (generateFreeCompletion env false) = fst (generateFreeCompletion env true)
    \/ (fst (generateFreeCompletion env false) = Returned (mkFree None "Legacy API")
        /\ fst (generateFreeCompletion env true) = Returned (mkFree (Some busy) "Error")).
Proof.
  intros env. rewrite !generateFreeCompletion_fst.
  rewrite (tryPuter_callback env log0), (tryHuggingFace_callback env log0).
  destruct (fst (tryPuter env true log0)) as [r | t]; [ left; reflexivity | ].
  destruct (fst (tryHuggingFace env true log0)) as [r | t']; [ left; reflexivity | ].
  destruct (tryLegacyApi_callback env log0) as [-> | [-> Hf]]; [ left; reflexivity | ].
  right. unfold failed in Hf.
  destruct (fst (tryLegacyApi env true log0)); [ discriminate | ]. split; reflexivity.
Qed.

(** The exception of X21 occurs. *)
Example textless_legacy_answer :
  fst (generateFreeCompletion legacy_without_response false)
  = Returned (mkFree None "Legacy API")
  /\ fst (generateFreeCompletion legacy_without_response true)
     = Returned (mkFree (Some busy) "Error").
Proof. split; reflexivity. Qed.

Lemma generateFreeCompletion_log : forall env onStream,
  let l := snd (generateFreeCompletion env onStream) in
  polls l = snd (waitForPuter env)
  /\ exists tail,
       calls l = ((if fst (waitForPuter env) then [PuterChat] else []) ++ tail)%list
       /\ In tail [ []; [HuggingFaceFetch]; [HuggingFaceFetch; LegacyFetch] ]
       /\ (fst (waitForPuter env) = false -> tail <> []).
Proof.
  intros env onStream. cbv zeta.
  pose proof (generateFreeCompletion_cases env onStream) as H. cbv zeta in H.
  destruct (tryPuter_calls env onStream log0) as [Cp Pp].
  destruct (tryHuggingFace_calls env onStream (snd (tryPuter env onStream log0))) as [Ch Ph].
  destruct (tryLegacyApi_calls env onStream
              (snd (tryHuggingFace env onStream (snd (tryPuter env onStream log0))))) as [Cg Pg].
  set (p := tryPuter env onStream log0) in *.
  set (h := tryHuggingFace env onStream (snd p)) in *.
  set (g := tryLegacyApi env onStream (snd h)) in *.
  cbn [log0 calls polls app] in Cp, Pp.
  assert (Hload : fst (waitForPuter env) = false -> failed p = true).
  { intros Hw. subst p. unfold failed, tryPuter.
    destruct (waitForPuter env) as [isLoaded waited]. cbn [fst] in Hw. subst isLoaded.
    reflexivity. }
  destruct H as [(r & Hr & ->) | [(Ep & r & Hr & ->) | [(Ep & Eh & r & Hr & ->) | (Ep & Eh & Eg & ->)]]];
    cbn [snd].
  - split; [ exact Pp | ]. exists []. rewrite app_nil_r.
    split; [ exact Cp | ]. split; [ left; reflexivity | ].
    intros Hw. apply Hload in Hw. unfold failed in Hw. rewrite Hr in Hw. discriminate.
  - split; [ rewrite Ph; exact Pp | ]. exists [HuggingFaceFetch].
    split; [ rewrite Ch, Cp; reflexivity | ]. split; [ right; left; reflexivity | discriminate ].
  - split; [ rewrite Pg, Ph; exact Pp | ]. exists [HuggingFaceFetch; LegacyFetch].
    split; [ rewrite Cg, Ch, Cp, <- app_assoc; reflexivity | ].
    split; [ right; right; left; reflexivity | discriminate ].
  - assert (Hl : polls (if onStream then stream [busy] (snd g) else snd g) = polls (snd g)
                 /\ calls (if onStream then stream [busy] (snd g) else snd g) = calls (snd g)).
    { destruct onStream; split; reflexivity. }
    destruct Hl as [-> ->].
    split; [ rewrite Pg, Ph; exact Pp | ]. exists [HuggingFaceFetch; LegacyFetch].
    split; [ rewrite Cg, Ch, Cp, <- app_assoc; reflexivity | ].
    split; [ right; right; left; reflexivity | discriminate ].
Qed.

(** X23.  Order of the providers.  One request reaches each provider at most
    once and in the fixed order Puter, Hugging Face, legacy API; a provider
    is reached only after the ones before it, and at least one request is
    always made. *)
Theorem providers_tried_in_order :
  forall (env : Env) (onStream : bool),
    In (calls (snd (generateFreeCompletion env onStream))) call_orders.
Proof.
  intros env onStream.
  destruct (generateFreeCompletion_log env onStream) as (_ & tail & -> & Hin & Hne).
  unfold call_orders.
  destruct (fst (waitForPuter env)).
  - destruct Hin as [<- | [<- | [<- | []]]]; cbn; tauto.
  - specialize (Hne eq_refl).
    destruct Hin as [<- | [<- | [<- | []]]]; cbn; tauto.
Qed.

(** X24.  Waiting for Puter.  Outside a browser nothing is waited for and
    Puter is not asked.  In a browser the library is polled at most 20
    times, 200 ms apart: Puter is asked exactly when the library shows up at
    one of the polls 0..19, after as many waits as polls that missed it;
    otherwise the request has waited 20 times (4 s) before Hugging Face is
    tried, and a library that shows up during the twentieth wait is not
    noticed. *)
Theorem puter_polled_twenty_times :
  forall (env : Env) (onStream : bool),
    polls (snd (generateFreeCompletion env onStream))
    = (if hasWindow env then
         match puterAppearsAt env with
         | Some k => Nat.min k 20
         | None => 20
         end
       else 0)
    /\ (In PuterChat (calls (snd (generateFreeCompletion env onStream)))
        <-> hasWindow env = true /\ exists k, puterAppearsAt env = Some k /\ k < 20).
Proof.
  intros env onStream.
  destruct (generateFreeCompletion_log env onStream) as (-> & tail & -> & Hin & _).
  rewrite waitForPuter_spec.
  assert (Htail : ~ In PuterChat tail).
  { destruct Hin as [<- | [<- | [<- | []]]]; cbn; intuition discriminate. }
  destruct (hasWindow env).
  - destruct (puterAppearsAt env) as [k | ].
    + destruct (Nat.ltb_spec k 20) as [Hlt | Hge]; cbn [fst snd].
      * split; [ lia | ]. split.
        -- intros _. split; [ reflexivity | ]. exists k. auto.
        -- intros _. left. reflexivity.
      * split; [ lia | ]. split.
        -- cbn [app]. intros Hc. contradiction.
        -- intros (_ & k' & Hk & Hlt). injection Hk as <-. lia.
    + cbn [fst snd app]. split; [ reflexivity | ]. split.
      * intros Hc. contradiction.
      * intros (_ & k' & Hk & _). discriminate.
  - cbn [fst snd app]. split; [ reflexivity | ]. split.
    + intros Hc. contradiction.
    + intros (H & _). discriminate.
Qed.

Example no_window_no_wait :
  polls (snd (generateFreeCompletion
                (mkEnv false (Some 0) (Returned (RespString "hi")) (Answer 503 NotJson)
                       (Answer 503 NotJson)) true)) = 0.
Proof. reflexivity. Qed.

End FreeFacts.

Section InstantFacts.
Import Agent Instant.

(** X25.  Instant mode on top of the free service.  With the agent's instant
    mode served by [generateFreeCompletion], the handler never rejects: the
    error 'Instant mode service unavailable.' is not reachable through the
    service.  The reply is one message whose text is what was streamed to the
    callback and whose model is the provider's signature, or 'Error' with
    the busy message; the handler fetches the memory and calls the free
    service, and nothing else: no routing, search or model call is made. *)
Theorem instant_mode_always_replies :
  forall (fenv : FreeLlm.Env) (env : Env) (input : AgentInput) (fuel : nat),
    thinkingMode input = instant ->
    exists run r,
      runAutonomousAgent (connect fenv env) input fuel = Some run
      /\ exit run = ExitInstant
      /\ fst (FreeLlm.generateFreeCompletion fenv true) = Returned r
      /\ result run
         = Returned [ mkMessage
                        (joined (FreeLlm.streamed (snd (FreeLlm.generateFreeCompletion fenv true))))
                        (Some (FreeLlm.modelUsed r)) None ]
      /\ trace (world run) = [EvMemoryFetch; EvFreeCompletion]
      /\ nativeCalls (world run) = 0 /\ openRouterCalls (world run) = 0
      /\ searchCalls (world run) = 0.
Proof.
  intros fenv env input fuel Hmode.
  destruct (generateFreeCompletion_streamed fenv true) as (r & l & Hrun & Ht & _).
  destruct (Ht eq_refl) as (t & Htext & Hj).
  unfold runAutonomousAgent. rewrite Hmode.
  cbn [connect freeCompletion]. unfold service. rewrite Hrun. cbn [fst snd].
  rewrite Htext, Hj.
  eexists. exists r.
  split; [ reflexivity | ]. cbn [exit result world].
  repeat split; auto.
Qed.

Lemma instant_mode_always_replies_witness :
  exists run,
    runAutonomousAgent
      (connect FreeLlm.legacy_without_response
         (Scenario.script None (fun _ => ApiStream ([], None))
            (fun _ => OpenRouterError Scenario.quota_error) None))
      (Scenario.request "hi" None instant Scenario.no_profile) 5 = Some run
    /\ result run = Returned [ mkMessage FreeLlm.busy (Some "Error") None ].
Proof.
  destruct (instant_mode_always_replies FreeLlm.legacy_without_response
              (Scenario.script None (fun _ => ApiStream ([], None))
                 (fun _ => OpenRouterError Scenario.quota_error) None)
              (Scenario.request "hi" None instant Scenario.no_profile) 5 eq_refl)
    as (run & r & Hrun & _ & Hr & Hres & _).
  exists run. split; [ exact Hrun | ].
  rewrite Hres. vm_compute in Hr. injection Hr as <-. reflexivity.
Defined.

End InstantFacts.

(** ** The event-stream reader of generateOpenRouterStream *)

Section SseFacts.
Import OpenRouterSse.

Variable content_of : string -> Outcome (option string).

Lemma split_cons : forall (sep : ascii) (s : string), exists h t, split sep s = h :: t.
Proof.
  intros sep s. destruct s as [ | c r ]; cbn [split].
  - eauto.
  - destruct (Ascii.eqb c sep); [ eauto | ].
    destruct (split sep r); eauto.
Qed.

Lemma removelast_cons2 : forall (A : Type) (a b : A) (l : list A),
  removelast (a :: b :: l) = a :: removelast (b :: l).
Proof. reflexivity. Qed.

Lemma last_cons2 : forall (A : Type) (a b : A) (l : list A) (d : A),
  last (a :: b :: l) d = last (b :: l) d.
Proof. reflexivity. Qed.

(** [split] then [pop] is the left-to-right reading. *)
Lemma split_scan : forall (s cur : string) (h : string) (t : list string),
  split newline s = h :: t ->
  scan cur s = (removelast ((cur ++ h) :: t), last ((cur ++ h) :: t) "").
Proof.
  induction s as [ | c r IH ]; intros cur h t Hs; cbn [split] in Hs; cbn [scan].
  - injection Hs as <- <-. cbn [removelast last]. rewrite append_empty_r. reflexivity.
  - destruct (Ascii.eqb c newline).
    + injection Hs as <- <-.
      destruct (split_cons newline r) as (h' & t' & Hr).
      rewrite (IH "" h' t' Hr), Hr. cbn [append].
      rewrite append_empty_r. reflexivity.
    + destruct (split_cons newline r) as (h' & t' & Hr). rewrite Hr in Hs.
      injection Hs as <- <-.
      rewrite (IH (cur ++ String c "") h' t' Hr).
      rewrite append_assoc'. reflexivity.
Qed.

Lemma split_scan0 : forall (s : string),
  scan "" s = (removelast (split newline s), last (split newline s) "").
Proof.
  intros s. destruct (split_cons newline s) as (h & t & Hs).
  rewrite (split_scan s "" h t Hs), Hs. reflexivity.
Qed.

Lemma scan_app : forall (x y cur : string),
  scan cur (x ++ y)
  = (fst (scan cur x) ++ fst (scan (snd (scan cur x)) y),
     snd (scan (snd (scan cur x)) y))%list.
Proof.
  induction x as [ | c r IH ]; intros y cur; cbn [append scan].
  - cbn [fst snd app]. destruct (scan cur y); reflexivity.
  - destruct (Ascii.eqb c newline).
    + rewrite (IH y ""). destruct (scan "" r) as [ls rem]. cbn [fst snd app]. reflexivity.
    + apply IH.
Qed.

Lemma no_newline_app : forall (a b : string),
  no_newline (a ++ b) = no_newline a && no_newline b.
Proof.
  induction a as [ | c r IH ]; intros b; cbn [append no_newline].
  - reflexivity.
  - rewrite IH, andb_assoc. reflexivity.
Qed.

Lemma scan_no_newline : forall (s cur : string),
  no_newline s = true -> scan cur s = ([], cur ++ s).
Proof.
  induction s as [ | c r IH ]; intros cur Hs; cbn [scan].
  - rewrite append_empty_r. reflexivity.
  - cbn [no_newline] in Hs. apply andb_prop in Hs. destruct Hs as [Hc Hr].
    apply negb_true_iff in Hc. rewrite Hc. rewrite (IH _ Hr).
    rewrite append_assoc'. reflexivity.
Qed.

Lemma scan_rest_clean : forall (s cur : string),
  no_newline cur = true -> no_newline (snd (scan cur s)) = true.
Proof.
  induction s as [ | c r IH ]; intros cur Hc; cbn [scan].
  - exact Hc.
  - destruct (Ascii.eqb c newline) eqn:E.
    + specialize (IH "" eq_refl). destruct (scan "" r) as [ls rem]. exact IH.
    + apply IH. rewrite no_newline_app, Hc. cbn [no_newline]. rewrite E. reflexivity.
Qed.

(** Reading on from a clean buffer is reading the buffer and the piece. *)
Lemma scan_buffer : forall (b v : string),
  no_newline b = true -> scan "" (b ++ v) = scan b v.
Proof.
  intros b v Hb. rewrite scan_app. rewrite (scan_no_newline b "" Hb).
  cbn [fst snd app append]. destruct (scan b v); reflexivity.
Qed.

Lemma for_lines_app : forall (l1 l2 : list string) (em : list string),
  for_lines content_of (l1 ++ l2) em
  = if snd (for_lines content_of l1 em) then for_lines content_of l1 em
    else for_lines content_of l2 (fst (for_lines content_of l1 em)).
Proof.
  induction l1 as [ | line l1 IH ]; intros l2 em; cbn [app for_lines].
  - reflexivity.
  - destruct (on_line content_of line); [ apply IH | apply IH | reflexivity ].
Qed.

Lemma read_scan : forall (value : string) (st : Reader),
  no_newline (buffer st) = true ->
  read content_of value st
  = mkReader (snd (scan (buffer st) value))
             (fst (for_lines content_of (fst (scan (buffer st) value)) (emitted st)))
             (snd (for_lines content_of (fst (scan (buffer st) value)) (emitted st))).
Proof.
  intros value st Hb. unfold read.
  pose proof (split_scan0 (buffer st ++ value)) as H.
  rewrite (scan_buffer _ _ Hb) in H. rewrite H. cbn [fst snd].
  destruct (for_lines content_of (removelast (split newline (buffer st ++ value))) (emitted st)).
  reflexivity.
Qed.

Lemma read_clean : forall (value : string) (st : Reader),
  no_newline (buffer st) = true -> no_newline (buffer (read content_of value st)) = true.
Proof.
  intros value st Hb. rewrite (read_scan value st Hb). cbn [buffer].
  apply scan_rest_clean. exact Hb.
Qed.

(** Two pieces read one after the other, or as one piece. *)
Lemma read_fuse : forall (v1 v2 : string) (st : Reader),
  no_newline (buffer st) = true ->
  let st1 := read content_of v1 st in
  let st12 := read content_of (v1 ++ v2) st in
  if finished st1 then output st12 = output st1
  else st12 = read content_of v2 st1.
Proof.
  intros v1 v2 st Hb. cbv zeta.
  rewrite (read_scan (v1 ++ v2) st Hb).
  rewrite (read_scan v2 (read content_of v1 st) (read_clean v1 st Hb)).
  rewrite (read_scan v1 st Hb). cbn [buffer emitted finished].
  rewrite scan_app. cbn [fst snd]. rewrite for_lines_app.
  destruct (for_lines content_of (fst (scan (buffer st) v1)) (emitted st)) as [em1 d1].
  cbn [fst snd]. destruct d1; reflexivity.
Qed.

Lemma pump_fuse : forall (v1 v2 : string) (rest : list string) (st : Reader),
  no_newline (buffer st) = true ->
  output (pump content_of (v1 :: v2 :: rest) st)
  = output (pump content_of ((v1 ++ v2) :: rest) st).
Proof.
  intros v1 v2 rest st Hb. pose proof (read_fuse v1 v2 st Hb) as H. cbv zeta in H.
  cbn [pump]. destruct (finished (read content_of v1 st)) eqn:E1.
  - assert (E12 : finished (read content_of (v1 ++ v2) st) = true).
    { unfold output in H. injection H as _ ->. exact E1. }
    rewrite E12. symmetry. exact H.
  - rewrite H. reflexivity.
Qed.

Lemma pump_joined : forall (rest : list string) (v : string) (st : Reader),
  no_newline (buffer st) = true ->
  output (pump content_of (v :: rest) st)
  = output (pump content_of [v ++ joined rest] st).
Proof.
  induction rest as [ | v2 rest IH ]; intros v st Hb.
  - cbn [joined fold_right]. rewrite append_empty_r. reflexivity.
  - rewrite (pump_fuse v v2 rest st Hb). rewrite (IH (v ++ v2) st Hb).
    cbn [joined fold_right]. fold (joined rest). rewrite append_assoc'. reflexivity.
Qed.

Lemma pump_one : forall (v : string) (st : Reader),
  output (pump content_of [v] st) = output (read content_of v st).
Proof.
  intros v st. cbn [pump]. destruct (finished (read content_of v st)); reflexivity.
Qed.

Lemma read_body_output : forall (values values' : list string) (failure : option JsError),
  output (pump content_of values reader0) = output (pump content_of values' reader0) ->
  read_body content_of values failure = read_body content_of values' failure.
Proof.
  intros values values' failure H. unfold read_body, output in *.
  injection H as -> ->. reflexivity.
Qed.

(** X26.  Independence of the network's cutting.  What the reader hands to
    [onChunk], and how it ends, depends only on the text of the body, not on
    how the network cut it into pieces: reading the pieces one by one gives
    the same as reading the whole text as one piece.  A line cut in two by
    the network is put together again by the buffer. *)
Theorem stream_reading_ignores_piece_boundaries :
  forall (values : list string) (failure : option JsError),
    read_body content_of values failure
    = read_body content_of [joined values] failure.
Proof.
  intros values failure. apply read_body_output.
  destruct values as [ | v rest ].
  - rewrite pump_one. cbn [pump joined fold_right]. reflexivity.
  - apply pump_joined. reflexivity.
Qed.

Lemma scan_unlines : forall (ls : list string), snd (scan "" (unlines ls)) = "".
Proof.
  induction ls as [ | l ls IH ].
  - reflexivity.
  - cbn [unlines fold_right]. fold (unlines ls). rewrite scan_app. cbn [snd].
    unfold Js.nl. cbn [append scan]. change (Ascii.eqb (ascii_of_nat 10) newline) with true.
    cbv iota. destruct (scan "" (unlines ls)) as [ls' rem]. exact IH.
Qed.

Lemma on_line_done : on_line content_of done_line = Done.
Proof. reflexivity. Qed.

Lemma read_first : forall (text : string),
  output (read content_of text reader0)
  = for_lines content_of (fst (scan "" text)) [].
Proof.
  intros text. rewrite (read_scan text reader0 eq_refl). unfold output.
  cbn [buffer emitted finished reader0].
  destruct (for_lines content_of (fst (scan "" text)) []); reflexivity.
Qed.

Lemma read_body_one : forall (text : string) (failure : option JsError),
  read_body content_of [text] failure
  = (if snd (for_lines content_of (fst (scan "" text)) []) then Returned tt
     else match failure with
          | Some e => Threw (ThrownError e)
          | None => Returned tt
          end,
     fst (for_lines content_of (fst (scan "" text)) [])).
Proof.
  intros text failure. unfold read_body.
  pose proof (pump_one text reader0) as H. rewrite read_first in H.
  unfold output in H.
  set (st := pump content_of [text] reader0) in *.
  destruct (for_lines content_of (fst (scan "" text)) []) as [em d].
  injection H as -> ->. cbn [fst snd].
  destruct d; [ reflexivity | ]. destruct failure; reflexivity.
Qed.

Lemma scan_done : forall (post : string),
  fst (scan "" (done_line ++ Js.nl ++ post)) = done_line :: fst (scan "" post).
Proof.
  intros post. rewrite scan_app. rewrite (scan_no_newline done_line "" eq_refl).
  cbn [fst snd app]. unfold Js.nl. cbn [append scan].
  change (Ascii.eqb (ascii_of_nat 10) newline) with true.
  cbv iota. destruct (scan "" post); reflexivity.
Qed.

(** X27.  Nothing after the end marker.  Once a complete line 'data: [DONE]'
    has been read, the function returns: whatever follows it in the body is
    never handed to [onChunk], and a later failure of the connection is not
    seen.  What was emitted is what the lines before the marker give. *)
Theorem nothing_is_read_after_done :
  forall (ls : list string) (post : string) (failure : option JsError),
    read_body content_of [unlines ls ++ done_line ++ Js.nl ++ post] failure
    = (Returned tt, snd (read_body content_of [unlines ls] None)).
Proof.
  intros ls post failure. rewrite !read_body_one.
  rewrite scan_app, scan_unlines. cbn [fst].
  rewrite scan_done, for_lines_app. cbn [for_lines]. rewrite on_line_done.
  destruct (for_lines content_of (fst (scan "" (unlines ls))) []) as [em d].
  destruct d; reflexivity.
Qed.

(** X28.  An unterminated last line is dropped.  Text after the last line
    feed of the body stays in the buffer and is never handed to [onChunk],
    also when the body ends: a final event that the server did not
    terminate by a line feed is lost. *)
Theorem unterminated_last_line_is_dropped :
  forall (ls : list string) (tail : string) (failure : option JsError),
    no_newline tail = true ->
    read_body content_of [unlines ls ++ tail] failure
    = read_body content_of [unlines ls] failure.
Proof.
  intros ls tail failure Ht. apply read_body_output.
  rewrite !pump_one, !read_first.
  rewrite scan_app, scan_unlines. cbn [fst].
  rewrite (scan_no_newline tail "" Ht). cbn [fst]. rewrite app_nil_r. reflexivity.
Qed.

Variable error_message_of : string -> Outcome (option string).


End SseFacts.

Lemma unterminated_last_line_is_dropped_witness :
  OpenRouterSse.read_body (fun s => Returned (Some s))
    [OpenRouterSse.unlines ["data: Hel"] ++ "data: lo"] None
  = (Returned tt, ["Hel"]).
Proof.
  rewrite (unterminated_last_line_is_dropped (fun s => Returned (Some s))
             ["data: Hel"] "data: lo" None eq_refl).
  reflexivity.
Defined.

(** A body cut inside a line, with a keep-alive comment, a payload that does
    not parse and text after the end marker. *)
Example reading_a_cut_body :
  OpenRouterSse.read_body
    (fun s => if String.eqb s "{bad" then Threw (ThrownError (SyntaxError "Unexpected end of JSON input"))
              else Returned (Some s))
    [ OpenRouterSse.unlines [": OPENROUTER PROCESSING"; ""] ++ "da";
      "ta: Hel" ++ OpenRouterSse.unlines [""; "data: {bad"; "  data: lo  "; "data: [DONE]"; "data: !"] ]
    (Some (Error "network error"))
  = (Returned tt, ["Hel"; "lo"]).
Proof. vm_compute. reflexivity. Qed.

(** ** The local chat title *)

Section TitleFacts.
Import Title.

Lemma length_append' : forall (a b : string),
  String.length (a ++ b) = String.length a + String.length b.
Proof.
  induction a as [ | c r IH ]; intros b; cbn [append String.length].
  - reflexivity.
  - rewrite IH. reflexivity.
Qed.

(** [split] never gives the empty array. *)
Lemma split_spaces_cons : forall (s cur : string) (inSpace : bool),
  exists w ws, split_spaces cur inSpace s = w :: ws.
Proof.
  induction s as [ | c r IH ]; intros cur inSpace; cbn [split_spaces].
  - eauto.
  - destruct (Js.isSpace c).
    + destruct inSpace; [ apply IH | eauto ].
    + apply IH.
Qed.

(** The title of an ASCII message is made of ASCII characters. *)
Lemma is_ascii_rev : forall (s : string), FreeLlm.is_ascii (Js.rev s) = FreeLlm.is_ascii s.
Proof.
  induction s as [ | c r IH ]; cbn [Js.rev FreeLlm.is_ascii].
  - reflexivity.
  - rewrite is_ascii_app, IH. cbn [FreeLlm.is_ascii]. rewrite andb_true_r. apply andb_comm.
Qed.

Lemma is_ascii_trimStart : forall (s : string),
  FreeLlm.is_ascii s = true -> FreeLlm.is_ascii (Js.trimStart s) = true.
Proof.
  induction s as [ | c r IH ]; cbn [Js.trimStart]; intros H.
  - reflexivity.
  - destruct (Js.isSpace c); [ | exact H ].
    cbn [FreeLlm.is_ascii] in H. apply andb_prop in H. apply IH. apply H.
Qed.

Lemma is_ascii_trim : forall (s : string),
  FreeLlm.is_ascii s = true -> FreeLlm.is_ascii (Js.trim s) = true.
Proof.
  intros s H. unfold Js.trim. rewrite is_ascii_rev. apply is_ascii_trimStart.
  rewrite is_ascii_rev. apply is_ascii_trimStart. exact H.
Qed.

Lemma is_ascii_strip_tags : forall (s : string) (inTag : bool),
  FreeLlm.is_ascii s = true -> FreeLlm.is_ascii (strip_tags inTag s) = true.
Proof.
  induction s as [ | c r IH ]; intros inTag H; cbn [strip_tags].
  - reflexivity.
  - cbn [FreeLlm.is_ascii] in H. apply andb_prop in H. destruct H as [Hc Hr].
    destruct inTag.
    + destruct (Ascii.eqb c gt); apply IH; exact Hr.
    + destruct (Ascii.eqb c lt && has_gt r); [ apply IH; exact Hr | ].
      cbn [FreeLlm.is_ascii]. rewrite Hc. apply IH. exact Hr.
Qed.

Lemma is_ascii_split_spaces : forall (s cur : string) (inSpace : bool),
  FreeLlm.is_ascii cur = true -> FreeLlm.is_ascii s = true ->
  Forall (fun w => FreeLlm.is_ascii w = true) (split_spaces cur inSpace s).
Proof.
  induction s as [ | c r IH ]; intros cur inSpace Hcur H; cbn [split_spaces].
  - constructor; [ exact Hcur | constructor ].
  - cbn [FreeLlm.is_ascii] in H. apply andb_prop in H. destruct H as [Hc Hr].
    destruct (Js.isSpace c).
    + destruct inSpace; [ apply IH; auto | constructor; [ exact Hcur | apply IH; auto ] ].
    + apply IH; [ | exact Hr ].
      rewrite is_ascii_app, Hcur. cbn [FreeLlm.is_ascii]. rewrite Hc. reflexivity.
Qed.

Lemma Forall_firstn' : forall (A : Type) (P : A -> Prop) (n : nat) (l : list A),
  Forall P l -> Forall P (firstn n l).
Proof.
  intros A P n. induction n as [ | n IH ]; intros l H; cbn [firstn].
  - constructor.
  - destruct H as [ | x l Hx Hl ]; constructor; [ exact Hx | apply IH; exact Hl ].
Qed.

Lemma is_ascii_join_space : forall (words : list string),
  Forall (fun w => FreeLlm.is_ascii w = true) words ->
  FreeLlm.is_ascii (join_space words) = true.
Proof.
  induction words as [ | w words IH ]; intros H.
  - reflexivity.
  - inversion H as [ | ? ? Hw Hrest ]; subst.
    destruct words as [ | w' words ]; [ exact Hw | ].
    change (join_space (w :: w' :: words)) with (w ++ " " ++ join_space (w' :: words)).
    rewrite !is_ascii_app, Hw, (IH Hrest). reflexivity.
Qed.

Lemma is_ascii_take : forall (n : nat) (s : string),
  FreeLlm.is_ascii s = true -> FreeLlm.is_ascii (FreeLlm.take n s) = true.
Proof.
  induction n as [ | n IH ]; intros s H.
  - reflexivity.
  - destruct s as [ | c r ]; [ reflexivity | ].
    cbn [FreeLlm.take FreeLlm.is_ascii] in *. apply andb_prop in H. destruct H as [Hc Hr].
    rewrite Hc. apply IH. exact Hr.
Qed.

(** X30.  The local title, for a message of ASCII characters.
    [createLocalTitle] returns ASCII characters, never more than 28 of them
    (25 and an ellipsis).  Its second 'New Chat' guard is never taken, since
    [split] never yields an empty array: a non-empty message that is blank
    once its tags are removed gets the empty title, not 'New Chat'. *)
Theorem local_title_is_short_and_may_be_empty :
  forall (text : string),
    FreeLlm.is_ascii text = true ->
    FreeLlm.is_ascii (createLocalTitle text) = true
    /\ String.length (createLocalTitle text) <= 28
    /\ (text <> "" -> Js.trim (strip_tags false text) = "" -> createLocalTitle text = "")
    /\ (text <> "" ->
        createLocalTitle text
        = let title := join_space (firstn 4 (split_spaces "" false (Js.trim (strip_tags false text)))) in
          if 25 <? String.length title then FreeLlm.take 25 title ++ "..." else title).
Proof.
  intros text Hascii.
  assert (Hguard : text <> "" ->
            createLocalTitle text
            = let title := join_space (firstn 4 (split_spaces "" false (Js.trim (strip_tags false text)))) in
              if 25 <? String.length title then FreeLlm.take 25 title ++ "..." else title).
  { intros Hne. unfold createLocalTitle.
    destruct text as [ | c r ]; [ contradiction | ]. cbn [Js.nonEmpty negb].
    destruct (split_spaces_cons (Js.trim (strip_tags false (String c r))) "" false) as (w & ws & ->).
    reflexivity. }
  assert (Htitle : FreeLlm.is_ascii
            (join_space (firstn 4 (split_spaces "" false (Js.trim (strip_tags false text))))) = true).
  { apply is_ascii_join_space. apply Forall_firstn'. apply is_ascii_split_spaces; [ reflexivity | ].
    apply is_ascii_trim. apply is_ascii_strip_tags. exact Hascii. }
  split; [ | split; [ | split; [ | exact Hguard ] ] ].
  - destruct text as [ | c r ]; [ reflexivity | ].
    rewrite Hguard by discriminate. cbv zeta.
    destruct (25 <? _); [ | exact Htitle ].
    rewrite is_ascii_app, (is_ascii_take 25 _ Htitle). reflexivity.
  - destruct text as [ | c r ]; [ cbn; lia | ].
    rewrite Hguard by discriminate. cbv zeta.
    destruct (Nat.ltb_spec 25 (String.length
                (join_space (firstn 4 (split_spaces "" false (Js.trim (strip_tags false (String c r)))))))) as [Hlt | Hle].
    + rewrite length_append', take_length. cbn [String.length]. lia.
    + lia.
  - intros Hne Hclean. rewrite (Hguard Hne), Hclean. reflexivity.
Qed.

Lemma local_title_is_short_and_may_be_empty_witness :
  createLocalTitle "<b></b>" = ""
  /\ String.length
       (createLocalTitle "  Please <i>summarise</i> the   quarterly financial report for me") <= 28.
Proof.
  split.
  - destruct (local_title_is_short_and_may_be_empty "<b></b>" eq_refl) as (_ & _ & H & _).
    apply H; [ discriminate | reflexivity ].
  - destruct (local_title_is_short_and_may_be_empty
                "  Please <i>summarise</i> the   quarterly financial report for me" eq_refl)
      as (_ & H & _).
    exact H.
Defined.

Example title_of_markup_only : createLocalTitle "<b></b>" = "".
Proof. reflexivity. Qed.

Example title_of_long_message :
  createLocalTitle "  Please <i>summarise</i> the   quarterly financial report for me"
  = "Please summarise the quar...".
Proof. reflexivity. Qed.

End TitleFacts.
